(** * WealthFlow: the forecast engine and the heuristic advisor

    A shallow embedding of [lib/forecast.ts] and [lib/heuristic-advisor.ts].

    Modelling conventions.
    - The engine is embedded twice.  In the first embedding a JavaScript
      [number] that carries money or a rate is an exact rational ([Q]):
      [Math.round x] is [floor (x + 1/2)] (ties go up, as in ECMAScript) and
      no division in the two files can meet a zero divisor (the divisors are
      the literals 100 and 12, [Math.min(3, length)] under a [length > 0]
      guard, and [prev] under a [prev > 0] guard).  It carries the statements
      about control flow, order and counting: when the engine returns, how
      many snapshots it produces, which months count as negative, the
      running minimum, the first-crossing rules and the shape of the
      advisor's response.  In the second embedding, the module [B64], a
      [number] is the IEEE 754 binary64 value it is at run time; it carries
      the statements about the amounts the engine computes.
    - [Math.pow b n] is only ever called with a natural exponent.
    - Month numbers that the engine only compares ([startMonth], [endMonth],
      [month], [targetMonth], [months]) are integers ([Z]); the loop counter
      and the month indices the engine produces are naturals.
    - Reading a property of [undefined] raises [TypeError]; functions that can
      do so return a [JsResult].
    - Number formatting inside message strings ([toLocaleString] and template
      literal conversion) is locale dependent and is taken as a parameter of
      the advisor. *)

From Stdlib Require Import QArith Qround Qpower Qminmax ZArith List String Bool Lia Lqa.
From Stdlib Require Import Floats.
Import ListNotations.

Set Warnings "-inexact-float".

Open Scope Q_scope.

(* ------------------------------------------------------------------ *)
(** ** JavaScript numerics *)

Module Js.

(** [Math.round]: nearest integer, halves rounded towards +infinity. *)
Definition Math_round (x : Q) : Z := Qfloor (x + (1 # 2)).

(** [Math.pow] restricted to the exponents the engine uses ([m] and
    [Math.floor(m / 12)] for a loop counter [m]). *)
Definition Math_pow (b : Q) (n : nat) : Q := Qpower b (Z.of_nat n).

Definition Math_max (a b : Q) : Q := Qmax a b.
Definition Math_min (a b : Q) : Q := Qmin a b.

(** [a < b], [a <= b], [a === b] on numbers. *)
Definition ltb (a b : Q) : bool := negb (Qle_bool b a).
Definition leb (a b : Q) : bool := Qle_bool a b.
Definition eqb (a b : Q) : bool := Qeq_bool a b.

Inductive JsError : Type := TypeError.

Inductive JsResult (A : Type) : Type :=
| Ok (a : A)
| Throw (e : JsError).
Arguments Ok {A} a.
Arguments Throw {A} e.

Definition bind {A B} (r : JsResult A) (k : A -> JsResult B) : JsResult B :=
  match r with
  | Ok a => k a
  | Throw e => Throw e
  end.

(** [x.field] where [x] may be [undefined]. *)
Definition deref {A} (x : option A) : JsResult A :=
  match x with
  | Some a => Ok a
  | None => Throw TypeError
  end.

(** [arr[i]] for an integer-valued index: [undefined] out of range. *)
Definition index {A} (arr : list A) (i : Z) : option A :=
  if (i <? 0)%Z then None else nth_error arr (Z.to_nat i).

(** [arr.map(f)] where [f] may raise: the first exception aborts the map. *)
Fixpoint mapM {A B} (f : A -> JsResult B) (l : list A) : JsResult (list B) :=
  match l with
  | [] => Ok []
  | a :: l' =>
      bind (f a) (fun b => bind (mapM f l') (fun bs => Ok (b :: bs)))
  end.

End Js.
Import Js.

Notation "'let*' x ':=' r 'in' k" := (bind r (fun x => k))
  (at level 10, x name, r at level 100, k at level 200).

(** [const r2 = (n) => Math.round(n * 100) / 100], declared with the same body
    in both files. *)
Definition r2 (n : Q) : Q := inject_Z (Math_round (n * 100)) / 100.

(* ------------------------------------------------------------------ *)
(** ** Data model ([lib/types.ts]) *)

Inductive Category : Type := Fixed | Discretionary | Rent.
Inductive Strategy : Type := StrategyMin | Aggressive | Instant.
Inductive GoalType : Type := Savings | NetWorth | Investment.

Record IncomeInput : Type := mkIncome {
  inc_id : string;
  inc_label : string;
  inc_amount : Q;
  inc_startMonth : Z;
  inc_endMonth : option Z;
  inc_growthRate : Q
}.

Record ExpenseInput : Type := mkExpense {
  exp_id : string;
  exp_label : string;
  exp_amount : Q;
  exp_category : Category;
  exp_startMonth : Z;
  exp_endMonth : option Z;
  exp_growthRate : Q;
  exp_isOneTime : bool          (* optional in the source; absent is falsy *)
}.

Record DebtInput : Type := mkDebt {
  debt_id : string;
  debt_label : string;
  debt_balance : Q;
  debt_annualRate : Q;
  debt_minPayment : Q;
  debt_strategy : Strategy
}.

Record InvestmentInput : Type := mkInvestment {
  inv_id : string;
  inv_label : string;
  inv_currentValue : Q;
  inv_monthlyContribution : Q;
  inv_expectedAnnualReturn : Q
}.

Record OneTimeEvent : Type := mkEvent {
  ev_id : string;
  ev_label : string;
  ev_amount : Q;
  ev_month : Z
}.

Record FinancialGoal : Type := mkGoal {
  goal_id : string;
  goal_label : string;
  goal_targetAmount : Q;
  goal_targetMonth : Z;
  goal_type : GoalType
}.

Record ScenarioInput : Type := mkScenario {
  sc_id : string;
  sc_currency : string;
  sc_months : Z;
  sc_initialCash : Q;
  sc_incomes : list IncomeInput;
  sc_expenses : list ExpenseInput;
  sc_debts : list DebtInput;
  sc_investments : list InvestmentInput;
  sc_inflationRate : option Q;
  sc_taxRate : option Q;
  sc_oneTimeEvents : option (list OneTimeEvent);
  sc_goals : option (list FinancialGoal)
}.

Record MonthSnapshot : Type := mkSnapshot {
  month : nat;
  cash : Q;
  netWorth : Q;
  totalDebt : Q;
  totalInvestments : Q;
  totalIncome : Q;
  totalExpenses : Q;
  totalDebtPayment : Q;
  totalInvestmentContribution : Q
}.

Record GoalProgress : Type := mkGoalProgress {
  gp_goalId : string;
  gp_label : string;
  gp_targetAmount : Q;
  gp_targetMonth : Z;
  gp_achievedMonth : option nat;
  gp_endValue : Q;
  gp_onTrack : bool
}.

Record Summary : Type := mkSummary {
  endCash : Q;
  endNetWorth : Q;
  minCash : Q;
  minCashMonth : nat;
  negativeCashMonths : list nat;
  debtFreeMonth : option nat;
  totalInterestPaid : Q;
  endInvestmentValue : Q;
  totalTaxPaid : Q
}.

Record ForecastResult : Type := mkForecast {
  snapshots : list MonthSnapshot;
  summary : Summary;
  goalProgress : list GoalProgress
}.

(* ------------------------------------------------------------------ *)
(** ** The forecast engine ([lib/forecast.ts]) *)

Definition afterEnd (m : nat) (endMonth : option Z) : bool :=
  match endMonth with
  | Some e => (Z.of_nat m >? e)%Z       (* endMonth != null && month > endMonth *)
  | None => false
  end.

Definition monthlyIncome (income : IncomeInput) (m : nat) : Q :=
  if (Z.of_nat m <? inc_startMonth income)%Z then 0
  else if afterEnd m (inc_endMonth income) then 0
  else
    let years := (m / 12)%nat in
    r2 (inc_amount income * Math_pow (1 + inc_growthRate income / 100) years).

Definition monthlyExpense (expense : ExpenseInput) (m : nat) : Q :=
  if (Z.of_nat m <? exp_startMonth expense)%Z then 0
  else if afterEnd m (exp_endMonth expense) then 0
  else if exp_isOneTime expense && negb (Z.of_nat m =? exp_startMonth expense)%Z then 0
  else
    let years := (m / 12)%nat in
    r2 (exp_amount expense * Math_pow (1 + exp_growthRate expense / 100) years).

Record DebtState : Type := mkDebtState {
  balance : Q;
  annualRate : Q;
  minPayment : Q;
  strategy : Strategy;
  paidOff : bool
}.

Record DebtStep : Type := mkDebtStep {
  payment : Q;
  interest : Q;
  newBalance : Q
}.

Definition stepDebt (state : DebtState) (extraCash : Q) : DebtStep :=
  if paidOff state || leb (balance state) 0 then
    {| payment := 0; interest := 0; newBalance := 0 |}
  else
    let monthlyRate := annualRate state / 100 / 12 in
    let interest := r2 (balance state * monthlyRate) in
    let payment :=
      match strategy state with
      | Instant => r2 (balance state + interest)
      | Aggressive =>
          r2 (Math_min (balance state + interest)
                       (minPayment state + Math_max 0 (extraCash * (3 # 10))))
      | StrategyMin => r2 (Math_min (balance state + interest) (minPayment state))
      end in
    let newBalance := r2 (Math_max 0 (balance state + interest - payment)) in
    {| payment := payment; interest := interest; newBalance := newBalance |}.

Definition stepInvestment (value contribution annualReturn : Q) : Q :=
  let monthlyRate := annualReturn / 100 / 12 in
  r2 (value * (1 + monthlyRate) + contribution).

(** Destructuring defaults of [computeForecast]:
    [inflationRate = 0, taxRate = 0, oneTimeEvents = [], goals = []]. *)
Definition inflationRate (scenario : ScenarioInput) : Q :=
  match sc_inflationRate scenario with Some x => x | None => 0 end.
Definition taxRate (scenario : ScenarioInput) : Q :=
  match sc_taxRate scenario with Some x => x | None => 0 end.
Definition oneTimeEvents (scenario : ScenarioInput) : list OneTimeEvent :=
  match sc_oneTimeEvents scenario with Some l => l | None => [] end.
Definition goals (scenario : ScenarioInput) : list FinancialGoal :=
  match sc_goals scenario with Some l => l | None => [] end.

(** The variables of [computeForecast] that live across loop iterations. *)
Record LoopState : Type := mkLoopState {
  ls_cash : Q;
  ls_debtStates : list DebtState;
  ls_invValues : list Q;
  ls_snapshots : list MonthSnapshot;
  ls_totalInterestPaid : Q;
  ls_totalTaxPaid : Q;
  ls_negativeCashMonths : list nat;
  ls_debtFreeMonth : option nat;
  ls_minCash : Q;
  ls_minCashMonth : nat;
  ls_goalAchievedMonth : list (option nat)
}.

Definition initState (scenario : ScenarioInput) : LoopState :=
  {| ls_cash := sc_initialCash scenario;
     ls_debtStates :=
       map (fun d => {| balance := debt_balance d;
                        annualRate := debt_annualRate d;
                        minPayment := debt_minPayment d;
                        strategy := debt_strategy d;
                        paidOff := false |}) (sc_debts scenario);
     ls_invValues := map inv_currentValue (sc_investments scenario);
     ls_snapshots := [];
     ls_totalInterestPaid := 0;
     ls_totalTaxPaid := 0;
     ls_negativeCashMonths := [];
     ls_debtFreeMonth := None;
     ls_minCash := sc_initialCash scenario;
     ls_minCashMonth := 0%nat;
     ls_goalAchievedMonth := map (fun _ => None) (goals scenario) |}.

(** Income section of the loop body. *)
Definition grossIncome (scenario : ScenarioInput) (m : nat) : Q :=
  r2 (fold_left (fun s inc => s + monthlyIncome inc m) (sc_incomes scenario) 0).
Definition taxThisMonth (scenario : ScenarioInput) (m : nat) : Q :=
  r2 (grossIncome scenario m * (taxRate scenario / 100)).
Definition netIncome (scenario : ScenarioInput) (m : nat) : Q :=
  r2 (grossIncome scenario m - taxThisMonth scenario m).

(** Expense section of the loop body; [totalExpensesAt] is the local
    [totalExpenses] of month [m]. *)
Definition monthlyInflation (scenario : ScenarioInput) : Q :=
  inflationRate scenario / 100 / 12.
Definition inflationMultiplier (scenario : ScenarioInput) (m : nat) : Q :=
  Math_pow (1 + monthlyInflation scenario) m.
Definition totalExpensesAt (scenario : ScenarioInput) (m : nat) : Q :=
  r2 (fold_left
        (fun s exp => s + monthlyExpense exp m * inflationMultiplier scenario m)
        (sc_expenses scenario) 0).

(** One-time events of the month. *)
Definition oneTimeNet (scenario : ScenarioInput) (m : nat) : Q :=
  r2 (fold_left (fun s ev => s + ev_amount ev)
        (filter (fun ev => (ev_month ev =? Z.of_nat m)%Z) (oneTimeEvents scenario))
        0).

(** [const preDebtCash = r2(cash + netIncome - totalExpenses + oneTimeNet)] *)
Definition preDebtCash (scenario : ScenarioInput) (cash : Q) (m : nat) : Q :=
  r2 (cash + netIncome scenario m - totalExpensesAt scenario m + oneTimeNet scenario m).

(** [debtStates[di].balance = newBalance;
     if (newBalance <= 0) debtStates[di].paidOff = true] *)
Definition advanceDebt (d : DebtState) (r : DebtStep) : DebtState :=
  {| balance := newBalance r;
     annualRate := annualRate d;
     minPayment := minPayment d;
     strategy := strategy d;
     paidOff := if leb (newBalance r) 0 then true else paidOff d |}.

(** [for (let di = 0; di < debtStates.length; di++)]: every debt is stepped
    against the same [extraCash]; the two running totals are threaded through. *)
Fixpoint debtLoop (extraCash : Q) (debtStates : list DebtState)
    (totalDebtPayment totalInterestThisMonth : Q) : list DebtState * (Q * Q) :=
  match debtStates with
  | [] => ([], (totalDebtPayment, totalInterestThisMonth))
  | d :: rest =>
      let r := stepDebt d extraCash in
      let out := debtLoop extraCash rest
                   (r2 (totalDebtPayment + payment r))
                   (r2 (totalInterestThisMonth + interest r)) in
      (advanceDebt d r :: fst out, snd out)
  end.

(** [for (let ii = 0; ii < invValues.length; ii++)]: [invValues] is created as
    [investments.map(...)] and keeps its length, so [investments[ii]] is the
    item at the same position. *)
Fixpoint investLoop (invValues : list Q) (investments : list InvestmentInput)
    (totalContrib : Q) : list Q * Q :=
  match invValues, investments with
  | v :: vs, inv :: invs =>
      let contrib := inv_monthlyContribution inv in
      let v' := stepInvestment v contrib (inv_expectedAnnualReturn inv) in
      let out := investLoop vs invs (r2 (totalContrib + contrib)) in
      (v' :: fst out, snd out)
  | _, _ => ([], totalContrib)
  end.

(** [goals.forEach((goal, gi) => ...)] over the index-aligned
    [goalAchievedMonth]. *)
Fixpoint trackGoals (m : nat) (cash netWorth totalInv : Q)
    (gs : list FinancialGoal) (achieved : list (option nat)) : list (option nat) :=
  match gs, achieved with
  | goal :: gs', a :: achieved' =>
      let a' :=
        match a with
        | Some _ => a
        | None =>
            let actual :=
              match goal_type goal with
              | Savings => cash
              | NetWorth => netWorth
              | Investment => totalInv
              end in
            if leb (goal_targetAmount goal) actual then Some m else None
        end in
      a' :: trackGoals m cash netWorth totalInv gs' achieved'
  | _, _ => achieved
  end.

(** One iteration of [for (let m = 0; m < months; m++)]. *)
Definition monthStep (scenario : ScenarioInput) (st : LoopState) (m : nat) : LoopState :=
  let netIncome := netIncome scenario m in
  let totalTaxPaid := r2 (ls_totalTaxPaid st + taxThisMonth scenario m) in
  let totalExpenses := totalExpensesAt scenario m in
  let preDebtCash := preDebtCash scenario (ls_cash st) m in
  let extraCash := Math_max 0 preDebtCash in
  let debtOut := debtLoop extraCash (ls_debtStates st) 0 0 in
  let debtStates := fst debtOut in
  let totalDebtPayment := fst (snd debtOut) in
  let totalInterestThisMonth := snd (snd debtOut) in
  let totalInterestPaid := r2 (ls_totalInterestPaid st + totalInterestThisMonth) in
  let invOut := investLoop (ls_invValues st) (sc_investments scenario) 0 in
  let invValues := fst invOut in
  let totalContrib := snd invOut in
  let cash := r2 (preDebtCash - totalDebtPayment - totalContrib) in
  let lower := ltb cash (ls_minCash st) in
  let totalDebt := r2 (fold_left (fun s d => s + balance d) debtStates 0) in
  let totalInv := r2 (fold_left (fun s v => s + v) invValues 0) in
  let netWorth := r2 (cash + totalInv - totalDebt) in
  {| ls_cash := cash;
     ls_debtStates := debtStates;
     ls_invValues := invValues;
     ls_snapshots :=
       ls_snapshots st ++
       [ {| month := m;
            cash := cash;
            netWorth := netWorth;
            totalDebt := totalDebt;
            totalInvestments := totalInv;
            totalIncome := netIncome;
            totalExpenses := totalExpenses;
            totalDebtPayment := totalDebtPayment;
            totalInvestmentContribution := totalContrib |} ];
     ls_totalInterestPaid := totalInterestPaid;
     ls_totalTaxPaid := totalTaxPaid;
     ls_negativeCashMonths :=
       if ltb cash 0 then ls_negativeCashMonths st ++ [m]
       else ls_negativeCashMonths st;
     ls_debtFreeMonth :=
       match ls_debtFreeMonth st with
       | None =>
           if eqb totalDebt 0 && negb (List.length (sc_debts scenario) =? 0)%nat
           then Some m else None
       | Some dm => Some dm
       end;
     ls_minCash := if lower then cash else ls_minCash st;
     ls_minCashMonth := if lower then m else ls_minCashMonth st;
     ls_goalAchievedMonth :=
       trackGoals m cash netWorth totalInv (goals scenario) (ls_goalAchievedMonth st) |}.

(** The state after the first [n] iterations, [m = 0 .. n-1]. *)
Definition runLoop (scenario : ScenarioInput) (n : nat) : LoopState :=
  fold_left (monthStep scenario) (seq 0 n) (initState scenario).

(** The loop runs while [m < months]. *)
Definition iterations (scenario : ScenarioInput) : nat := Z.to_nat (sc_months scenario).

Definition goalProgressOf (snapshots : list MonthSnapshot)
    (ga : FinancialGoal * option nat) : JsResult GoalProgress :=
  let (goal, achievedMonth) := ga in
  let snapshotAtTarget :=
    index snapshots (Z.min (goal_targetMonth goal) (Z.of_nat (List.length snapshots) - 1)) in
  let* endValue :=
    match goal_type goal with
    | Savings => let* sn := deref snapshotAtTarget in Ok (cash sn)
    | NetWorth => let* sn := deref snapshotAtTarget in Ok (netWorth sn)
    | Investment => let* sn := deref snapshotAtTarget in Ok (totalInvestments sn)
    end in
  Ok {| gp_goalId := goal_id goal;
        gp_label := goal_label goal;
        gp_targetAmount := goal_targetAmount goal;
        gp_targetMonth := goal_targetMonth goal;
        gp_achievedMonth := achievedMonth;
        gp_endValue := endValue;
        gp_onTrack :=
          match achievedMonth with
          | Some am => (Z.of_nat am <=? goal_targetMonth goal)%Z
          | None => false
          end |}.

Definition computeForecast (scenario : ScenarioInput) : JsResult ForecastResult :=
  let st := runLoop scenario (iterations scenario) in
  let snapshots := ls_snapshots st in
  let last := index snapshots (Z.of_nat (List.length snapshots) - 1) in
  let* goalProgress :=
    mapM (goalProgressOf snapshots) (combine (goals scenario) (ls_goalAchievedMonth st)) in
  let* endCash := (let* l := deref last in Ok (cash l)) in
  let* endNetWorth := (let* l := deref last in Ok (netWorth l)) in
  let* endInvestmentValue := (let* l := deref last in Ok (totalInvestments l)) in
  Ok {| snapshots := snapshots;
        summary :=
          {| endCash := endCash;
             endNetWorth := endNetWorth;
             minCash := ls_minCash st;
             minCashMonth := ls_minCashMonth st;
             negativeCashMonths := ls_negativeCashMonths st;
             debtFreeMonth := ls_debtFreeMonth st;
             totalInterestPaid := ls_totalInterestPaid st;
             endInvestmentValue := endInvestmentValue;
             totalTaxPaid := ls_totalTaxPaid st |};
        goalProgress := goalProgress |}.

(* ------------------------------------------------------------------ *)
(** ** The advisor response ([lib/advisor-schema.ts]) *)

Inductive Confidence : Type := Low | Med | High.
Inductive AlertType : Type := AlertCash | AlertDebt | AlertRent | AlertFx | AlertPortfolio.

Record Insight : Type := mkInsight {
  title : string;
  why : string;
  impact_aed : Q;
  confidence : Confidence
}.

Record Alert : Type := mkAlert {
  alert_type : AlertType;
  message : string;
  monthIndex : Z
}.

Record ExpenseAdjustment : Type := mkExpenseAdjustment {
  expenseId : string;
  delta : Q
}.

Record InvestmentAdjustment : Type := mkInvestmentAdjustment {
  accountId : string;
  monthlyContributionDelta : Q;
  expectedReturnDelta : Q
}.

Record ActionChanges : Type := mkChanges {
  debtStrategy : option Strategy;
  expenseAdjustments : option (list ExpenseAdjustment);
  investmentAdjustments : option (list InvestmentAdjustment)
}.

Record ExpectedOutcome : Type := mkOutcome {
  netWorthDelta : Q;
  minCashDelta : Q
}.

Record AdvisorAction : Type := mkAction {
  action_id : string;
  action_label : string;
  changes : ActionChanges;
  expectedOutcome : ExpectedOutcome
}.

Record AdvisorResponse : Type := mkResponse {
  insights : list Insight;
  alerts : list Alert;
  actions : list AdvisorAction
}.

(** [AdvisorResponseSchema]: [insights: z.array(InsightSchema).min(1).max(6)]. *)
Definition insightsInSchemaRange (r : AdvisorResponse) : Prop :=
  (1 <= List.length (insights r) <= 6)%nat.

(* ------------------------------------------------------------------ *)
(** ** The heuristic advisor ([lib/heuristic-advisor.ts]) *)

Section HeuristicAdvisor.

(** [n.toLocaleString()] and the conversion of a number inside a template
    literal. *)
Variable toLocaleString : Q -> string.
Variable toString : Q -> string.

Local Open Scope string_scope.

Definition ofNat (n : nat) : Q := inject_Z (Z.of_nat n).

Definition isAggressive (s : Strategy) : bool :=
  match s with Aggressive => true | _ => false end.
Definition isDiscretionary (c : Category) : bool :=
  match c with Discretionary => true | _ => false end.

Definition monthlyExpenses (snapshots : list MonthSnapshot) : Q :=
  if (0 <? List.length snapshots)%nat then
    r2 (fold_left (fun s sn => s + totalExpenses sn) (firstn 3 snapshots) 0
        / ofNat (Nat.min 3 (List.length snapshots)))
  else 0.

Definition totalInterestEstimate (scenario : ScenarioInput) : Q :=
  r2 (fold_left (fun s d => s + debt_balance d * (debt_annualRate d / 100))
        (sc_debts scenario) 0).

(** The body of [for (const m of summary.negativeCashMonths.slice(0, 5))]. *)
Definition cashAlert (currency : string) (snapshots : list MonthSnapshot) (m : nat)
  : JsResult Alert :=
  let* sn := deref (nth_error snapshots m) in
  Ok {| alert_type := AlertCash;
        message := "Cash goes negative (" ++ currency ++ " "
                   ++ toLocaleString (r2 (cash sn)) ++ ") in month "
                   ++ toString (ofNat (m + 1)) ++ ".";
        monthIndex := Z.of_nat m |}.

(** [for (let i = 1; i < snapshots.length; i++)] with [prev = snapshots[i-1]]
    and [curr = snapshots[i]]; the loop stops at the first alert. *)
Fixpoint rentSpikeFrom (currency : string) (i : nat) (prev : Q)
    (rest : list MonthSnapshot) : list Alert :=
  match rest with
  | [] => []
  | sn :: rest' =>
      let curr := totalExpenses sn in
      if ltb 0 prev && ltb (2 # 10) ((curr - prev) / prev) then
        [ {| alert_type := AlertRent;
             message := "Expense spike of " ++ toLocaleString (r2 (curr - prev))
                        ++ " " ++ currency ++ " in month " ++ toString (ofNat (i + 1)) ++ ".";
             monthIndex := Z.of_nat i |} ]
      else rentSpikeFrom currency (S i) curr rest'
  end.

Definition rentSpike (currency : string) (snapshots : list MonthSnapshot) : list Alert :=
  match snapshots with
  | [] => []
  | sn0 :: rest => rentSpikeFrom currency 1 (totalExpenses sn0) rest
  end.

Definition debtAlert (scenario : ScenarioInput) : Alert :=
  {| alert_type := AlertDebt;
     message := "Estimated annual interest drag: " ++ sc_currency scenario ++ " "
                ++ toLocaleString (totalInterestEstimate scenario)
                ++ ". Consider accelerating repayment.";
     monthIndex := 0 |}.

Definition emergencyAlert (scenario : ScenarioInput) (forecast : ForecastResult)
    (emergencyFundMonths emergencyTarget : Q) : Alert :=
  {| alert_type := AlertCash;
     message := "Emergency buffer below target ("
                ++ toString emergencyFundMonths ++ "× expenses = "
                ++ sc_currency scenario ++ " " ++ toLocaleString emergencyTarget
                ++ "). Current end cash: " ++ sc_currency scenario ++ " "
                ++ toLocaleString (endCash (summary forecast)) ++ ".";
     monthIndex := Z.of_nat (List.length (snapshots forecast)) - 1 |}.

Definition advisorAlerts (scenario : ScenarioInput) (forecast : ForecastResult)
    (emergencyFundMonths : Q) : JsResult (list Alert) :=
  let currency := sc_currency scenario in
  let emergencyTarget := r2 (monthlyExpenses (snapshots forecast) * emergencyFundMonths) in
  let* cashAlerts :=
    mapM (cashAlert currency (snapshots forecast))
         (firstn 5 (negativeCashMonths (summary forecast))) in
  Ok (cashAlerts
      ++ rentSpike currency (snapshots forecast)
      ++ (if ltb 0 (totalInterestEstimate scenario) then [debtAlert scenario] else [])
      ++ (if ltb (endCash (summary forecast)) emergencyTarget
          then [emergencyAlert scenario forecast emergencyFundMonths emergencyTarget]
          else []))%list.

Definition netWorthInsight (scenario : ScenarioInput) (forecast : ForecastResult) : Insight :=
  {| title := "Projected net worth";
     why := "Based on current income, expenses, debt repayment, and investment growth over "
            ++ toString (inject_Z (sc_months scenario)) ++ " months.";
     impact_aed := endNetWorth (summary forecast);
     confidence := High |}.

Definition debtFreeInsight (scenario : ScenarioInput) (dfm : nat) : Insight :=
  {| title := "Debt-free in month " ++ toString (ofNat (dfm + 1));
     why := "At current repayment pace all debts clear by month "
            ++ toString (ofNat (dfm + 1)) ++ ", saving ~" ++ sc_currency scenario ++ " "
            ++ toLocaleString (totalInterestEstimate scenario)
            ++ " in future interest.";
     impact_aed := totalInterestEstimate scenario;
     confidence := Med |}.

Definition negativeCashInsight (forecast : ForecastResult) : Insight :=
  {| title := toString (ofNat (List.length (negativeCashMonths (summary forecast))))
              ++ " months of negative cash";
     why := "Expenses + debt payments exceed income in these months. Consider reducing discretionary spending or delaying large payments.";
     impact_aed := r2 (minCash (summary forecast));
     confidence := High |}.

Definition investmentInsight (scenario : ScenarioInput) (forecast : ForecastResult) : Insight :=
  let totalContrib :=
    r2 (fold_left (fun s i => s + inv_monthlyContribution i) (sc_investments scenario) 0) in
  {| title := "Investment contributions active";
     why := "Monthly contributions of " ++ sc_currency scenario ++ " "
            ++ toLocaleString totalContrib
            ++ " compound over time. Projected end value: " ++ sc_currency scenario ++ " "
            ++ toLocaleString (endInvestmentValue (summary forecast)) ++ ".";
     impact_aed := endInvestmentValue (summary forecast);
     confidence := Med |}.

(** The insights pushed before the [insights.length < 3] test. *)
Definition insightsBeforeFiller (scenario : ScenarioInput) (forecast : ForecastResult)
  : list Insight :=
  ([netWorthInsight scenario forecast]
   ++ match debtFreeMonth (summary forecast) with
      | Some dfm => [debtFreeInsight scenario dfm]
      | None => []
      end
   ++ (if (0 <? List.length (negativeCashMonths (summary forecast)))%nat
       then [negativeCashInsight forecast] else [])
   ++ (if (0 <? List.length (sc_investments scenario))%nat
       then [investmentInsight scenario forecast] else []))%list.

Definition fillerInsight (forecast : ForecastResult) : Insight :=
  {| title := "Cash flow appears stable";
     why := "No critical cash shortfalls detected over the forecast horizon.";
     impact_aed := minCash (summary forecast);
     confidence := Med |}.

Definition advisorInsights (scenario : ScenarioInput) (forecast : ForecastResult)
  : list Insight :=
  let insights := insightsBeforeFiller scenario forecast in
  if (List.length insights <? 3)%nat then (insights ++ [fillerInsight forecast])%list
  else insights.

Definition advisorActions (scenario : ScenarioInput) (forecast : ForecastResult)
  : JsResult (list AdvisorAction) :=
  let totalDebt := r2 (fold_left (fun s d => s + debt_balance d) (sc_debts scenario) 0) in
  let months := inject_Z (sc_months scenario) in
  let* aggressiveDebt :=
    if ltb 0 totalDebt
       && existsb (fun d => negb (isAggressive (debt_strategy d))) (sc_debts scenario)
    then
      let* d0 := deref (nth_error (sc_debts scenario) 0) in
      Ok [ {| action_id := "aggressive-debt";
              action_label := "Accelerate debt repayment";
              changes := {| debtStrategy := Some Aggressive;
                            expenseAdjustments := None;
                            investmentAdjustments := None |};
              expectedOutcome :=
                {| netWorthDelta := r2 (totalInterestEstimate scenario * (4 # 10));
                   minCashDelta := r2 (- debt_minPayment d0 * (3 # 10)) |} |} ]
    else Ok [] in
  let discretionary :=
    filter (fun e => isDiscretionary (exp_category e)) (sc_expenses scenario) in
  let reduceDiscretionary :=
    if (0 <? List.length discretionary)%nat
       && (0 <? List.length (negativeCashMonths (summary forecast)))%nat
    then
      let totalDisc := r2 (fold_left (fun s e => s + exp_amount e) discretionary 0) in
      let cut := r2 (totalDisc * (15 # 100)) in
      [ {| action_id := "reduce-discretionary";
           action_label := "Reduce discretionary spending 15%";
           changes :=
             {| debtStrategy := None;
                expenseAdjustments :=
                  Some (map (fun e => {| expenseId := exp_id e;
                                         delta := r2 (- exp_amount e * (15 # 100)) |})
                            discretionary);
                investmentAdjustments := None |};
           expectedOutcome :=
             {| netWorthDelta := r2 (cut * months); minCashDelta := r2 cut |} |} ]
    else [] in
  let* boostInvestments :=
    if (0 <? List.length (sc_investments scenario))%nat then
      let* firstInv := deref (nth_error (sc_investments scenario) 0) in
      Ok [ {| action_id := "boost-investments";
              action_label := "Increase investment contribution by 10%";
              changes :=
                {| debtStrategy := None;
                   expenseAdjustments := None;
                   investmentAdjustments :=
                     Some [ {| accountId := inv_id firstInv;
                               monthlyContributionDelta :=
                                 r2 (inv_monthlyContribution firstInv * (1 # 10));
                               expectedReturnDelta := 0 |} ] |};
              expectedOutcome :=
                {| netWorthDelta :=
                     r2 (inv_monthlyContribution firstInv * (1 # 10) * months * (13 # 10));
                   minCashDelta := r2 (- inv_monthlyContribution firstInv * (1 # 10)) |} |} ]
    else Ok [] in
  Ok (aggressiveDebt ++ reduceDiscretionary ++ boostInvestments)%list.

Definition runHeuristicAdvisor (scenario : ScenarioInput) (forecast : ForecastResult)
    (emergencyFundMonths : Q) : JsResult AdvisorResponse :=
  let* alerts := advisorAlerts scenario forecast emergencyFundMonths in
  let insights := advisorInsights scenario forecast in
  let* actions := advisorActions scenario forecast in
  Ok {| insights := firstn 6 insights; alerts := alerts; actions := actions |}.

End HeuristicAdvisor.

(* ------------------------------------------------------------------ *)
(** ** Scenarios of the test suites *)

Definition BASE : ScenarioInput :=
  {| sc_id := "fc-1"; sc_currency := "AED"; sc_months := 60; sc_initialCash := 100000;
     sc_incomes := [ mkIncome "i1" "Salary" 20000 0 None 0 ];
     sc_expenses := [ mkExpense "e1" "Living" 10000 Fixed 0 None 0 false ];
     sc_debts := []; sc_investments := [];
     sc_inflationRate := None; sc_taxRate := None;
     sc_oneTimeEvents := None; sc_goals := None |}.

Definition SCENARIO : ScenarioInput :=
  {| sc_id := "test-1"; sc_currency := "AED"; sc_months := 12; sc_initialCash := 5000;
     sc_incomes := [ mkIncome "i1" "Salary" 10000 0 None 0 ];
     sc_expenses := [ mkExpense "e1" "Rent" 7000 Rent 0 None 0 false;
                      mkExpense "e2" "Entertainment" 5000 Discretionary 0 None 0 false ];
     sc_debts := [ mkDebt "d1" "Loan" 50000 8 1200 StrategyMin ];
     sc_investments := [ mkInvestment "inv1" "Stocks" 20000 500 (8 # 100) ];
     sc_inflationRate := None; sc_taxRate := None;
     sc_oneTimeEvents := None; sc_goals := None |}.

(** [BASE] with a horizon of zero months. *)
Definition zeroHorizon : ScenarioInput :=
  {| sc_id := sc_id BASE; sc_currency := sc_currency BASE; sc_months := 0;
     sc_initialCash := sc_initialCash BASE;
     sc_incomes := sc_incomes BASE; sc_expenses := sc_expenses BASE;
     sc_debts := sc_debts BASE; sc_investments := sc_investments BASE;
     sc_inflationRate := None; sc_taxRate := None;
     sc_oneTimeEvents := None; sc_goals := None |}.


(** An overpaid card: the opening balance is a credit of 100. *)
Definition creditBalance : ScenarioInput :=
  {| sc_id := "fc-4"; sc_currency := "AED"; sc_months := 1; sc_initialCash := 1000;
     sc_incomes := []; sc_expenses := [];
     sc_debts := [ mkDebt "d1" "Card" (-100) 0 50 Aggressive ];
     sc_investments := [];
     sc_inflationRate := None; sc_taxRate := None;
     sc_oneTimeEvents := None; sc_goals := None |}.

(** The [Young Professional] template of [lib/demo-data.ts]: two aggressive
    debts. *)
Definition youngProfessional : ScenarioInput :=
  {| sc_id := "tpl-1"; sc_currency := "USD"; sc_months := 60; sc_initialCash := 8000;
     sc_incomes := [ mkIncome "i1" "Salary" 4500 0 None 5;
                     mkIncome "i2" "Freelance" 500 0 None 0 ];
     sc_expenses := [ mkExpense "e1" "Rent" 1400 Rent 0 None 3 false;
                      mkExpense "e2" "Groceries" 350 Fixed 0 None 2 false;
                      mkExpense "e3" "Transport" 200 Fixed 0 None 2 false;
                      mkExpense "e4" "Dining & Social" 300 Discretionary 0 None 2 false;
                      mkExpense "e5" "Subscriptions" 80 Discretionary 0 None 0 false;
                      mkExpense "e6" "Utilities" 120 Fixed 0 None 2 false ];
     sc_debts := [ mkDebt "d1" "Student Loan" 18000 (55 # 10) 200 Aggressive;
                   mkDebt "d2" "Credit Card" 2500 (199 # 10) 75 Aggressive ];
     sc_investments := [ mkInvestment "inv1" "401(k)" 5000 300 7;
                         mkInvestment "inv2" "Index Fund" 2000 150 8 ];
     sc_inflationRate := None; sc_taxRate := None;
     sc_oneTimeEvents := None; sc_goals := None |}.

(** A formatter that prints every number alike; which insights and alerts are
    produced does not depend on how numbers are printed. *)
Definition plain (_ : Q) : string := "#"%string.

(* ------------------------------------------------------------------ *)
(** ** Vocabulary of the statements *)

(** A value is on the cent grid when [r2] leaves it unchanged. *)
Definition is2dp (x : Q) : Prop := r2 x == x.

(** Default value for [last] on the (never empty) snapshots of a step. *)
Definition noSnapshot : MonthSnapshot := mkSnapshot 0 0 0 0 0 0 0 0 0.

(** The snapshot pushed by the most recent iteration. *)
Definition lastSnapshot (st : LoopState) : MonthSnapshot :=
  last (ls_snapshots st) noSnapshot.

(** The snapshot pushed by iteration [k]. *)
Definition snapshotOfMonth (s : ScenarioInput) (k : nat) : MonthSnapshot :=
  lastSnapshot (runLoop s (S k)).

(** Goal target months are 0-based month numbers. *)
Definition goalMonthsIndexable (s : ScenarioInput) : Prop :=
  Forall (fun g => (0 <= goal_targetMonth g)%Z) (goals s).

(** At least one month is simulated and every goal month can be looked up. *)
Definition runnable (s : ScenarioInput) : Prop :=
  (1 <= sc_months s)%Z /\ goalMonthsIndexable s.

(** The validated horizon of the application: 1 to 360 months. *)
Definition validScenario (s : ScenarioInput) : Prop :=
  (1 <= sc_months s <= 360)%Z /\ goalMonthsIndexable s.

(** A debt is still serviced when it is not paid off and owes a positive
    balance; this is the negation of the guard of [stepDebt]. *)
Definition activeDebt (d : DebtState) : Prop :=
  paidOff d = false /\ 0 < balance d.



(** The money carried from one month into the next. *)
Definition carried2dp (st : LoopState) : Prop :=
  is2dp (ls_cash st) /\
  Forall (fun d => is2dp (balance d)) (ls_debtStates st) /\
  Forall is2dp (ls_invValues st) /\
  is2dp (ls_totalInterestPaid st) /\
  is2dp (ls_totalTaxPaid st).

(** The negative-cash months the advisor reads (the first five) are indices of
    snapshots. *)
Definition negativeMonthsInRange (f : ForecastResult) : Prop :=
  Forall (fun m => (m < List.length (snapshots f))%nat)
         (firstn 5 (negativeCashMonths (summary f))).

(** The sum of a list of amounts. *)
Definition Qsum (l : list Q) : Q := fold_right Qplus 0 l.

(** The metric a goal is tracked against:
    [goal.type === 'savings' ? cash : goal.type === 'net_worth' ? netWorth
     : totalInv]. *)
Definition goalMetric (g : FinancialGoal) (sn : MonthSnapshot) : Q :=
  match goal_type g with
  | Savings => cash sn
  | NetWorth => netWorth sn
  | Investment => totalInvestments sn
  end.

(** The scenario with its [oneTimeEvents] replaced. *)
Definition withEvents (s : ScenarioInput) (x : option (list OneTimeEvent)) : ScenarioInput :=
  {| sc_id := sc_id s; sc_currency := sc_currency s; sc_months := sc_months s;
     sc_initialCash := sc_initialCash s;
     sc_incomes := sc_incomes s; sc_expenses := sc_expenses s;
     sc_debts := sc_debts s; sc_investments := sc_investments s;
     sc_inflationRate := sc_inflationRate s; sc_taxRate := sc_taxRate s;
     sc_oneTimeEvents := x; sc_goals := sc_goals s |}.

(** The event falls on a simulated month, [0 <= month < months]. *)
Definition inHorizon (s : ScenarioInput) (ev : OneTimeEvent) : bool :=
  ((0 <=? ev_month ev) && (ev_month ev <? sc_months s))%Z.

(** The scenario of the test [debt pays off and debtFreeMonth is set]. *)
Definition oneLoan : ScenarioInput :=
  {| sc_id := "fc-1"; sc_currency := "AED"; sc_months := 60; sc_initialCash := 100000;
     sc_incomes := [ mkIncome "i1" "Salary" 20000 0 None 0 ];
     sc_expenses := [ mkExpense "e1" "Living" 10000 Fixed 0 None 0 false ];
     sc_debts := [ mkDebt "d1" "Loan" 5000 0 5000 StrategyMin ];
     sc_investments := [];
     sc_inflationRate := None; sc_taxRate := None;
     sc_oneTimeEvents := None; sc_goals := None |}.

(** The first index below [n] at which [p] holds, found the way the loop
    freezes a month: once set, never changed. *)
Fixpoint firstHit (p : nat -> bool) (n : nat) : option nat :=
  match n with
  | O => None
  | S n' =>
      match firstHit p n' with
      | Some m => Some m
      | None => if p n' then Some n' else None
      end
  end.

(** [BASE] with a savings goal of 150000 by month 24 and a net-worth goal of
    one billion by month 12. *)
Definition withGoals : ScenarioInput :=
  {| sc_id := "fc-8"; sc_currency := "AED"; sc_months := 60; sc_initialCash := 100000;
     sc_incomes := sc_incomes BASE; sc_expenses := sc_expenses BASE;
     sc_debts := []; sc_investments := [];
     sc_inflationRate := None; sc_taxRate := None;
     sc_oneTimeEvents := None;
     sc_goals := Some [ mkGoal "g1" "Buffer" 150000 24 Savings;
                        mkGoal "g2" "Billion" 1000000000 12 NetWorth ] |}.

(** The spike test of the advisor's expense scan:
    [prev > 0 && (curr - prev) / prev > 0.2]. *)
Definition isSpike (prev curr : Q) : Prop :=
  0 < prev /\ 2 # 10 < (curr - prev) / prev.

(** Month [i] is a spike month of a snapshot sequence: its [totalExpenses]
    exceed those of month [i - 1] by more than 20%. *)
Definition spikeAt (snaps : list MonthSnapshot) (i : nat) : Prop :=
  exists p c, (1 <= i)%nat /\ nth_error snaps (i - 1) = Some p /\
              nth_error snaps i = Some c /\
              isSpike (totalExpenses p) (totalExpenses c).

(* ------------------------------------------------------------------ *)
(** ** The engine on binary64 numbers

    The same functions with a JavaScript [number] as what it is at run time,
    an IEEE 754 binary64 value ([float]): [+], [-], [*] and [/] round to
    nearest, ties to even, and [<], [<=], [===] are the IEEE comparisons.
    Decimal literals denote the nearest binary64 value, as they do in
    JavaScript and in JSON.  Statements whose truth depends on the digits
    the engine computes are made about this embedding. *)

Module B64.

Local Open Scope float_scope.

(** [Math.round]: the integer nearest to [x], ties towards +infinity.  NaN, the
    infinities and the zeros are returned as they are, and a result of zero
    keeps the sign of [x].  A finite binary64 value is [m * 2^e]; with
    [e >= 0] it is an integer already, otherwise [|x| < 2^52] and
    [floor (x + 1/2)] is computed on integers, exactly. *)
Definition Math_round (x : float) : float :=
  match Prim2SF x with
  | S754_finite s m e =>
      if (0 <=? e)%Z then x
      else
        let k := (- e)%Z in
        let sm := if s then Z.neg m else Z.pos m in
        let n := ((2 * sm + 2 ^ k) / 2 ^ (k + 1))%Z in
        let a := of_uint63 (Uint63.of_Z (Z.abs n)) in
        if s then - a else a
  | _ => x
  end.

(** [Math.max] and [Math.min] of two numbers: NaN if either is NaN, and [+0]
    counts as larger than [-0]. *)
Definition Math_max (a b : float) : float :=
  if is_nan a || is_nan b then nan
  else if a <? b then b
  else if b <? a then a
  else if get_sign a then b else a.

Definition Math_min (a b : float) : float :=
  if is_nan a || is_nan b then nan
  else if a <? b then a
  else if b <? a then b
  else if get_sign a then a else b.

(** [const r2 = (n) => Math.round(n * 100) / 100] *)
Definition r2 (n : float) : float := Math_round (n * 100) / 100.

Arguments Math_round : simpl never.
Arguments Math_max : simpl never.
Arguments Math_min : simpl never.
Arguments r2 : simpl never.

(** The data model of [lib/types.ts], amounts and rates as [float]. *)

Record IncomeInput : Type := mkIncome {
  inc_id : string;
  inc_label : string;
  inc_amount : float;
  inc_startMonth : Z;
  inc_endMonth : option Z;
  inc_growthRate : float
}.

Record ExpenseInput : Type := mkExpense {
  exp_id : string;
  exp_label : string;
  exp_amount : float;
  exp_category : Category;
  exp_startMonth : Z;
  exp_endMonth : option Z;
  exp_growthRate : float;
  exp_isOneTime : bool
}.

Record DebtInput : Type := mkDebt {
  debt_id : string;
  debt_label : string;
  debt_balance : float;
  debt_annualRate : float;
  debt_minPayment : float;
  debt_strategy : Strategy
}.

Record InvestmentInput : Type := mkInvestment {
  inv_id : string;
  inv_label : string;
  inv_currentValue : float;
  inv_monthlyContribution : float;
  inv_expectedAnnualReturn : float
}.

Record OneTimeEvent : Type := mkEvent {
  ev_id : string;
  ev_label : string;
  ev_amount : float;
  ev_month : Z
}.

Record FinancialGoal : Type := mkGoal {
  goal_id : string;
  goal_label : string;
  goal_targetAmount : float;
  goal_targetMonth : Z;
  goal_type : GoalType
}.

Record ScenarioInput : Type := mkScenario {
  sc_id : string;
  sc_currency : string;
  sc_months : Z;
  sc_initialCash : float;
  sc_incomes : list IncomeInput;
  sc_expenses : list ExpenseInput;
  sc_debts : list DebtInput;
  sc_investments : list InvestmentInput;
  sc_inflationRate : option float;
  sc_taxRate : option float;
  sc_oneTimeEvents : option (list OneTimeEvent);
  sc_goals : option (list FinancialGoal)
}.

Record MonthSnapshot : Type := mkSnapshot {
  month : nat;
  cash : float;
  netWorth : float;
  totalDebt : float;
  totalInvestments : float;
  totalIncome : float;
  totalExpenses : float;
  totalDebtPayment : float;
  totalInvestmentContribution : float
}.

Record GoalProgress : Type := mkGoalProgress {
  gp_goalId : string;
  gp_label : string;
  gp_targetAmount : float;
  gp_targetMonth : Z;
  gp_achievedMonth : option nat;
  gp_endValue : float;
  gp_onTrack : bool
}.

Record Summary : Type := mkSummary {
  endCash : float;
  endNetWorth : float;
  minCash : float;
  minCashMonth : nat;
  negativeCashMonths : list nat;
  debtFreeMonth : option nat;
  totalInterestPaid : float;
  endInvestmentValue : float;
  totalTaxPaid : float
}.

Record ForecastResult : Type := mkForecast {
  snapshots : list MonthSnapshot;
  summary : Summary;
  goalProgress : list GoalProgress
}.

Record DebtState : Type := mkDebtState {
  balance : float;
  annualRate : float;
  minPayment : float;
  strategy : Strategy;
  paidOff : bool
}.

Record DebtStep : Type := mkDebtStep {
  payment : float;
  interest : float;
  newBalance : float
}.

Record LoopState : Type := mkLoopState {
  ls_cash : float;
  ls_debtStates : list DebtState;
  ls_invValues : list float;
  ls_snapshots : list MonthSnapshot;
  ls_totalInterestPaid : float;
  ls_totalTaxPaid : float;
  ls_negativeCashMonths : list nat;
  ls_debtFreeMonth : option nat;
  ls_minCash : float;
  ls_minCashMonth : nat;
  ls_goalAchievedMonth : list (option nat)
}.

(** [endMonth != null && month > endMonth] *)
Definition afterEnd (m : nat) (endMonth : option Z) : bool :=
  match endMonth with
  | Some e => (Z.of_nat m >? e)%Z
  | None => false
  end.

(** [stepDebt]: the guard first, then interest, payment by strategy and the
    clamped new balance, each rounded by [r2]. *)
Definition stepDebt (state : DebtState) (extraCash : float) : DebtStep :=
  if paidOff state || (balance state <=? 0) then
    {| payment := 0; interest := 0; newBalance := 0 |}
  else
    let monthlyRate := annualRate state / 100 / 12 in
    let interest := r2 (balance state * monthlyRate) in
    let payment :=
      match strategy state with
      | Instant => r2 (balance state + interest)
      | Aggressive =>
          r2 (Math_min (balance state + interest)
                       (minPayment state + Math_max 0 (extraCash * 0.3)))
      | StrategyMin => r2 (Math_min (balance state + interest) (minPayment state))
      end in
    let newBalance := r2 (Math_max 0 (balance state + interest - payment)) in
    {| payment := payment; interest := interest; newBalance := newBalance |}.

(** [stepInvestment]: [annualReturn] is a percentage. *)
Definition stepInvestment (value contribution annualReturn : float) : float :=
  let monthlyRate := annualReturn / 100 / 12 in
  r2 (value * (1 + monthlyRate) + contribution).

(** Destructuring defaults of [computeForecast]:
    [inflationRate = 0, taxRate = 0, oneTimeEvents = [], goals = []]. *)
Definition inflationRate (scenario : ScenarioInput) : float :=
  match sc_inflationRate scenario with Some x => x | None => 0 end.
Definition taxRate (scenario : ScenarioInput) : float :=
  match sc_taxRate scenario with Some x => x | None => 0 end.
Definition oneTimeEvents (scenario : ScenarioInput) : list OneTimeEvent :=
  match sc_oneTimeEvents scenario with Some l => l | None => [] end.
Definition goals (scenario : ScenarioInput) : list FinancialGoal :=
  match sc_goals scenario with Some l => l | None => [] end.

Definition initState (scenario : ScenarioInput) : LoopState :=
  {| ls_cash := sc_initialCash scenario;
     ls_debtStates :=
       map (fun d => {| balance := debt_balance d;
                        annualRate := debt_annualRate d;
                        minPayment := debt_minPayment d;
                        strategy := debt_strategy d;
                        paidOff := false |}) (sc_debts scenario);
     ls_invValues := map inv_currentValue (sc_investments scenario);
     ls_snapshots := [];
     ls_totalInterestPaid := 0;
     ls_totalTaxPaid := 0;
     ls_negativeCashMonths := [];
     ls_debtFreeMonth := None;
     ls_minCash := sc_initialCash scenario;
     ls_minCashMonth := 0%nat;
     ls_goalAchievedMonth := map (fun _ => None) (goals scenario) |}.

(** One-time events of the month, [ev.month === m]. *)
Definition oneTimeNet (scenario : ScenarioInput) (m : nat) : float :=
  r2 (fold_left (fun s ev => s + ev_amount ev)
        (filter (fun ev => (ev_month ev =? Z.of_nat m)%Z) (oneTimeEvents scenario))
        0).

(** [debtStates[di].balance = newBalance;
     if (newBalance <= 0) debtStates[di].paidOff = true] *)
Definition advanceDebt (d : DebtState) (r : DebtStep) : DebtState :=
  {| balance := newBalance r;
     annualRate := annualRate d;
     minPayment := minPayment d;
     strategy := strategy d;
     paidOff := if newBalance r <=? 0 then true else paidOff d |}.

(** [for (let di = 0; di < debtStates.length; di++)]: every debt is stepped
    against the same [extraCash]. *)
Fixpoint debtLoop (extraCash : float) (debtStates : list DebtState)
    (totalDebtPayment totalInterestThisMonth : float)
  : list DebtState * (float * float) :=
  match debtStates with
  | [] => ([], (totalDebtPayment, totalInterestThisMonth))
  | d :: rest =>
      let r := stepDebt d extraCash in
      let out := debtLoop extraCash rest
                   (r2 (totalDebtPayment + payment r))
                   (r2 (totalInterestThisMonth + interest r)) in
      (advanceDebt d r :: fst out, snd out)
  end.

(** [for (let ii = 0; ii < invValues.length; ii++)] over the index-aligned
    [investments]. *)
Fixpoint investLoop (invValues : list float) (investments : list InvestmentInput)
    (totalContrib : float) : list float * float :=
  match invValues, investments with
  | v :: vs, inv :: invs =>
      let contrib := inv_monthlyContribution inv in
      let v' := stepInvestment v contrib (inv_expectedAnnualReturn inv) in
      let out := investLoop vs invs (r2 (totalContrib + contrib)) in
      (v' :: fst out, snd out)
  | _, _ => ([], totalContrib)
  end.

(** [goals.forEach((goal, gi) => ...)] over the index-aligned
    [goalAchievedMonth]. *)
Fixpoint trackGoals (m : nat) (cash netWorth totalInv : float)
    (gs : list FinancialGoal) (achieved : list (option nat)) : list (option nat) :=
  match gs, achieved with
  | goal :: gs', a :: achieved' =>
      let a' :=
        match a with
        | Some _ => a
        | None =>
            let actual :=
              match goal_type goal with
              | Savings => cash
              | NetWorth => netWorth
              | Investment => totalInv
              end in
            if goal_targetAmount goal <=? actual then Some m else None
        end in
      a' :: trackGoals m cash netWorth totalInv gs' achieved'
  | _, _ => achieved
  end.

(** Default value for [last] on the (never empty) snapshots of a step. *)
Definition noSnapshot : MonthSnapshot := mkSnapshot 0 0 0 0 0 0 0 0 0.

(** The snapshot pushed by the most recent iteration. *)
Definition lastSnapshot (st : LoopState) : MonthSnapshot :=
  last (ls_snapshots st) noSnapshot.

Section Engine.

(** [Math.pow] at the exponents the engine uses, [Math.floor(m / 12)] and [m]
    for a loop counter [m].  ECMAScript leaves the accuracy of [Math.pow] to
    the implementation, so the engine is embedded for whichever function the
    host provides. *)
Variable Math_pow : float -> nat -> float.

(** [monthlyIncome] and [monthlyExpense]: 0 outside the window of the item,
    otherwise the amount grown once per completed year and rounded. *)
Definition monthlyIncome (income : IncomeInput) (m : nat) : float :=
  if (Z.of_nat m <? inc_startMonth income)%Z then 0
  else if afterEnd m (inc_endMonth income) then 0
  else
    let years := (m / 12)%nat in
    r2 (inc_amount income * Math_pow (1 + inc_growthRate income / 100) years).

Definition monthlyExpense (expense : ExpenseInput) (m : nat) : float :=
  if (Z.of_nat m <? exp_startMonth expense)%Z then 0
  else if afterEnd m (exp_endMonth expense) then 0
  else if exp_isOneTime expense && negb (Z.of_nat m =? exp_startMonth expense)%Z then 0
  else
    let years := (m / 12)%nat in
    r2 (exp_amount expense * Math_pow (1 + exp_growthRate expense / 100) years).

(** Income, tax and expenses of month [m], as in the loop body. *)
Definition grossIncome (scenario : ScenarioInput) (m : nat) : float :=
  r2 (fold_left (fun s inc => s + monthlyIncome inc m) (sc_incomes scenario) 0).
Definition taxThisMonth (scenario : ScenarioInput) (m : nat) : float :=
  r2 (grossIncome scenario m * (taxRate scenario / 100)).
Definition netIncome (scenario : ScenarioInput) (m : nat) : float :=
  r2 (grossIncome scenario m - taxThisMonth scenario m).

Definition monthlyInflation (scenario : ScenarioInput) : float :=
  inflationRate scenario / 100 / 12.
Definition inflationMultiplier (scenario : ScenarioInput) (m : nat) : float :=
  Math_pow (1 + monthlyInflation scenario) m.
Definition totalExpensesAt (scenario : ScenarioInput) (m : nat) : float :=
  r2 (fold_left
        (fun s exp => s + monthlyExpense exp m * inflationMultiplier scenario m)
        (sc_expenses scenario) 0).

(** [const preDebtCash = r2(cash + netIncome - totalExpenses + oneTimeNet)] *)
Definition preDebtCash (scenario : ScenarioInput) (cash : float) (m : nat) : float :=
  r2 (cash + netIncome scenario m - totalExpensesAt scenario m + oneTimeNet scenario m).

(** One iteration of [for (let m = 0; m < months; m++)]. *)
Definition monthStep (scenario : ScenarioInput) (st : LoopState) (m : nat) : LoopState :=
  let netIncome := netIncome scenario m in
  let totalTaxPaid := r2 (ls_totalTaxPaid st + taxThisMonth scenario m) in
  let totalExpenses := totalExpensesAt scenario m in
  let preDebtCash := preDebtCash scenario (ls_cash st) m in
  let extraCash := Math_max 0 preDebtCash in
  let debtOut := debtLoop extraCash (ls_debtStates st) 0 0 in
  let debtStates := fst debtOut in
  let totalDebtPayment := fst (snd debtOut) in
  let totalInterestThisMonth := snd (snd debtOut) in
  let totalInterestPaid := r2 (ls_totalInterestPaid st + totalInterestThisMonth) in
  let invOut := investLoop (ls_invValues st) (sc_investments scenario) 0 in
  let invValues := fst invOut in
  let totalContrib := snd invOut in
  let cash := r2 (preDebtCash - totalDebtPayment - totalContrib) in
  let lower := cash <? ls_minCash st in
  let totalDebt := r2 (fold_left (fun s d => s + balance d) debtStates 0) in
  let totalInv := r2 (fold_left (fun s v => s + v) invValues 0) in
  let netWorth := r2 (cash + totalInv - totalDebt) in
  {| ls_cash := cash;
     ls_debtStates := debtStates;
     ls_invValues := invValues;
     ls_snapshots :=
       ls_snapshots st ++
       [ {| month := m;
            cash := cash;
            netWorth := netWorth;
            totalDebt := totalDebt;
            totalInvestments := totalInv;
            totalIncome := netIncome;
            totalExpenses := totalExpenses;
            totalDebtPayment := totalDebtPayment;
            totalInvestmentContribution := totalContrib |} ];
     ls_totalInterestPaid := totalInterestPaid;
     ls_totalTaxPaid := totalTaxPaid;
     ls_negativeCashMonths :=
       if cash <? 0 then ls_negativeCashMonths st ++ [m]
       else ls_negativeCashMonths st;
     ls_debtFreeMonth :=
       match ls_debtFreeMonth st with
       | None =>
           if (totalDebt =? 0) && negb (List.length (sc_debts scenario) =? 0)%nat
           then Some m else None
       | Some dm => Some dm
       end;
     ls_minCash := if lower then cash else ls_minCash st;
     ls_minCashMonth := if lower then m else ls_minCashMonth st;
     ls_goalAchievedMonth :=
       trackGoals m cash netWorth totalInv (goals scenario) (ls_goalAchievedMonth st) |}.

(** The state after the first [n] iterations, [m = 0 .. n-1]. *)
Definition runLoop (scenario : ScenarioInput) (n : nat) : LoopState :=
  fold_left (monthStep scenario) (seq 0 n) (initState scenario).

(** The loop runs while [m < months]. *)
Definition iterations (scenario : ScenarioInput) : nat := Z.to_nat (sc_months scenario).

(** The body of [goals.map((goal, gi) => ...)] after the loop. *)
Definition goalProgressOf (snapshots : list MonthSnapshot)
    (ga : FinancialGoal * option nat) : JsResult GoalProgress :=
  let (goal, achievedMonth) := ga in
  let snapshotAtTarget :=
    index snapshots (Z.min (goal_targetMonth goal) (Z.of_nat (List.length snapshots) - 1)) in
  let* endValue :=
    match goal_type goal with
    | Savings => let* sn := deref snapshotAtTarget in Ok (cash sn)
    | NetWorth => let* sn := deref snapshotAtTarget in Ok (netWorth sn)
    | Investment => let* sn := deref snapshotAtTarget in Ok (totalInvestments sn)
    end in
  Ok {| gp_goalId := goal_id goal;
        gp_label := goal_label goal;
        gp_targetAmount := goal_targetAmount goal;
        gp_targetMonth := goal_targetMonth goal;
        gp_achievedMonth := achievedMonth;
        gp_endValue := endValue;
        gp_onTrack :=
          match achievedMonth with
          | Some am => (Z.of_nat am <=? goal_targetMonth goal)%Z
          | None => false
          end |}.

(** [computeForecast]: the loop, the goal summary, then the summary read off
    the last snapshot. *)
Definition computeForecast (scenario : ScenarioInput) : JsResult ForecastResult :=
  let st := runLoop scenario (iterations scenario) in
  let snapshots := ls_snapshots st in
  let last := index snapshots (Z.of_nat (List.length snapshots) - 1) in
  let* goalProgress :=
    mapM (goalProgressOf snapshots) (combine (goals scenario) (ls_goalAchievedMonth st)) in
  let* endCash := (let* l := deref last in Ok (cash l)) in
  let* endNetWorth := (let* l := deref last in Ok (netWorth l)) in
  let* endInvestmentValue := (let* l := deref last in Ok (totalInvestments l)) in
  Ok {| snapshots := snapshots;
        summary :=
          {| endCash := endCash;
             endNetWorth := endNetWorth;
             minCash := ls_minCash st;
             minCashMonth := ls_minCashMonth st;
             negativeCashMonths := ls_negativeCashMonths st;
             debtFreeMonth := ls_debtFreeMonth st;
             totalInterestPaid := ls_totalInterestPaid st;
             endInvestmentValue := endInvestmentValue;
             totalTaxPaid := ls_totalTaxPaid st |};
        goalProgress := goalProgress |}.

(** The snapshot pushed by iteration [k]. *)
Definition snapshotOfMonth (s : ScenarioInput) (k : nat) : MonthSnapshot :=
  lastSnapshot (runLoop s (S k)).

End Engine.

(** What every implementation of [Math.pow] returns at the three arguments
    where the result is a binary64 value with no rounding involved: exponent 0
    (fixed by ECMAScript), exponent 1 and base 1. *)
Record PowLaws (Math_pow : float -> nat -> float) : Prop := mkPowLaws {
  pow_exponent_0 : forall b, Math_pow b 0%nat = 1;
  pow_exponent_1 : forall b, Math_pow b 1%nat = b;
  pow_base_1 : forall n, Math_pow 1 n = 1
}.

(** A power function that satisfies [PowLaws]: repeated multiplication. *)
Fixpoint powByMultiplying (b : float) (n : nat) : float :=
  match n with
  | O => 1
  | S O => b
  | S n' => b * powByMultiplying b n'
  end.

(** The alert part of [runHeuristicAdvisor] ([lib/heuristic-advisor.ts]). *)

Section AdvisorAlerts.

Variable toLocaleString : float -> string.
Variable toString : float -> string.

Local Open Scope string_scope.

Definition ofNat (n : nat) : float := of_uint63 (Uint63.of_Z (Z.of_nat n)).

Definition monthlyExpenses (snapshots : list MonthSnapshot) : float :=
  if (0 <? List.length snapshots)%nat then
    r2 (fold_left (fun s sn => s + totalExpenses sn)%float (firstn 3 snapshots) 0%float
        / ofNat (Nat.min 3 (List.length snapshots)))%float
  else 0%float.

Definition totalInterestEstimate (scenario : ScenarioInput) : float :=
  r2 (fold_left (fun s d => s + debt_balance d * (debt_annualRate d / 100))%float
        (sc_debts scenario) 0%float).

Definition cashAlert (currency : string) (snapshots : list MonthSnapshot) (m : nat)
  : JsResult Alert :=
  let* sn := deref (nth_error snapshots m) in
  Ok {| alert_type := AlertCash;
        message := "Cash goes negative (" ++ currency ++ " "
                   ++ toLocaleString (r2 (cash sn)) ++ ") in month "
                   ++ toString (ofNat (m + 1)) ++ ".";
        monthIndex := Z.of_nat m |}.

Fixpoint rentSpikeFrom (currency : string) (i : nat) (prev : float)
    (rest : list MonthSnapshot) : list Alert :=
  match rest with
  | [] => []
  | sn :: rest' =>
      let curr := totalExpenses sn in
      if ((0 <? prev) && (0.2 <? (curr - prev) / prev))%float then
        [ {| alert_type := AlertRent;
             message := "Expense spike of " ++ toLocaleString (r2 (curr - prev)%float)
                        ++ " " ++ currency ++ " in month " ++ toString (ofNat (i + 1)) ++ ".";
             monthIndex := Z.of_nat i |} ]
      else rentSpikeFrom currency (S i) curr rest'
  end.

Definition rentSpike (currency : string) (snapshots : list MonthSnapshot) : list Alert :=
  match snapshots with
  | [] => []
  | sn0 :: rest => rentSpikeFrom currency 1 (totalExpenses sn0) rest
  end.

Definition debtAlert (scenario : ScenarioInput) : Alert :=
  {| alert_type := AlertDebt;
     message := "Estimated annual interest drag: " ++ sc_currency scenario ++ " "
                ++ toLocaleString (totalInterestEstimate scenario)
                ++ ". Consider accelerating repayment.";
     monthIndex := 0 |}.

Definition emergencyAlert (scenario : ScenarioInput) (forecast : ForecastResult)
    (emergencyFundMonths emergencyTarget : float) : Alert :=
  {| alert_type := AlertCash;
     message := "Emergency buffer below target ("
                ++ toString emergencyFundMonths ++ "× expenses = "
                ++ sc_currency scenario ++ " " ++ toLocaleString emergencyTarget
                ++ "). Current end cash: " ++ sc_currency scenario ++ " "
                ++ toLocaleString (endCash (summary forecast)) ++ ".";
     monthIndex := Z.of_nat (List.length (snapshots forecast)) - 1 |}.

Definition advisorAlerts (scenario : ScenarioInput) (forecast : ForecastResult)
    (emergencyFundMonths : float) : JsResult (list Alert) :=
  let currency := sc_currency scenario in
  let emergencyTarget :=
    r2 (monthlyExpenses (snapshots forecast) * emergencyFundMonths)%float in
  let* cashAlerts :=
    mapM (cashAlert currency (snapshots forecast))
         (firstn 5 (negativeCashMonths (summary forecast))) in
  Ok (cashAlerts
      ++ rentSpike currency (snapshots forecast)
      ++ (if (0 <? totalInterestEstimate scenario)%float then [debtAlert scenario] else [])
      ++ (if (endCash (summary forecast) <? emergencyTarget)%float
          then [emergencyAlert scenario forecast emergencyFundMonths emergencyTarget]
          else []))%list.

End AdvisorAlerts.

(** A formatter that prints every number alike. *)
Definition plain (_ : float) : string := "#"%string.

(** *** Scenarios *)

(** The base scenario of [tests/forecast.test.ts]. *)
Definition BASE : ScenarioInput :=
  {| sc_id := "fc-1"; sc_currency := "AED"; sc_months := 60; sc_initialCash := 100000;
     sc_incomes := [ mkIncome "i1" "Salary" 20000 0 None 0 ];
     sc_expenses := [ mkExpense "e1" "Living" 10000 Fixed 0 None 0 false ];
     sc_debts := []; sc_investments := [];
     sc_inflationRate := None; sc_taxRate := None;
     sc_oneTimeEvents := None; sc_goals := None |}.

(** The scenario of [tests/advisor.test.ts]. *)
Definition SCENARIO : ScenarioInput :=
  {| sc_id := "test-1"; sc_currency := "AED"; sc_months := 12; sc_initialCash := 5000;
     sc_incomes := [ mkIncome "i1" "Salary" 10000 0 None 0 ];
     sc_expenses := [ mkExpense "e1" "Rent" 7000 Rent 0 None 0 false;
                      mkExpense "e2" "Entertainment" 5000 Discretionary 0 None 0 false ];
     sc_debts := [ mkDebt "d1" "Loan" 50000 8 1200 StrategyMin ];
     sc_investments := [ mkInvestment "inv1" "Stocks" 20000 500 0.08 ];
     sc_inflationRate := None; sc_taxRate := None;
     sc_oneTimeEvents := None; sc_goals := None |}.

(** The [Young Professional] template of [lib/demo-data.ts]: two aggressive
    debts. *)
Definition youngProfessional : ScenarioInput :=
  {| sc_id := "tpl-1"; sc_currency := "USD"; sc_months := 60; sc_initialCash := 8000;
     sc_incomes := [ mkIncome "i1" "Salary" 4500 0 None 5;
                     mkIncome "i2" "Freelance" 500 0 None 0 ];
     sc_expenses := [ mkExpense "e1" "Rent" 1400 Rent 0 None 3 false;
                      mkExpense "e2" "Groceries" 350 Fixed 0 None 2 false;
                      mkExpense "e3" "Transport" 200 Fixed 0 None 2 false;
                      mkExpense "e4" "Dining & Social" 300 Discretionary 0 None 2 false;
                      mkExpense "e5" "Subscriptions" 80 Discretionary 0 None 0 false;
                      mkExpense "e6" "Utilities" 120 Fixed 0 None 2 false ];
     sc_debts := [ mkDebt "d1" "Student Loan" 18000 5.5 200 Aggressive;
                   mkDebt "d2" "Credit Card" 2500 19.9 75 Aggressive ];
     sc_investments := [ mkInvestment "inv1" "401(k)" 5000 300 7;
                         mkInvestment "inv2" "Index Fund" 2000 150 8 ];
     sc_inflationRate := None; sc_taxRate := None;
     sc_oneTimeEvents := None; sc_goals := None |}.

(** An overpaid card: the opening balance is a credit of 100. *)
Definition creditBalance : ScenarioInput :=
  {| sc_id := "fc-4"; sc_currency := "AED"; sc_months := 1; sc_initialCash := 1000;
     sc_incomes := []; sc_expenses := [];
     sc_debts := [ mkDebt "d1" "Card" (-100) 0 50 Aggressive ];
     sc_investments := [];
     sc_inflationRate := None; sc_taxRate := None;
     sc_oneTimeEvents := None; sc_goals := None |}.

(** An aggressive loan whose payment formula meets a rounding tie: the cash
    before debt service is 2936.95. *)
Definition tiePayment : ScenarioInput :=
  {| sc_id := "fc-10"; sc_currency := "AED"; sc_months := 1; sc_initialCash := 2936.95;
     sc_incomes := []; sc_expenses := [];
     sc_debts := [ mkDebt "d1" "Loan" 5149.99 0 35.16 Aggressive ];
     sc_investments := [];
     sc_inflationRate := None; sc_taxRate := None;
     sc_oneTimeEvents := None; sc_goals := None |}.

(** Twenty trillion in cash, twenty trillion invested and an income of one
    cent. *)
Definition largeAmounts : ScenarioInput :=
  {| sc_id := "fc-11"; sc_currency := "AED"; sc_months := 1; sc_initialCash := 2e13;
     sc_incomes := [ mkIncome "i1" "Interest" 0.01 0 None 0 ];
     sc_expenses := [];
     sc_debts := [];
     sc_investments := [ mkInvestment "inv1" "Fund" 2e13 0 0 ];
     sc_inflationRate := None; sc_taxRate := None;
     sc_oneTimeEvents := None; sc_goals := None |}.




(** A single [instant] debt of 4571.315 at 2.8%. *)
Definition instantResidue : ScenarioInput :=
  {| sc_id := "fc-13"; sc_currency := "AED"; sc_months := 3; sc_initialCash := 10000;
     sc_incomes := []; sc_expenses := [];
     sc_debts := [ mkDebt "d1" "Loan" 4571.315 2.8 100 Instant ];
     sc_investments := [];
     sc_inflationRate := None; sc_taxRate := None;
     sc_oneTimeEvents := None; sc_goals := None |}.

(** A bonus that ends with month 0 and a one-time purchase in month 1. *)
Definition windowed : ScenarioInput :=
  {| sc_id := "fc-7"; sc_currency := "AED"; sc_months := 4; sc_initialCash := 1000;
     sc_incomes := [ mkIncome "i1" "Bonus" 500 0 (Some 0%Z) 0 ];
     sc_expenses := [ mkExpense "e1" "Laptop" 900 Fixed 1 None 0 true ];
     sc_debts := []; sc_investments := [];
     sc_inflationRate := Some 3; sc_taxRate := Some 10;
     sc_oneTimeEvents := None; sc_goals := None |}.

(** An expense that ends with month 0, under an inflation rate of 12000%: the
    monthly multiplier is [11 ^ m], which leaves the binary64 range in month
    297. *)
Definition hyperinflation : ScenarioInput :=
  {| sc_id := "fc-15"; sc_currency := "AED"; sc_months := 300; sc_initialCash := 1000;
     sc_incomes := [];
     sc_expenses := [ mkExpense "e1" "Deposit" 100 Fixed 0 (Some 0%Z) 0 false ];
     sc_debts := []; sc_investments := [];
     sc_inflationRate := Some 12000; sc_taxRate := None;
     sc_oneTimeEvents := None; sc_goals := None |}.

(** Rent of 1003.5 that grows by exactly 20% a year. *)
Definition rentTwenty : ScenarioInput :=
  {| sc_id := "fc-14"; sc_currency := "AED"; sc_months := 24; sc_initialCash := 50000;
     sc_incomes := [ mkIncome "i1" "Salary" 5000 0 None 0 ];
     sc_expenses := [ mkExpense "e1" "Rent" 1003.5 Rent 0 None 20 false ];
     sc_debts := []; sc_investments := [];
     sc_inflationRate := None; sc_taxRate := None;
     sc_oneTimeEvents := None; sc_goals := None |}.

(** *** Vocabulary of the statements *)




Definition goalMonthsIndexable (s : ScenarioInput) : Prop :=
  Forall (fun g => (0 <= goal_targetMonth g)%Z) (goals s).

(** At least one month is simulated and every goal month can be looked up. *)
Definition runnable (s : ScenarioInput) : Prop :=
  (1 <= sc_months s)%Z /\ goalMonthsIndexable s.

(** A debt is still serviced when the guard of [stepDebt],
    [state.paidOff || state.balance <= 0], is false. *)
Definition activeDebt (d : DebtState) : Prop :=
  paidOff d = false /\ (balance d <=? 0) = false.

(** The interest accrued on a debt in a month. *)
Definition accrued (d : DebtState) : float := r2 (balance d * (annualRate d / 100 / 12)).

(** [startMonth <= m <= endMonth] (no upper bound without an [endMonth]). *)
Definition incomeActive (i : IncomeInput) (m : nat) : Prop :=
  (inc_startMonth i <= Z.of_nat m)%Z /\
  (forall e, inc_endMonth i = Some e -> (Z.of_nat m <= e)%Z).

(** As for incomes; a one-time expense is active in its start month only. *)
Definition expenseActive (e : ExpenseInput) (m : nat) : Prop :=
  (exp_startMonth e <= Z.of_nat m)%Z /\
  (forall x, exp_endMonth e = Some x -> (Z.of_nat m <= x)%Z) /\
  (exp_isOneTime e = true -> Z.of_nat m = exp_startMonth e).


(** No item grows and there is no inflation: every call of [Math.pow] has
    base [1 + 0 / 100 = 1]. *)
Definition zeroRates (s : ScenarioInput) : Prop :=
  Forall (fun i => inc_growthRate i = 0) (sc_incomes s) /\
  Forall (fun e => exp_growthRate e = 0) (sc_expenses s) /\
  inflationRate s = 0.




(** The negative-cash months the advisor reads (the first five) are indices of
    snapshots. *)
Definition negativeMonthsInRange (f : ForecastResult) : Prop :=
  Forall (fun m => (m < List.length (snapshots f))%nat)
         (firstn 5 (negativeCashMonths (summary f))).

(** The spike test of the advisor's expense scan,
    [prev > 0 && (curr - prev) / prev > 0.2], as the engine evaluates it. *)
Definition isSpike (prev curr : float) : Prop :=
  (0 <? prev) = true /\ (0.2 <? (curr - prev) / prev) = true.

(** Month [i] is a spike month of a snapshot sequence. *)
Definition spikeAt (snaps : list MonthSnapshot) (i : nat) : Prop :=
  exists p c, (1 <= i)%nat /\ nth_error snaps (i - 1) = Some p /\
              nth_error snaps i = Some c /\
              isSpike (totalExpenses p) (totalExpenses c).

End B64.

(* ------------------------------------------------------------------ *)
(** ** Rounding to two decimals *)

Lemma Math_round_comp : Proper (Qeq ==> eq) Math_round.
Proof.
  intros x y Hxy. unfold Math_round. now rewrite Hxy.
Qed.

#[global] Instance r2_comp : Proper (Qeq ==> Qeq) r2.
Proof.
  intros x y Hxy. unfold r2.
  assert (Math_round (x * 100) = Math_round (y * 100)) as ->.
  { apply Math_round_comp. now rewrite Hxy. }
  reflexivity.
Qed.

Lemma Math_round_inject_Z (z : Z) : Math_round (inject_Z z) = z.
Proof.
  unfold Math_round, Qfloor, Qplus, inject_Z; simpl.
  symmetry. apply (Z.div_unique (z * 2 + 1) 2 z 1); lia.
Qed.

Lemma r2_cents (z : Z) : r2 (inject_Z z / 100) == inject_Z z / 100.
Proof.
  unfold r2.
  assert (Math_round (inject_Z z / 100 * 100) = z) as ->; [|reflexivity].
  rewrite <- (Math_round_inject_Z z) at 2.
  apply Math_round_comp. field.
Qed.

Lemma r2_idem (x : Q) : is2dp (r2 x).
Proof.
  unfold is2dp. unfold r2 at 2 3. apply r2_cents.
Qed.

Lemma is2dp_cents (x : Q) : is2dp x <-> exists z, x == inject_Z z / 100.
Proof.
  split.
  - intros H. exists (Math_round (x * 100)). symmetry. exact H.
  - intros [z Hz]. unfold is2dp. rewrite Hz. apply r2_cents.
Qed.

Lemma is2dp_0 : is2dp 0.
Proof. apply is2dp_cents. exists 0%Z. reflexivity. Qed.

Lemma is2dp_plus (a b : Q) : is2dp a -> is2dp b -> is2dp (a + b).
Proof.
  rewrite !is2dp_cents. intros [x Hx] [y Hy]. exists (x + y)%Z.
  rewrite Hx, Hy, inject_Z_plus. field.
Qed.

#[global] Instance is2dp_comp : Proper (Qeq ==> iff) is2dp.
Proof.
  intros x y Hxy. unfold is2dp. now rewrite Hxy.
Qed.

Lemma r2_mono (x y : Q) : x <= y -> r2 x <= r2 y.
Proof.
  intros Hxy. unfold r2, Math_round.
  apply Qmult_le_compat_r; [|discriminate].
  rewrite <- Zle_Qle. apply Qfloor_resp_le.
  apply Qplus_le_l. apply Qmult_le_compat_r; [exact Hxy | discriminate].
Qed.

Lemma r2_0 : r2 0 == 0.
Proof. reflexivity. Qed.

Lemma r2_nonneg (x : Q) : 0 <= x -> 0 <= r2 x.
Proof. intros H. rewrite <- r2_0. now apply r2_mono. Qed.


(** Boolean comparisons against the order of [Q]. *)
Lemma ltb_lt (a b : Q) : ltb a b = true <-> a < b.
Proof.
  unfold ltb. rewrite negb_true_iff, <- not_true_iff_false, Qle_bool_iff.
  split; [apply Qnot_le_lt | apply Qlt_not_le].
Qed.

Lemma ltb_ge (a b : Q) : ltb a b = false <-> b <= a.
Proof.
  unfold ltb. rewrite negb_false_iff. apply Qle_bool_iff.
Qed.

Lemma leb_le (a b : Q) : leb a b = true <-> a <= b.
Proof. apply Qle_bool_iff. Qed.

Lemma leb_gt (a b : Q) : leb a b = false <-> b < a.
Proof.
  unfold leb. rewrite <- not_true_iff_false, Qle_bool_iff.
  split; [apply Qnot_le_lt | apply Qlt_not_le].
Qed.

(* ------------------------------------------------------------------ *)
(** ** The month loop *)

Lemma runLoop_0 (s : ScenarioInput) : runLoop s 0 = initState s.
Proof. reflexivity. Qed.

Lemma runLoop_S (s : ScenarioInput) (n : nat) :
  runLoop s (S n) = monthStep s (runLoop s n) n.
Proof.
  unfold runLoop. rewrite seq_S, fold_left_app. reflexivity.
Qed.

Lemma monthStep_snapshots (s : ScenarioInput) (st : LoopState) (m : nat) :
  ls_snapshots (monthStep s st m) = ls_snapshots st ++ [lastSnapshot (monthStep s st m)].
Proof.
  unfold lastSnapshot, monthStep; simpl. now rewrite last_last.
Qed.

Lemma lastSnapshot_month s st m : month (lastSnapshot (monthStep s st m)) = m.
Proof. unfold lastSnapshot, monthStep; simpl. now rewrite last_last. Qed.

Lemma lastSnapshot_cash s st m :
  cash (lastSnapshot (monthStep s st m)) = ls_cash (monthStep s st m).
Proof. unfold lastSnapshot, monthStep; simpl. now rewrite last_last. Qed.

Lemma monthStep_negativeCashMonths s st m :
  ls_negativeCashMonths (monthStep s st m) =
  if ltb (ls_cash (monthStep s st m)) 0
  then ls_negativeCashMonths st ++ [m] else ls_negativeCashMonths st.
Proof. reflexivity. Qed.



Lemma runLoop_snapshots_S s n :
  ls_snapshots (runLoop s (S n)) = ls_snapshots (runLoop s n) ++ [snapshotOfMonth s n].
Proof.
  unfold snapshotOfMonth. rewrite runLoop_S. apply monthStep_snapshots.
Qed.

Lemma runLoop_snapshots_length s n : List.length (ls_snapshots (runLoop s n)) = n.
Proof.
  induction n as [|n IH]; [reflexivity|].
  rewrite runLoop_snapshots_S, length_app, IH. simpl. lia.
Qed.

Lemma runLoop_snapshots_nth s n k :
  (k < n)%nat -> nth_error (ls_snapshots (runLoop s n)) k = Some (snapshotOfMonth s k).
Proof.
  induction n as [|n IH]; [lia|]. intros Hk.
  rewrite runLoop_snapshots_S.
  destruct (Nat.eq_dec k n) as [->|Hne].
  - rewrite nth_error_app2; rewrite runLoop_snapshots_length; [|lia].
    now rewrite Nat.sub_diag.
  - rewrite nth_error_app1; [apply IH; lia|].
    rewrite runLoop_snapshots_length. lia.
Qed.

Lemma runLoop_snapshots_nth_inv s n k sn :
  nth_error (ls_snapshots (runLoop s n)) k = Some sn ->
  (k < n)%nat /\ sn = snapshotOfMonth s k.
Proof.
  intros H.
  assert (k < n)%nat as Hk.
  { rewrite <- (runLoop_snapshots_length s n). apply nth_error_Some. congruence. }
  split; [exact Hk|]. rewrite (runLoop_snapshots_nth s n k Hk) in H. congruence.
Qed.

Lemma snapshotOfMonth_month s k : month (snapshotOfMonth s k) = k.
Proof. unfold snapshotOfMonth. rewrite runLoop_S. apply lastSnapshot_month. Qed.

Lemma snapshotOfMonth_cash s k : cash (snapshotOfMonth s k) = ls_cash (runLoop s (S k)).
Proof. unfold snapshotOfMonth. rewrite runLoop_S. apply lastSnapshot_cash. Qed.

(** [goalAchievedMonth] stays index-aligned with [goals]. *)
Lemma trackGoals_length m c nw ti gs achieved :
  List.length (trackGoals m c nw ti gs achieved) = List.length achieved.
Proof.
  revert achieved. induction gs as [|g gs IH]; intros [|a achieved]; simpl; auto.
Qed.

Lemma runLoop_goalAchieved_length s n :
  List.length (ls_goalAchievedMonth (runLoop s n)) = List.length (goals s).
Proof.
  induction n as [|n IH].
  - simpl. now rewrite length_map.
  - rewrite runLoop_S. unfold monthStep; simpl. now rewrite trackGoals_length.
Qed.

Lemma investLoop_length vs invs t :
  List.length vs = List.length invs ->
  List.length (fst (investLoop vs invs t)) = List.length vs.
Proof.
  revert invs t. induction vs as [|v vs IH]; intros [|inv invs] t H; simpl in *;
    try reflexivity; try discriminate.
  rewrite IH; [reflexivity | lia].
Qed.

Lemma runLoop_invValues_length s n :
  List.length (ls_invValues (runLoop s n)) = List.length (sc_investments s).
Proof.
  induction n as [|n IH].
  - simpl. now rewrite length_map.
  - rewrite runLoop_S. unfold monthStep; simpl.
    rewrite investLoop_length; exact IH.
Qed.

(* ------------------------------------------------------------------ *)
(** ** When [computeForecast] returns *)

Lemma validScenario_runnable s : validScenario s -> runnable s.
Proof. intros [[H _] G]. split; assumption. Qed.

Lemma index_in_range {A} (l : list A) (i : Z) :
  (0 <= i < Z.of_nat (List.length l))%Z -> exists a, index l i = Some a.
Proof.
  intros [H0 H1]. unfold index.
  destruct (Z.ltb_spec i 0) as [Hneg|_]; [lia|].
  destruct (nth_error l (Z.to_nat i)) as [a|] eqn:E; [now exists a|].
  apply nth_error_None in E. lia.
Qed.

Lemma index_out_of_range {A} (l : list A) (i : Z) :
  (i < 0 \/ Z.of_nat (List.length l) <= i)%Z -> index l i = None.
Proof.
  intros H. unfold index.
  destruct (Z.ltb_spec i 0) as [Hneg|Hpos]; [reflexivity|].
  apply nth_error_None. lia.
Qed.

Lemma goalProgressOf_returns (snaps : list MonthSnapshot) (g : FinancialGoal)
    (a : option nat) :
  (exists gp, goalProgressOf snaps (g, a) = Ok gp) <->
  (snaps <> [] /\ (0 <= goal_targetMonth g)%Z).
Proof.
  unfold goalProgressOf.
  set (i := Z.min (goal_targetMonth g) (Z.of_nat (List.length snaps) - 1)).
  split.
  - intros [gp H].
    destruct (index snaps i) as [sn|] eqn:E.
    + assert (0 <= i < Z.of_nat (List.length snaps))%Z as Hi.
      { destruct (Z.lt_ge_cases i 0) as [Hn|Hn].
        - rewrite index_out_of_range in E by lia. discriminate.
        - destruct (Z.lt_ge_cases i (Z.of_nat (List.length snaps))) as [Hl|Hl]; [lia|].
          rewrite index_out_of_range in E by lia. discriminate. }
      split.
      * intros ->. simpl in Hi. lia.
      * subst i. lia.
    + destruct (goal_type g); simpl in H; discriminate.
  - intros [Hne Ht].
    assert (0 < Z.of_nat (List.length snaps))%Z as Hlen.
    { destruct snaps; [congruence | simpl; lia]. }
    destruct (index_in_range snaps i) as [sn Hsn]; [subst i; lia|].
    rewrite Hsn. destruct (goal_type g); simpl; eexists; reflexivity.
Qed.

Lemma mapM_returns {A B} (f : A -> JsResult B) (l : list A) :
  (exists bs, mapM f l = Ok bs) <-> Forall (fun a => exists b, f a = Ok b) l.
Proof.
  induction l as [|a l IH]; simpl.
  - split; [constructor | intros _; now exists []].
  - split.
    + intros [bs H]. destruct (f a) as [b|e] eqn:Ea; simpl in H; [|discriminate].
      destruct (mapM f l) as [bs'|e] eqn:El; simpl in H; [|discriminate].
      constructor; [now exists b | apply IH; now exists bs'].
    + intros H. inversion H as [|? ? [b Hb] Hl]; subst.
      apply IH in Hl. destruct Hl as [bs Hbs].
      rewrite Hb, Hbs. simpl. now exists (b :: bs).
Qed.

Lemma mapM_length {A B} (f : A -> JsResult B) (l : list A) (bs : list B) :
  mapM f l = Ok bs -> List.length bs = List.length l.
Proof.
  revert bs. induction l as [|a l IH]; simpl; intros bs H.
  - now inversion H.
  - destruct (f a) as [b|e]; simpl in H; [|discriminate].
    destruct (mapM f l) as [bs'|e]; simpl in H; [|discriminate].
    inversion H; subst. simpl. f_equal. now apply IH.
Qed.

Lemma Forall_combine_fst {A B} (P : A -> Prop) (l : list A) (l' : list B) :
  List.length l = List.length l' ->
  (Forall (fun ab => P (fst ab)) (combine l l') <-> Forall P l).
Proof.
  revert l'. induction l as [|a l IH]; intros [|b l'] Hlen; simpl in *;
    try discriminate.
  - split; constructor.
  - split; intros H; inversion H; subst; constructor; auto;
      apply (IH l'); auto.
Qed.

Lemma runLoop_snapshots_nonempty s n : ls_snapshots (runLoop s n) <> [] <-> (0 < n)%nat.
Proof.
  rewrite <- (runLoop_snapshots_length s n) at 2.
  destruct (ls_snapshots (runLoop s n)); simpl; split; intros H;
    try congruence; try lia.
Qed.

Lemma goalProgress_returns (s : ScenarioInput) (n : nat) :
  (exists gps, mapM (goalProgressOf (ls_snapshots (runLoop s n)))
                 (combine (goals s) (ls_goalAchievedMonth (runLoop s n))) = Ok gps) <->
  Forall (fun g => (0 < n)%nat /\ (0 <= goal_targetMonth g)%Z) (goals s).
Proof.
  rewrite mapM_returns.
  rewrite <- (Forall_combine_fst _ (goals s) (ls_goalAchievedMonth (runLoop s n)))
    by (now rewrite runLoop_goalAchieved_length).
  split; apply Forall_impl; intros [g a] H; cbn [fst] in *.
  - apply goalProgressOf_returns in H.
    now rewrite runLoop_snapshots_nonempty in H.
  - apply goalProgressOf_returns.
    now rewrite runLoop_snapshots_nonempty.
Qed.

Lemma last_index (s : ScenarioInput) (n : nat) :
  index (ls_snapshots (runLoop s n)) (Z.of_nat (List.length (ls_snapshots (runLoop s n))) - 1)
  = match n with
    | O => None
    | S k => Some (snapshotOfMonth s k)
    end.
Proof.
  rewrite runLoop_snapshots_length. destruct n as [|k].
  - apply index_out_of_range. simpl. lia.
  - unfold index. destruct (Z.ltb_spec (Z.of_nat (S k) - 1) 0) as [H|H]; [lia|].
    replace (Z.to_nat (Z.of_nat (S k) - 1)) with k by lia.
    apply runLoop_snapshots_nth. lia.
Qed.

(** The result of a returning run, read off the final loop state. *)
Lemma computeForecast_Ok (s : ScenarioInput) (r : ForecastResult) :
  computeForecast s = Ok r ->
  let st := runLoop s (iterations s) in
  snapshots r = ls_snapshots st /\
  minCash (summary r) = ls_minCash st /\
  minCashMonth (summary r) = ls_minCashMonth st /\
  negativeCashMonths (summary r) = ls_negativeCashMonths st /\
  debtFreeMonth (summary r) = ls_debtFreeMonth st /\
  totalInterestPaid (summary r) = ls_totalInterestPaid st /\
  totalTaxPaid (summary r) = ls_totalTaxPaid st.
Proof.
  unfold computeForecast. intros H.
  destruct (mapM _ _) as [gps|e]; simpl in H; [|discriminate].
  destruct (index _ _) as [l|]; simpl in H; [|discriminate].
  inversion H; subst; simpl. repeat split; reflexivity.
Qed.

Lemma computeForecast_returns (s : ScenarioInput) :
  (exists r, computeForecast s = Ok r) <-> runnable s.
Proof.
  unfold computeForecast, runnable, goalMonthsIndexable.
  rewrite last_index.
  split.
  - intros [r H].
    destruct (mapM _ _) as [gps|e] eqn:Eg; simpl in H; [|discriminate].
    destruct (iterations s) as [|k] eqn:En; simpl in H; [discriminate|].
    assert (exists gps', mapM (goalProgressOf (ls_snapshots (runLoop s (S k))))
              (combine (goals s) (ls_goalAchievedMonth (runLoop s (S k)))) = Ok gps')
      as Hg by (now exists gps).
    apply goalProgress_returns in Hg.
    split; [unfold iterations in En; lia|].
    revert Hg. apply Forall_impl. tauto.
  - intros [Hm Hg].
    assert (exists k, iterations s = S k) as [k En].
    { unfold iterations. exists (Nat.pred (Z.to_nat (sc_months s))). lia. }
    rewrite En.
    destruct (proj2 (goalProgress_returns s (S k))) as [gps Hgps].
    { revert Hg. apply Forall_impl. intros g Hgoal. split; [lia | exact Hgoal]. }
    rewrite Hgps. simpl. eexists; reflexivity.
Qed.

Lemma computeForecast_zero_months (s : ScenarioInput) :
  (sc_months s <= 0)%Z -> computeForecast s = Throw TypeError.
Proof.
  intros Hm. destruct (computeForecast s) as [r|[]] eqn:E; [|reflexivity].
  assert (runnable s) as [H _] by (apply computeForecast_returns; now exists r).
  lia.
Qed.

(** C1, as stated, fails: with a horizon of zero months no snapshot is pushed,
    [last] is [undefined] and building the summary raises [TypeError]; no
    [ForecastResult] with an empty snapshot sequence is returned. *)
Lemma computeForecast_zero_horizon_throws :
  iterations zeroHorizon = 0%nat /\
  computeForecast zeroHorizon = Throw TypeError /\
  ~ (forall s : ScenarioInput, exists r, computeForecast s = Ok r).
Proof.
  split; [reflexivity|]. split; [reflexivity|].
  intros H. destruct (H zeroHorizon) as [r Hr]. discriminate Hr.
Qed.

(** C1 (amended): [computeForecast] returns a [ForecastResult] exactly for the
    scenarios that simulate at least one month and whose goal target months are
    non-negative; in particular it returns for every validated horizon, and for
    a horizon of zero months (or less) it raises [TypeError] instead of
    returning an empty forecast. *)
Theorem computeForecast_total_on_runnable (s : ScenarioInput) :
  ((exists r, computeForecast s = Ok r) <->
   ((1 <= sc_months s)%Z /\ Forall (fun g => (0 <= goal_targetMonth g)%Z) (goals s)))
  /\ ((sc_months s <= 0)%Z -> computeForecast s = Throw TypeError).
Proof.
  split.
  - apply computeForecast_returns.
  - apply computeForecast_zero_months.
Qed.

(** [BASE] returns a forecast; [zeroHorizon] raises. *)
Lemma computeForecast_total_on_runnable_BASE :
  (exists r, computeForecast BASE = Ok r) /\
  computeForecast zeroHorizon = Throw TypeError.
Proof.
  split.
  - apply (proj1 (computeForecast_total_on_runnable BASE)).
    split; [simpl; lia | constructor].
  - apply (proj2 (computeForecast_total_on_runnable zeroHorizon)).
    simpl. lia.
Defined.

(** C6: a valid scenario (1 to 360 months, goal months 0-based) yields exactly
    [months] snapshots, and snapshot [k] carries month index [k]. *)
Theorem snapshot_count (s : ScenarioInput) :
  validScenario s ->
  exists r, computeForecast s = Ok r /\
    Z.of_nat (List.length (snapshots r)) = sc_months s /\
    (forall k, (k < List.length (snapshots r))%nat ->
       exists sn, nth_error (snapshots r) k = Some sn /\ month sn = k).
Proof.
  intros Hv. pose proof (validScenario_runnable s Hv) as Hr.
  destruct (proj2 (computeForecast_returns s) Hr) as [r Hok].
  exists r. split; [exact Hok|].
  destruct (computeForecast_Ok s r Hok) as [Hsn _].
  rewrite Hsn, runLoop_snapshots_length.
  split.
  - unfold iterations. destruct Hv as [[H1 _] _]. lia.
  - intros k Hk. exists (snapshotOfMonth s k). split.
    + now apply runLoop_snapshots_nth.
    + apply snapshotOfMonth_month.
Qed.

Lemma snapshot_count_BASE :
  exists r, computeForecast BASE = Ok r /\
    Z.of_nat (List.length (snapshots r)) = 60%Z /\
    (forall k, (k < List.length (snapshots r))%nat ->
       exists sn, nth_error (snapshots r) k = Some sn /\ month sn = k).
Proof.
  apply (snapshot_count BASE).
  split; [simpl; lia | constructor].
Defined.

(* ------------------------------------------------------------------ *)
(** ** Negative-cash months and the running minimum *)

Lemma runLoop_negativeCashMonths (s : ScenarioInput) (n m : nat) :
  In m (ls_negativeCashMonths (runLoop s n)) <->
  (m < n)%nat /\ cash (snapshotOfMonth s m) < 0.
Proof.
  induction n as [|n IH].
  - simpl. split; [tauto | lia].
  - rewrite runLoop_S, monthStep_negativeCashMonths, <- runLoop_S.
    destruct (ltb (ls_cash (runLoop s (S n))) 0) eqn:E.
    + apply ltb_lt in E. rewrite in_app_iff, IH. simpl.
      split.
      * intros [[Hlt Hc]|[<-|[]]]; [split; [lia|exact Hc]|].
        split; [lia|]. now rewrite snapshotOfMonth_cash.
      * intros [Hlt Hc]. destruct (Nat.eq_dec m n) as [->|Hne]; [right; now left|].
        left. split; [lia | exact Hc].
    + apply ltb_ge in E. rewrite IH. split.
      * intros [Hlt Hc]. split; [lia | exact Hc].
      * intros [Hlt Hc]. destruct (Nat.eq_dec m n) as [->|Hne].
        -- rewrite snapshotOfMonth_cash in Hc. lra.
        -- split; [lia | exact Hc].
Qed.








(* ------------------------------------------------------------------ *)
(** ** Debt service and contributions within one month *)


Lemma monthStep_debtStates s st m :
  ls_debtStates (monthStep s st m) =
  fst (debtLoop (Math_max 0 (preDebtCash s (ls_cash st) m)) (ls_debtStates st) 0 0).
Proof. reflexivity. Qed.

Lemma lastSnapshot_totalDebtPayment s st m :
  totalDebtPayment (lastSnapshot (monthStep s st m)) =
  fst (snd (debtLoop (Math_max 0 (preDebtCash s (ls_cash st) m)) (ls_debtStates st) 0 0)).
Proof. unfold lastSnapshot, monthStep; simpl. now rewrite last_last. Qed.

Lemma stepDebt_inactive (d : DebtState) (e : Q) :
  ~ activeDebt d -> stepDebt d e = {| payment := 0; interest := 0; newBalance := 0 |}.
Proof.
  unfold activeDebt, stepDebt. intros H.
  destruct (paidOff d); simpl; [reflexivity|].
  destruct (leb (balance d) 0) eqn:E; [reflexivity|].
  apply leb_gt in E. exfalso. apply H. split; [reflexivity | exact E].
Qed.




(** The loop steps each debt, in order, against the one [extraCash]; what the
    earlier debts paid does not enter the later steps. *)
Lemma debtLoop_states (e : Q) (ds : list DebtState) (p i : Q) :
  fst (debtLoop e ds p i) = map (fun d => advanceDebt d (stepDebt d e)) ds.
Proof.
  revert p i. induction ds as [|d ds IH]; intros p i; simpl; [reflexivity|].
  now rewrite IH.
Qed.

Lemma debtLoop_payments (e : Q) (ds : list DebtState) (p i : Q) :
  fst (snd (debtLoop e ds p i)) =
  fold_left (fun t d => r2 (t + payment (stepDebt d e))) ds p.
Proof.
  revert p i. induction ds as [|d ds IH]; intros p i; simpl; [reflexivity|].
  now rewrite IH.
Qed.



Lemma investLoop_values_2dp (vs : list Q) (invs : list InvestmentInput) (t : Q) :
  Forall is2dp (fst (investLoop vs invs t)).
Proof.
  revert invs t. induction vs as [|v vs IH]; intros [|inv invs] t; simpl;
    try constructor.
  - unfold stepInvestment. apply r2_idem.
  - apply IH.
Qed.

Lemma stepDebt_newBalance_2dp (d : DebtState) (e : Q) : is2dp (newBalance (stepDebt d e)).
Proof.
  unfold stepDebt. destruct (paidOff d || leb (balance d) 0); simpl.
  - apply is2dp_0.
  - apply r2_idem.
Qed.

(* ------------------------------------------------------------------ *)
(** ** A first-month deficit with no buffer *)







(* ------------------------------------------------------------------ *)
(** ** Amounts carried between months *)

Lemma monthStep_carried2dp s st m : carried2dp (monthStep s st m).
Proof.
  unfold carried2dp, monthStep; simpl.
  repeat split; try apply r2_idem.
  - rewrite debtLoop_states. apply Forall_map, Forall_forall.
    intros d _. apply stepDebt_newBalance_2dp.
  - apply investLoop_values_2dp.
Qed.

Lemma r2_2dp (x y : Q) : is2dp y -> x == y -> r2 x == y.
Proof. intros Hy Hxy. rewrite Hxy. exact Hy. Qed.

(* ------------------------------------------------------------------ *)
(** ** Debt payments of a month *)

Lemma stepDebt_newBalance_nonneg (d : DebtState) (e : Q) : 0 <= newBalance (stepDebt d e).
Proof.
  unfold stepDebt. destruct (paidOff d || leb (balance d) 0) eqn:G; simpl; [lra|].
  apply r2_nonneg. apply Q.le_max_l.
Qed.

Lemma snapshotOfMonth_totalDebtPayment (s : ScenarioInput) (m : nat) :
  totalDebtPayment (snapshotOfMonth s m) =
  fold_left
    (fun t d => r2 (t + payment (stepDebt d
                          (Math_max 0 (preDebtCash s (ls_cash (runLoop s m)) m)))))
    (ls_debtStates (runLoop s m)) 0.
Proof.
  unfold snapshotOfMonth. rewrite runLoop_S, lastSnapshot_totalDebtPayment.
  apply debtLoop_payments.
Qed.

(* ------------------------------------------------------------------ *)
(** ** The heuristic advisor *)

Lemma In_firstn_In {A} (n : nat) (l : list A) (a : A) : In a (firstn n l) -> In a l.
Proof.
  intros H. rewrite <- (firstn_skipn n l). apply in_or_app. now left.
Qed.

Lemma computeForecast_negativeMonthsInRange (s : ScenarioInput) (f : ForecastResult) :
  computeForecast s = Ok f -> negativeMonthsInRange f.
Proof.
  intros Hok. destruct (computeForecast_Ok s f Hok) as (Hsn & _ & _ & Hneg & _).
  unfold negativeMonthsInRange. rewrite Hsn, Hneg, runLoop_snapshots_length.
  apply Forall_forall. intros m Hin. apply In_firstn_In in Hin.
  now apply runLoop_negativeCashMonths in Hin.
Qed.

Section AdvisorFacts.

Variable toLocaleString : Q -> string.
Variable toString : Q -> string.

Lemma cashAlerts_return (currency : string) (snaps : list MonthSnapshot) (ms : list nat) :
  Forall (fun m => (m < List.length snaps)%nat) ms ->
  exists al, mapM (cashAlert toLocaleString toString currency snaps) ms = Ok al /\
    map (fun a => (alert_type a, monthIndex a)) al = map (fun m => (AlertCash, Z.of_nat m)) ms.
Proof.
  induction ms as [|m ms IH]; intros H.
  - exists []. split; reflexivity.
  - inversion H as [|? ? Hm Hms]; subst.
    destruct (IH Hms) as (al & Hal & Hmap).
    destruct (nth_error snaps m) as [sn|] eqn:E;
      [|apply nth_error_None in E; lia].
    eexists. split.
    + simpl. unfold cashAlert at 1. rewrite E. simpl.
      rewrite Hal. simpl. reflexivity.
    + simpl. now rewrite Hmap.
Qed.

Lemma advisorActions_return (s : ScenarioInput) (f : ForecastResult) :
  exists acts, advisorActions s f = Ok acts.
Proof.
  unfold advisorActions.
  destruct (ltb 0 _ && existsb _ (sc_debts s)) eqn:Ea.
  - apply andb_true_iff in Ea. destruct Ea as [_ Ex].
    destruct (sc_debts s) as [|d0 ds]; [discriminate Ex|]. simpl.
    destruct (sc_investments s) as [|i0 invs]; simpl; eexists; reflexivity.
  - simpl. destruct (sc_investments s) as [|i0 invs]; simpl; eexists; reflexivity.
Qed.

Lemma insightsBeforeFiller_length (s : ScenarioInput) (f : ForecastResult) :
  (1 <= List.length (insightsBeforeFiller toLocaleString toString s f) <= 4)%nat.
Proof.
  unfold insightsBeforeFiller.
  rewrite !length_app.
  destruct (debtFreeMonth (summary f));
    destruct (0 <? List.length (negativeCashMonths (summary f)))%nat;
    destruct (0 <? List.length (sc_investments s))%nat; simpl; lia.
Qed.

Lemma advisorInsights_length (s : ScenarioInput) (f : ForecastResult) :
  (2 <= List.length (advisorInsights toLocaleString toString s f) <= 4)%nat.
Proof.
  pose proof (insightsBeforeFiller_length s f) as H.
  unfold advisorInsights. cbv zeta.
  destruct (Nat.ltb_spec
              (List.length (insightsBeforeFiller toLocaleString toString s f)) 3)
    as [Hlt|Hge].
  - rewrite length_app. change (List.length [fillerInsight f]) with 1%nat. lia.
  - lia.
Qed.

Lemma runHeuristicAdvisor_returns (s : ScenarioInput) (f : ForecastResult) (e : Q) :
  negativeMonthsInRange f ->
  exists cal acts,
    mapM (cashAlert toLocaleString toString (sc_currency s) (snapshots f))
         (firstn 5 (negativeCashMonths (summary f))) = Ok cal /\
    map (fun a => (alert_type a, monthIndex a)) cal
      = map (fun m => (AlertCash, Z.of_nat m)) (firstn 5 (negativeCashMonths (summary f))) /\
    exists rest,
    runHeuristicAdvisor toLocaleString toString s f e =
      Ok {| insights := firstn 6 (advisorInsights toLocaleString toString s f);
            alerts := cal ++ rest;
            actions := acts |}.
Proof.
  intros Hr.
  destruct (cashAlerts_return (sc_currency s) (snapshots f) _ Hr) as (cal & Hcal & Hmap).
  destruct (advisorActions_return s f) as [acts Hacts].
  exists cal, acts. split; [exact Hcal|]. split; [exact Hmap|].
  unfold runHeuristicAdvisor, advisorAlerts.
  rewrite Hcal. simpl. rewrite Hacts. simpl.
  eexists. reflexivity.
Qed.

End AdvisorFacts.

(** C9: the alerts start with one [cash] alert per entry among the first five
    of [summary.negativeCashMonths], in order, each carrying that month's
    index; so a forecast with a negative-cash month yields a [cash] alert. *)
Theorem cash_alert_per_negative_month (toLocaleString toString : Q -> string)
    (s : ScenarioInput) (f : ForecastResult) (emergencyFundMonths : Q) :
  negativeMonthsInRange f ->
  exists resp,
    runHeuristicAdvisor toLocaleString toString s f emergencyFundMonths = Ok resp /\
    (exists cashAlerts rest,
       alerts resp = cashAlerts ++ rest /\
       mapM (cashAlert toLocaleString toString (sc_currency s) (snapshots f))
            (firstn 5 (negativeCashMonths (summary f))) = Ok cashAlerts /\
       map (fun a => (alert_type a, monthIndex a)) cashAlerts
         = map (fun m => (AlertCash, Z.of_nat m))
               (firstn 5 (negativeCashMonths (summary f)))) /\
    (negativeCashMonths (summary f) <> [] ->
     exists a, In a (alerts resp) /\ alert_type a = AlertCash).
Proof.
  intros Hr.
  destruct (runHeuristicAdvisor_returns toLocaleString toString s f emergencyFundMonths Hr)
    as (cal & acts & Hcal & Hmap & rest & Hrun).
  eexists. split; [exact Hrun|]. simpl. split.
  - exists cal, rest. repeat split; assumption.
  - intros Hne.
    destruct (negativeCashMonths (summary f)) as [|m ms]; [congruence|].
    simpl in Hmap. destruct cal as [|a cal]; [discriminate Hmap|].
    exists a. split; [now left|].
    simpl in Hmap. now inversion Hmap.
Qed.

(** The advisor test scenario: eleven negative months, five [cash] alerts for
    months 1 to 5 at the head of the alerts. *)
Lemma cash_alert_per_negative_month_SCENARIO :
  exists f resp,
    computeForecast SCENARIO = Ok f /\
    runHeuristicAdvisor plain plain SCENARIO f 3 = Ok resp /\
    List.length (negativeCashMonths (summary f)) = 11%nat /\
    map (fun a => (alert_type a, monthIndex a)) (firstn 5 (alerts resp))
      = [ (AlertCash, 1%Z); (AlertCash, 2%Z); (AlertCash, 3%Z);
          (AlertCash, 4%Z); (AlertCash, 5%Z) ] /\
    exists a, In a (alerts resp) /\ alert_type a = AlertCash.
Proof.
  destruct (computeForecast SCENARIO) as [f|err] eqn:Hf;
    [|vm_compute in Hf; discriminate Hf].
  destruct (cash_alert_per_negative_month plain plain SCENARIO f 3)
    as (resp & Hrun & (cal & rest & Hal & _ & Hmap) & Hcash).
  - exact (computeForecast_negativeMonthsInRange SCENARIO f Hf).
  - exists f, resp. split; [reflexivity|]. split; [exact Hrun|].
    vm_compute in Hf. injection Hf as <-.
    split; [reflexivity|]. split.
    + simpl in Hmap. rewrite Hal.
      assert (List.length cal = 5%nat) as Hlen.
      { apply (f_equal (@List.length _)) in Hmap. now rewrite length_map in Hmap. }
      rewrite firstn_app, Hlen, Nat.sub_diag, firstn_0, app_nil_r.
      rewrite firstn_all2 by lia. exact Hmap.
    + apply Hcash. discriminate.
Defined.

(** C8, as stated, fails in its last clause: one filler cannot lift a single
    insight to three.  For [BASE] (no debts, no negative month, no investments)
    only the net-worth insight accumulates, the filler is appended, and the
    advisor returns two insights. *)
Lemma filler_does_not_reach_three :
  exists f resp,
    computeForecast BASE = Ok f /\
    runHeuristicAdvisor plain plain BASE f 3 = Ok resp /\
    List.length (insightsBeforeFiller plain plain BASE f) = 1%nat /\
    map title (insights resp) = [ "Projected net worth"%string;
                                  "Cash flow appears stable"%string ] /\
    ~ (3 <= List.length (insights resp))%nat.
Proof.
  destruct (computeForecast BASE) as [f|err] eqn:Hf;
    [|vm_compute in Hf; discriminate Hf].
  vm_compute in Hf. injection Hf as <-.
  do 2 eexists. split; [reflexivity|]. split; [vm_compute; reflexivity|].
  split; [reflexivity|]. split; [reflexivity|].
  simpl. lia.
Qed.

(** C8 (amended): for a forecast whose negative-cash months index its
    snapshots the advisor returns between 1 and 6 insights (in fact 2 to 4);
    when fewer than 3 insights have accumulated, the "cash flow stable" filler
    with [minCash] as impact and confidence [med] is appended as the last one,
    otherwise the accumulated insights are returned unchanged.  The filler
    guarantees two insights, and three as soon as two had accumulated. *)
Theorem insights_between_1_and_6 (toLocaleString toString : Q -> string)
    (s : ScenarioInput) (f : ForecastResult) (emergencyFundMonths : Q) :
  negativeMonthsInRange f ->
  exists resp,
    runHeuristicAdvisor toLocaleString toString s f emergencyFundMonths = Ok resp /\
    (1 <= List.length (insights resp) <= 6)%nat /\
    (2 <= List.length (insights resp) <= 4)%nat /\
    let before := insightsBeforeFiller toLocaleString toString s f in
    ((List.length before < 3)%nat ->
       insights resp = before ++ [fillerInsight f] /\
       List.length (insights resp) = S (List.length before)) /\
    ((3 <= List.length before)%nat -> insights resp = before) /\
    title (fillerInsight f) = "Cash flow appears stable"%string /\
    impact_aed (fillerInsight f) = minCash (summary f) /\
    confidence (fillerInsight f) = Med.
Proof.
  intros Hr.
  destruct (runHeuristicAdvisor_returns toLocaleString toString s f emergencyFundMonths Hr)
    as (cal & acts & _ & _ & rest & Hrun).
  eexists. split; [exact Hrun|]. cbn [insights].
  pose proof (advisorInsights_length toLocaleString toString s f) as Hlen.
  rewrite firstn_all2 by lia.
  split; [lia|]. split; [lia|].
  unfold advisorInsights. cbv zeta.
  destruct (Nat.ltb_spec
              (List.length (insightsBeforeFiller toLocaleString toString s f)) 3)
    as [Hlt|Hge].
  - split.
    + intros _. split; [reflexivity|].
      rewrite length_app. change (List.length [fillerInsight f]) with 1%nat. lia.
    + split; [intros H; lia|]. repeat split.
  - split; [intros H; lia|]. split; [reflexivity|]. repeat split.
Qed.

(** On the advisor test scenario three insights accumulate and no filler is
    added. *)
Lemma insights_between_1_and_6_SCENARIO :
  exists f resp,
    computeForecast SCENARIO = Ok f /\
    runHeuristicAdvisor plain plain SCENARIO f 3 = Ok resp /\
    (1 <= List.length (insights resp) <= 6)%nat /\
    insights resp = insightsBeforeFiller plain plain SCENARIO f.
Proof.
  destruct (computeForecast SCENARIO) as [f|err] eqn:Hf;
    [|vm_compute in Hf; discriminate Hf].
  destruct (insights_between_1_and_6 plain plain SCENARIO f 3)
    as (resp & Hrun & Hschema & _ & _ & Hfull & _).
  - exact (computeForecast_negativeMonthsInRange SCENARIO f Hf).
  - exists f, resp. split; [reflexivity|]. split; [exact Hrun|].
    split; [exact Hschema|].
    apply Hfull.
    vm_compute in Hf. injection Hf as <-. vm_compute. lia.
Defined.

(* ------------------------------------------------------------------ *)
(** ** Debts: clamping and the debt-free month *)

Lemma Qsum_fold_left {A} (f : A -> Q) (l : list A) (t : Q) :
  fold_left (fun s a => s + f a) l t == t + Qsum (map f l).
Proof.
  revert t. induction l as [|a l IH]; intros t.
  - simpl. ring.
  - change (fold_left (fun s a => s + f a) (a :: l) t)
      with (fold_left (fun s a => s + f a) l (t + f a)).
    change (Qsum (map f (a :: l))) with (f a + Qsum (map f l)).
    rewrite IH. ring.
Qed.

Lemma Qsum_nonneg (l : list Q) : Forall (fun x => 0 <= x) l -> 0 <= Qsum l.
Proof.
  induction 1 as [|x l Hx _ IH]; [simpl; lra|].
  change (Qsum (x :: l)) with (x + Qsum l). lra.
Qed.

Lemma Qsum_zero (l : list Q) : Forall (fun x => x == 0) l -> Qsum l == 0.
Proof.
  induction 1 as [|x l Hx _ IH]; [reflexivity|].
  change (Qsum (x :: l)) with (x + Qsum l). rewrite Hx, IH. ring.
Qed.

Lemma Qsum_nonneg_zero (l : list Q) :
  Forall (fun x => 0 <= x) l -> Qsum l == 0 -> Forall (fun x => x == 0) l.
Proof.
  induction 1 as [|x l Hx Hl IH]; intros Hs; constructor;
    change (Qsum (x :: l)) with (x + Qsum l) in Hs;
    pose proof (Qsum_nonneg l Hl) as Hn.
  - lra.
  - apply IH. lra.
Qed.

Lemma Qsum_2dp (l : list Q) : Forall is2dp l -> is2dp (Qsum l).
Proof.
  induction 1 as [|x l Hx _ IH]; [apply is2dp_0|].
  change (Qsum (x :: l)) with (x + Qsum l). now apply is2dp_plus.
Qed.

Lemma snapshotOfMonth_totalDebt (s : ScenarioInput) (k : nat) :
  totalDebt (snapshotOfMonth s k) =
  r2 (fold_left (fun t d => t + balance d) (ls_debtStates (runLoop s (S k))) 0).
Proof.
  unfold snapshotOfMonth. rewrite runLoop_S.
  unfold lastSnapshot, monthStep; simpl. now rewrite last_last.
Qed.

Lemma totalDebt_as_sum (s : ScenarioInput) (k : nat) :
  totalDebt (snapshotOfMonth s k) ==
  r2 (Qsum (map balance (ls_debtStates (runLoop s (S k))))).
Proof.
  rewrite snapshotOfMonth_totalDebt. apply r2_comp.
  rewrite Qsum_fold_left. ring.
Qed.

Lemma runLoop_balances_nonneg (s : ScenarioInput) (k : nat) :
  Forall (fun d => 0 <= balance d) (ls_debtStates (runLoop s (S k))).
Proof.
  rewrite runLoop_S, monthStep_debtStates, debtLoop_states.
  apply Forall_map, Forall_forall. intros d _. apply stepDebt_newBalance_nonneg.
Qed.

Lemma runLoop_balances_2dp (s : ScenarioInput) (k : nat) :
  Forall (fun d => is2dp (balance d)) (ls_debtStates (runLoop s (S k))).
Proof.
  rewrite runLoop_S.
  destruct (monthStep_carried2dp s (runLoop s k) k) as (_ & H & _). exact H.
Qed.

Lemma Forall_map_iff {A B} (f : A -> B) (P : B -> Prop) (l : list A) :
  Forall P (map f l) <-> Forall (fun a => P (f a)) l.
Proof.
  induction l as [|a l IH]; simpl.
  - split; constructor.
  - split; intros H; inversion H; subst; constructor; auto; now apply IH.
Qed.


Lemma eqb_eq (a b : Q) : eqb a b = true <-> a == b.
Proof. apply Qeq_bool_iff. Qed.

Lemma monthStep_debtFreeMonth s st m :
  ls_debtFreeMonth (monthStep s st m) =
  match ls_debtFreeMonth st with
  | None =>
      if eqb (totalDebt (lastSnapshot (monthStep s st m))) 0
         && negb (List.length (sc_debts s) =? 0)%nat
      then Some m else None
  | Some dm => Some dm
  end.
Proof.
  unfold lastSnapshot, monthStep; simpl. now rewrite last_last.
Qed.

(** Below [n], a property with no first witness has no witness. *)
Lemma no_first_no_any (P : nat -> Prop) (n : nat) :
  (forall m, ~ ((m < n)%nat /\ P m /\ forall k, (k < m)%nat -> ~ P k)) ->
  forall k, (k < n)%nat -> ~ P k.
Proof.
  intros Hnone k. induction k as [k IH] using lt_wf_ind. intros Hk HP.
  apply (Hnone k). split; [exact Hk|]. split; [exact HP|].
  intros j Hj. apply IH; [exact Hj | lia].
Qed.

Lemma runLoop_debtFreeMonth (s : ScenarioInput) (n m : nat) :
  ls_debtFreeMonth (runLoop s n) = Some m <->
  ((m < n)%nat /\ sc_debts s <> [] /\
   totalDebt (snapshotOfMonth s m) == 0 /\
   forall k, (k < m)%nat -> ~ totalDebt (snapshotOfMonth s k) == 0).
Proof.
  revert m. induction n as [|n IH]; intros m.
  - simpl. split; [discriminate | intros [H _]; lia].
  - rewrite runLoop_S, monthStep_debtFreeMonth, <- runLoop_S.
    change (lastSnapshot (runLoop s (S n))) with (snapshotOfMonth s n).
    destruct (ls_debtFreeMonth (runLoop s n)) as [dm|] eqn:E.
    + destruct (proj1 (IH dm) eq_refl) as (Hdm & Hne & Hz & Hmin).
      split.
      * intros H. injection H as <-. repeat split; auto.
      * intros (Hm & _ & Hz' & Hmin'). f_equal.
        destruct (Nat.lt_trichotomy dm m) as [Hlt|[Heq|Hgt]]; [|exact Heq|].
        -- exfalso. now apply (Hmin' dm).
        -- exfalso. now apply (Hmin m).
    + assert (forall k, (k < n)%nat ->
                ~ (sc_debts s <> [] /\ totalDebt (snapshotOfMonth s k) == 0)) as Hnone.
      { apply no_first_no_any. intros m' (Hm' & [Hne Hz] & Hmin).
        assert (@None nat = Some m') as Hsome; [|discriminate Hsome].
        apply IH. repeat split; auto.
        intros k Hk Hzk. apply (Hmin k Hk). split; assumption. }
      destruct (eqb (totalDebt (snapshotOfMonth s n)) 0
                && negb (List.length (sc_debts s) =? 0)%nat) eqn:C.
      * apply andb_true_iff in C. destruct C as [Cz Cd].
        apply eqb_eq in Cz. apply negb_true_iff, Nat.eqb_neq in Cd.
        assert (sc_debts s <> []) as Hne by (intros H0; rewrite H0 in Cd; now apply Cd).
        split.
        -- intros H. injection H as <-. repeat split; auto.
           intros k Hk Hzk. apply (Hnone k Hk). split; assumption.
        -- intros (Hm & _ & Hz & Hmin). f_equal.
           destruct (Nat.eq_dec m n) as [->|Hmn]; [reflexivity|].
           exfalso. apply (Hnone m); [lia|]. split; assumption.
      * split; [discriminate|].
        intros (Hm & Hne & Hz & Hmin). exfalso.
        destruct (Nat.eq_dec m n) as [->|Hmn].
        -- apply andb_false_iff in C. destruct C as [C|C].
           ++ apply not_true_iff_false in C. apply C. now apply eqb_eq.
           ++ apply negb_false_iff, Nat.eqb_eq in C.
              apply Hne. now destruct (sc_debts s).
        -- apply (Hnone m); [lia|]. split; assumption.
Qed.

(** X2: [summary.debtFreeMonth] is the first month whose snapshot shows a total
    debt of exactly 0, provided the scenario has a debt; it is [null] when the
    scenario has no debt or no month reaches 0. *)
Theorem debtFreeMonth_is_first_zero (s : ScenarioInput) :
  runnable s ->
  exists r, computeForecast s = Ok r /\
    (forall m, debtFreeMonth (summary r) = Some m <->
       (sc_debts s <> [] /\
        exists sn, nth_error (snapshots r) m = Some sn /\ totalDebt sn == 0 /\
          forall k sk, (k < m)%nat -> nth_error (snapshots r) k = Some sk ->
                       ~ totalDebt sk == 0)) /\
    (sc_debts s = [] -> debtFreeMonth (summary r) = None).
Proof.
  intros Hr. destruct (proj2 (computeForecast_returns s) Hr) as [r Hok].
  exists r. split; [exact Hok|].
  destruct (computeForecast_Ok s r Hok) as (Hsn & _ & _ & _ & Hdf & _).
  rewrite Hsn, Hdf.
  assert (forall m, ls_debtFreeMonth (runLoop s (iterations s)) = Some m <->
     (sc_debts s <> [] /\
      exists sn, nth_error (ls_snapshots (runLoop s (iterations s))) m = Some sn /\
        totalDebt sn == 0 /\
        forall k sk, (k < m)%nat ->
          nth_error (ls_snapshots (runLoop s (iterations s))) k = Some sk ->
          ~ totalDebt sk == 0)) as Hchar.
  { intros m. rewrite runLoop_debtFreeMonth. split.
    - intros (Hm & Hne & Hz & Hmin). split; [exact Hne|].
      exists (snapshotOfMonth s m). split; [now apply runLoop_snapshots_nth|].
      split; [exact Hz|]. intros k sk Hk Hnth.
      apply runLoop_snapshots_nth_inv in Hnth. destruct Hnth as [_ ->]. now apply Hmin.
    - intros (Hne & sn & Hnth & Hz & Hmin).
      apply runLoop_snapshots_nth_inv in Hnth. destruct Hnth as [Hm ->].
      repeat split; auto. intros k Hk. apply (Hmin k (snapshotOfMonth s k) Hk).
      apply runLoop_snapshots_nth. lia. }
  split; [exact Hchar|].
  intros Hnil. destruct (ls_debtFreeMonth (runLoop s (iterations s))) as [m|];
    [|reflexivity].
  destruct (proj1 (Hchar m) eq_refl) as [Hne _]. contradiction.
Qed.

(** The test [debt pays off and debtFreeMonth is set]; [BASE], which has no
    debt, never reports a debt-free month. *)
Lemma debtFreeMonth_is_first_zero_oneLoan :
  (exists r, computeForecast oneLoan = Ok r /\ debtFreeMonth (summary r) = Some 0%nat) /\
  (exists r, computeForecast BASE = Ok r /\ debtFreeMonth (summary r) = None).
Proof.
  split.
  - destruct (debtFreeMonth_is_first_zero oneLoan) as (r & Hok & Hchar & _).
    + split; [simpl; lia | constructor].
    + exists r. split; [exact Hok|]. apply Hchar.
      split; [discriminate|].
      vm_compute in Hok. injection Hok as <-.
      eexists. split; [reflexivity|]. split; [reflexivity|].
      intros k sk Hk. lia.
  - destruct (debtFreeMonth_is_first_zero BASE) as (r & Hok & _ & Hnone).
    + split; [simpl; lia | constructor].
    + exists r. split; [exact Hok|]. now apply Hnone.
Defined.

Lemma stepDebt_zero_balance (d : DebtState) (e : Q) :
  balance d == 0 -> stepDebt d e = {| payment := 0; interest := 0; newBalance := 0 |}.
Proof.
  intros Hz. apply stepDebt_inactive. intros [_ Hb]. lra.
Qed.

Lemma fold_r2_zero {A} (f : A -> Q) (l : list A) (t : Q) :
  Forall (fun a => f a == 0) l -> t == 0 ->
  fold_left (fun t a => r2 (t + f a)) l t == 0.
Proof.
  revert t. induction l as [|a l IH]; intros t Hl Ht; simpl; [exact Ht|].
  inversion Hl; subst. apply IH; [assumption|].
  apply r2_2dp; [apply is2dp_0|]. lra.
Qed.

Lemma zero_balances_of_totalDebt (s : ScenarioInput) (k : nat) :
  totalDebt (snapshotOfMonth s k) == 0 ->
  Forall (fun d => balance d == 0) (ls_debtStates (runLoop s (S k))).
Proof.
  rewrite totalDebt_as_sum. intros Hz.
  apply (Forall_map_iff balance (fun x => x == 0)). apply Qsum_nonneg_zero.
  - apply Forall_map_iff, runLoop_balances_nonneg.
  - rewrite <- Hz. symmetry. apply Qsum_2dp.
    apply Forall_map_iff, runLoop_balances_2dp.
Qed.

Lemma zero_balances_step (s : ScenarioInput) (n : nat) :
  Forall (fun d => balance d == 0) (ls_debtStates (runLoop s n)) ->
  Forall (fun d => balance d == 0) (ls_debtStates (runLoop s (S n))) /\
  totalDebtPayment (snapshotOfMonth s n) == 0.
Proof.
  intros Hz. split.
  - rewrite runLoop_S, monthStep_debtStates, debtLoop_states.
    apply Forall_map_iff. revert Hz. apply Forall_impl. intros d Hd.
    rewrite (stepDebt_zero_balance d _ Hd). reflexivity.
  - rewrite snapshotOfMonth_totalDebtPayment. apply fold_r2_zero; [|reflexivity].
    revert Hz. apply Forall_impl. intros d Hd.
    rewrite (stepDebt_zero_balance d _ Hd). reflexivity.
Qed.

Lemma zero_balances_persist (s : ScenarioInput) (k j : nat) :
  Forall (fun d => balance d == 0) (ls_debtStates (runLoop s k)) ->
  Forall (fun d => balance d == 0) (ls_debtStates (runLoop s (j + k))).
Proof.
  intros Hz. induction j as [|j IH]; [exact Hz|].
  simpl. now apply zero_balances_step.
Qed.

(** X4: being debt-free is permanent.  Once a snapshot shows a total debt of 0,
    every later snapshot shows 0 as well and no debt payment is made in any
    later month. *)
Theorem debt_free_is_permanent (s : ScenarioInput) :
  runnable s ->
  exists r, computeForecast s = Ok r /\
    forall k m sk sm, (k <= m)%nat ->
      nth_error (snapshots r) k = Some sk -> nth_error (snapshots r) m = Some sm ->
      totalDebt sk == 0 ->
      totalDebt sm == 0 /\ ((k < m)%nat -> totalDebtPayment sm == 0).
Proof.
  intros Hr. destruct (proj2 (computeForecast_returns s) Hr) as [r Hok].
  exists r. split; [exact Hok|].
  destruct (computeForecast_Ok s r Hok) as (Hsn & _).
  rewrite Hsn. intros k m sk sm Hkm Hk Hm Hz.
  apply runLoop_snapshots_nth_inv in Hk. destruct Hk as [_ ->].
  apply runLoop_snapshots_nth_inv in Hm. destruct Hm as [_ ->].
  pose proof (zero_balances_of_totalDebt s k Hz) as H0.
  split.
  - destruct (Nat.eq_dec k m) as [->|Hne]; [exact Hz|].
    pose proof (zero_balances_persist s (S k) (m - k) H0) as Hm.
    replace (m - k + S k)%nat with (S m) in Hm by lia.
    rewrite totalDebt_as_sum. apply r2_2dp; [apply is2dp_0|].
    apply Qsum_zero. now apply Forall_map_iff.
  - intros Hlt.
    pose proof (zero_balances_persist s (S k) (m - S k) H0) as Hm.
    replace (m - S k + S k)%nat with m in Hm by lia.
    now apply zero_balances_step.
Qed.

Lemma debt_free_is_permanent_oneLoan :
  exists r s0 s9, computeForecast oneLoan = Ok r /\
    nth_error (snapshots r) 0 = Some s0 /\ nth_error (snapshots r) 9 = Some s9 /\
    totalDebtPayment s0 == 5000 /\ totalDebt s9 == 0 /\ totalDebtPayment s9 == 0.
Proof.
  destruct (debt_free_is_permanent oneLoan) as (r & Hok & Hperm).
  - split; [simpl; lia | constructor].
  - assert (exists s0 s9, nth_error (snapshots r) 0 = Some s0 /\
                          nth_error (snapshots r) 9 = Some s9 /\
                          totalDebt s0 == 0 /\ totalDebtPayment s0 == 5000)
      as (s0 & s9 & H0 & H9 & Hz & Hp).
    { vm_compute in Hok. injection Hok as <-.
      do 2 eexists. repeat split; reflexivity. }
    exists r, s0, s9. split; [exact Hok|]. split; [exact H0|]. split; [exact H9|].
    split; [exact Hp|].
    destruct (Hperm 0%nat 9%nat s0 s9 (Nat.le_0_l 9) H0 H9 Hz) as [Hd Hpay].
    split; [exact Hd | apply Hpay; lia].
Defined.

(* ------------------------------------------------------------------ *)
(** ** One-time events *)

Lemma filter_filter_implied {A} (p q : A -> bool) (l : list A) :
  (forall a, p a = true -> q a = true) ->
  filter p (filter q l) = filter p l.
Proof.
  intros Himp. induction l as [|a l IH]; simpl; [reflexivity|].
  destruct (q a) eqn:Eq; simpl.
  - now rewrite IH.
  - destruct (p a) eqn:Ep; [|exact IH].
    rewrite (Himp a Ep) in Eq. discriminate.
Qed.

Lemma oneTimeNet_inHorizon (s : ScenarioInput) (m : nat) :
  (m < iterations s)%nat ->
  oneTimeNet (withEvents s (Some (filter (inHorizon s) (oneTimeEvents s)))) m
  = oneTimeNet s m.
Proof.
  intros Hm. unfold oneTimeNet. f_equal. f_equal.
  change (oneTimeEvents (withEvents s (Some (filter (inHorizon s) (oneTimeEvents s)))))
    with (filter (inHorizon s) (oneTimeEvents s)).
  apply filter_filter_implied. intros ev Hev.
  apply Z.eqb_eq in Hev. unfold inHorizon. rewrite Hev.
  unfold iterations in Hm.
  apply andb_true_iff. split; [apply Z.leb_le | apply Z.ltb_lt]; lia.
Qed.

Lemma monthStep_withEvents (s : ScenarioInput) (x : option (list OneTimeEvent))
    (st : LoopState) (m : nat) :
  oneTimeNet (withEvents s x) m = oneTimeNet s m ->
  monthStep (withEvents s x) st m = monthStep s st m.
Proof.
  intros H. unfold monthStep, preDebtCash. rewrite H. reflexivity.
Qed.

Lemma runLoop_withEvents (s : ScenarioInput) (x : option (list OneTimeEvent)) (n : nat) :
  (forall m, (m < n)%nat -> oneTimeNet (withEvents s x) m = oneTimeNet s m) ->
  runLoop (withEvents s x) n = runLoop s n.
Proof.
  induction n as [|n IH]; intros H; [reflexivity|].
  rewrite !runLoop_S, IH by (intros m Hm; apply H; lia).
  apply monthStep_withEvents, H. lia.
Qed.

(** X9: a one-time event whose month is not one of the simulated months
    ([month < 0] or [month >= months]) never changes the forecast: dropping all
    such events gives the same result, exception or not. *)
Theorem events_outside_horizon_are_ignored (s : ScenarioInput) :
  computeForecast (withEvents s (Some (filter (inHorizon s) (oneTimeEvents s))))
  = computeForecast s.
Proof.
  unfold computeForecast.
  change (iterations (withEvents s (Some (filter (inHorizon s) (oneTimeEvents s)))))
    with (iterations s).
  rewrite runLoop_withEvents; [reflexivity|].
  intros m Hm. now apply oneTimeNet_inHorizon.
Qed.

(* ------------------------------------------------------------------ *)
(** ** Investments *)

Lemma stepInvestment_grows (v c r : Q) :
  is2dp v -> 0 <= v -> 0 <= c -> 0 <= r -> v <= stepInvestment v c r.
Proof.
  intros H2 Hv Hc Hr. unfold stepInvestment.
  assert (r2 v == v) as Hrv by exact H2.
  rewrite <- Hrv at 1. apply r2_mono.
  assert (0 <= v * (r / 100 / 12)) as Hprod.
  { apply Qmult_le_0_compat; [exact Hv|].
    unfold Qdiv. repeat apply Qmult_le_0_compat; try exact Hr; discriminate. }
  lra.
Qed.

Lemma investLoop_grows (vs : list Q) (invs : list InvestmentInput) (t : Q) :
  Forall (fun v => is2dp v /\ 0 <= v) vs ->
  Forall (fun inv => 0 <= inv_monthlyContribution inv /\ 0 <= inv_expectedAnnualReturn inv)
         invs ->
  List.length vs = List.length invs ->
  Qsum vs <= Qsum (fst (investLoop vs invs t)) /\
  Forall (fun v => is2dp v /\ 0 <= v) (fst (investLoop vs invs t)).
Proof.
  revert invs t. induction vs as [|v vs IH]; intros [|inv invs] t Hv Hi Hlen;
    simpl in Hlen; try discriminate.
  - simpl. split; [lra | constructor].
  - inversion Hv as [|? ? [H2 H0] Hvs]; subst.
    inversion Hi as [|? ? [Hc Hr] His]; subst.
    destruct (IH invs (r2 (t + inv_monthlyContribution inv)) Hvs His) as [Hsum Hall];
      [lia|].
    pose proof (stepInvestment_grows v _ _ H2 H0 Hc Hr) as Hg.
    cbn [investLoop fst snd].
    set (v' := stepInvestment v (inv_monthlyContribution inv)
                 (inv_expectedAnnualReturn inv)) in *.
    set (vs' := fst (investLoop vs invs (r2 (t + inv_monthlyContribution inv)))) in *.
    split.
    + change (Qsum (v :: vs)) with (v + Qsum vs).
      change (Qsum (v' :: vs')) with (v' + Qsum vs').
      lra.
    + constructor; [|exact Hall]. split; [apply r2_idem | lra].
Qed.

Lemma snapshotOfMonth_totalInvestments (s : ScenarioInput) (k : nat) :
  totalInvestments (snapshotOfMonth s k) ==
  r2 (Qsum (ls_invValues (runLoop s (S k)))).
Proof.
  unfold snapshotOfMonth. rewrite runLoop_S.
  unfold lastSnapshot, monthStep; simpl. rewrite last_last. simpl.
  apply r2_comp. rewrite (Qsum_fold_left (fun v => v)), map_id. ring.
Qed.

Lemma monthStep_invValues s st m :
  ls_invValues (monthStep s st m) =
  fst (investLoop (ls_invValues st) (sc_investments s) 0).
Proof. reflexivity. Qed.

Lemma investLoop_sound (vs : list Q) (invs : list InvestmentInput) (t : Q) :
  Forall (fun v => 0 <= v) vs ->
  Forall (fun inv => 0 <= inv_monthlyContribution inv /\ 0 <= inv_expectedAnnualReturn inv)
         invs ->
  Forall (fun v => is2dp v /\ 0 <= v) (fst (investLoop vs invs t)).
Proof.
  revert invs t. induction vs as [|v vs IH]; intros [|inv invs] t Hv Hi;
    cbn [investLoop fst]; try constructor.
  - inversion Hv as [|? ? H0 Hvs]; subst.
    inversion Hi as [|? ? [Hc Hr] His]; subst.
    split; [apply r2_idem|]. unfold stepInvestment. apply r2_nonneg.
    assert (0 <= inv_expectedAnnualReturn inv / 100 / 12) as Hrate.
    { unfold Qdiv. repeat apply Qmult_le_0_compat; try exact Hr; discriminate. }
    assert (0 <= v * (1 + inv_expectedAnnualReturn inv / 100 / 12)) as Hp.
    { apply Qmult_le_0_compat; [exact H0 | lra]. }
    lra.
  - inversion Hv; subst. inversion Hi; subst. now apply IH.
Qed.

Lemma runLoop_invValues_sound (s : ScenarioInput) (k : nat) :
  Forall (fun inv => 0 <= inv_currentValue inv /\ 0 <= inv_monthlyContribution inv /\
                     0 <= inv_expectedAnnualReturn inv) (sc_investments s) ->
  Forall (fun v => is2dp v /\ 0 <= v) (ls_invValues (runLoop s (S k))).
Proof.
  intros Hin.
  assert (Forall (fun inv => 0 <= inv_monthlyContribution inv /\
                             0 <= inv_expectedAnnualReturn inv) (sc_investments s)) as Hcr.
  { revert Hin. apply Forall_impl. tauto. }
  induction k as [|k IH].
  - rewrite runLoop_S, monthStep_invValues. apply investLoop_sound; [|exact Hcr].
    rewrite runLoop_0. cbn [initState ls_invValues].
    apply Forall_map. revert Hin. apply Forall_impl. tauto.
  - rewrite runLoop_S, monthStep_invValues. apply investLoop_sound; [|exact Hcr].
    revert IH. apply Forall_impl. tauto.
Qed.

(** X12: with non-negative values, contributions and expected returns, the
    reported [totalInvestments] never falls from one snapshot to the next. *)
Theorem investments_never_shrink (s : ScenarioInput) :
  runnable s ->
  Forall (fun inv => 0 <= inv_currentValue inv /\ 0 <= inv_monthlyContribution inv /\
                     0 <= inv_expectedAnnualReturn inv) (sc_investments s) ->
  exists r, computeForecast s = Ok r /\
    (forall sn, In sn (snapshots r) -> 0 <= totalInvestments sn) /\
    forall k sk sn, nth_error (snapshots r) k = Some sk ->
      nth_error (snapshots r) (S k) = Some sn ->
      totalInvestments sk <= totalInvestments sn.
Proof.
  intros Hr Hin. destruct (proj2 (computeForecast_returns s) Hr) as [r Hok].
  exists r. split; [exact Hok|].
  destruct (computeForecast_Ok s r Hok) as (Hsn & _).
  rewrite Hsn. split.
  - intros sn Hi. apply In_nth_error in Hi. destruct Hi as [k Hk].
    apply runLoop_snapshots_nth_inv in Hk. destruct Hk as [_ ->].
    rewrite snapshotOfMonth_totalInvestments. apply r2_nonneg, Qsum_nonneg.
    pose proof (runLoop_invValues_sound s k Hin) as Hs.
    revert Hs. apply Forall_impl. tauto.
  - intros k sk sn Hk Hn.
    apply runLoop_snapshots_nth_inv in Hk. destruct Hk as [_ ->].
    apply runLoop_snapshots_nth_inv in Hn. destruct Hn as [_ ->].
    rewrite !snapshotOfMonth_totalInvestments. apply r2_mono.
    rewrite (runLoop_S s (S k)), monthStep_invValues.
    apply investLoop_grows.
    + now apply runLoop_invValues_sound.
    + revert Hin. apply Forall_impl. tauto.
    + apply runLoop_invValues_length.
Qed.

Lemma investments_never_shrink_youngProfessional :
  exists r, computeForecast youngProfessional = Ok r /\
    (forall sn, In sn (snapshots r) -> 0 <= totalInvestments sn) /\
    forall k sk sn, nth_error (snapshots r) k = Some sk ->
      nth_error (snapshots r) (S k) = Some sn ->
      totalInvestments sk <= totalInvestments sn.
Proof.
  apply (investments_never_shrink youngProfessional).
  - split; [simpl; lia | constructor].
  - repeat constructor; discriminate.
Defined.

(* ------------------------------------------------------------------ *)
(** ** Goal tracking *)

Lemma firstHit_spec (p : nat -> bool) (n m : nat) :
  firstHit p n = Some m <->
  ((m < n)%nat /\ p m = true /\ forall k, (k < m)%nat -> p k = false).
Proof.
  revert m. induction n as [|n IH]; intros m; simpl.
  - split; [discriminate | intros [H _]; lia].
  - destruct (firstHit p n) as [x|] eqn:E.
    + destruct (proj1 (IH x) eq_refl) as (Hx & Hpx & Hmin). split.
      * intros H. injection H as <-. repeat split; auto.
      * intros (Hm & Hpm & Hmin'). f_equal.
        destruct (Nat.lt_trichotomy x m) as [Hlt|[Heq|Hgt]]; [|exact Heq|].
        -- rewrite (Hmin' x Hlt) in Hpx. discriminate.
        -- rewrite (Hmin m Hgt) in Hpm. discriminate.
    + assert (forall k, (k < n)%nat -> p k = false) as Hnone.
      { intros k Hk. apply not_true_iff_false.
        revert k Hk. apply (no_first_no_any (fun k => p k = true)).
        intros m' (Hm' & Hp & Hmin).
        assert (@None nat = Some m') as Habs; [|discriminate Habs].
        apply IH. repeat split; auto.
        intros k Hk. apply not_true_iff_false. now apply Hmin. }
      destruct (p n) eqn:Pn.
      * split.
        -- intros H. injection H as <-. repeat split; auto.
        -- intros (Hm & Hpm & Hmin). f_equal.
           destruct (Nat.eq_dec m n) as [->|Hne]; [reflexivity|].
           rewrite Hnone in Hpm by lia. discriminate.
      * split; [discriminate|].
        intros (Hm & Hpm & _). destruct (Nat.eq_dec m n) as [->|Hne].
        -- rewrite Pn in Hpm. discriminate.
        -- rewrite Hnone in Hpm by lia. discriminate.
Qed.

Lemma monthStep_goalAchieved s st m :
  let sn := lastSnapshot (monthStep s st m) in
  ls_goalAchievedMonth (monthStep s st m) =
  trackGoals m (cash sn) (netWorth sn) (totalInvestments sn) (goals s)
             (ls_goalAchievedMonth st).
Proof. unfold lastSnapshot, monthStep; simpl. now rewrite last_last. Qed.

Lemma trackGoals_nth (m : nat) (sn : MonthSnapshot) (gs : list FinancialGoal)
    (achieved : list (option nat)) (i : nat) (g : FinancialGoal) (a : option nat) :
  nth_error gs i = Some g -> nth_error achieved i = Some a ->
  nth_error (trackGoals m (cash sn) (netWorth sn) (totalInvestments sn) gs achieved) i =
  Some match a with
       | Some x => Some x
       | None => if leb (goal_targetAmount g) (goalMetric g sn) then Some m else None
       end.
Proof.
  revert achieved i. induction gs as [|g0 gs IH]; intros [|a0 achieved] [|i] Hg Ha;
    simpl in *; try discriminate.
  - inversion Hg; inversion Ha; subst. unfold goalMetric.
    destruct a; [reflexivity|]. destruct (goal_type g); reflexivity.
  - now apply IH.
Qed.

Lemma runLoop_goalAchieved (s : ScenarioInput) (n i : nat) (g : FinancialGoal) :
  nth_error (goals s) i = Some g ->
  nth_error (ls_goalAchievedMonth (runLoop s n)) i =
  Some (firstHit (fun k => leb (goal_targetAmount g) (goalMetric g (snapshotOfMonth s k))) n).
Proof.
  intros Hg. induction n as [|n IH].
  - simpl. rewrite nth_error_map, Hg. reflexivity.
  - rewrite runLoop_S, monthStep_goalAchieved, <- runLoop_S.
    change (lastSnapshot (runLoop s (S n))) with (snapshotOfMonth s n).
    rewrite (trackGoals_nth n (snapshotOfMonth s n) _ _ i g _ Hg IH).
    reflexivity.
Qed.

Lemma mapM_nth {A B} (f : A -> JsResult B) (l : list A) (bs : list B) (i : nat) (a : A) :
  mapM f l = Ok bs -> nth_error l i = Some a ->
  exists b, nth_error bs i = Some b /\ f a = Ok b.
Proof.
  revert bs i. induction l as [|a0 l IH]; intros bs i H Hn; [destruct i; discriminate|].
  simpl in H. destruct (f a0) as [b0|e] eqn:E0; simpl in H; [|discriminate].
  destruct (mapM f l) as [bs'|e] eqn:El; simpl in H; [|discriminate].
  inversion H; subst. destruct i as [|i]; simpl in *.
  - inversion Hn; subst. now exists b0.
  - now apply (IH bs').
Qed.

Lemma nth_error_combine {A B} (l : list A) (l' : list B) (i : nat) (a : A) (b : B) :
  nth_error l i = Some a -> nth_error l' i = Some b ->
  nth_error (combine l l') i = Some (a, b).
Proof.
  revert l' i. induction l as [|a0 l IH]; intros [|b0 l'] [|i] Ha Hb;
    simpl in *; try discriminate.
  - now inversion Ha; inversion Hb.
  - now apply IH.
Qed.

Lemma computeForecast_Ok_goals (s : ScenarioInput) (r : ForecastResult) :
  computeForecast s = Ok r ->
  mapM (goalProgressOf (ls_snapshots (runLoop s (iterations s))))
       (combine (goals s) (ls_goalAchievedMonth (runLoop s (iterations s))))
  = Ok (goalProgress r).
Proof.
  unfold computeForecast. intros H.
  destruct (mapM _ _) as [gps|e]; simpl in H; [|discriminate].
  destruct (index _ _) as [l|]; simpl in H; [|discriminate].
  now inversion H.
Qed.

Lemma goalProgressOf_fields (snaps : list MonthSnapshot) (g : FinancialGoal)
    (a : option nat) (gp : GoalProgress) :
  goalProgressOf snaps (g, a) = Ok gp ->
  gp_goalId gp = goal_id g /\ gp_label gp = goal_label g /\
  gp_targetAmount gp = goal_targetAmount g /\ gp_targetMonth gp = goal_targetMonth g /\
  gp_achievedMonth gp = a /\
  gp_onTrack gp = match a with
                  | Some am => (Z.of_nat am <=? goal_targetMonth g)%Z
                  | None => false
                  end /\
  exists sn,
    index snaps (Z.min (goal_targetMonth g) (Z.of_nat (List.length snaps) - 1)) = Some sn /\
    gp_endValue gp = goalMetric g sn.
Proof.
  unfold goalProgressOf, goalMetric. intros H.
  destruct (index snaps _) as [sn|]; [|destruct (goal_type g); discriminate H].
  destruct (goal_type g); simpl in H; inversion H; subst; simpl;
    repeat split; exists sn; split; reflexivity.
Qed.

(** X13: goals are tracked by first crossing.  [goalProgress] has one entry per
    goal, in order; an entry's [achievedMonth] is the first month whose
    snapshot metric (cash, net worth or investments, by goal type) reaches
    [targetAmount], and [null] if none does; [onTrack] holds exactly when that
    month is not after [targetMonth]; [endValue] is the metric at
    [min(targetMonth, months - 1)]. *)
Theorem goal_progress_first_crossing (s : ScenarioInput) :
  runnable s ->
  exists r, computeForecast s = Ok r /\
    List.length (goalProgress r) = List.length (goals s) /\
    forall i g, nth_error (goals s) i = Some g ->
      exists gp, nth_error (goalProgress r) i = Some gp /\
        gp_goalId gp = goal_id g /\
        (forall m, gp_achievedMonth gp = Some m <->
           exists sn, nth_error (snapshots r) m = Some sn /\
             goal_targetAmount g <= goalMetric g sn /\
             forall k sk, (k < m)%nat -> nth_error (snapshots r) k = Some sk ->
                          goalMetric g sk < goal_targetAmount g) /\
        (gp_onTrack gp = true <->
           exists m, gp_achievedMonth gp = Some m /\ (Z.of_nat m <= goal_targetMonth g)%Z) /\
        (exists sn,
           nth_error (snapshots r)
             (Z.to_nat (Z.min (goal_targetMonth g) (sc_months s - 1))) = Some sn /\
           gp_endValue gp = goalMetric g sn).
Proof.
  intros Hr. destruct (proj2 (computeForecast_returns s) Hr) as [r Hok].
  exists r. split; [exact Hok|].
  destruct (computeForecast_Ok s r Hok) as (Hsn & _).
  pose proof (computeForecast_Ok_goals s r Hok) as Hgp.
  set (n := iterations s) in *.
  split.
  { rewrite (mapM_length _ _ _ Hgp), length_combine, runLoop_goalAchieved_length.
    apply Nat.min_id. }
  intros i g Hg.
  pose proof (runLoop_goalAchieved s n i g Hg) as Ha.
  destruct (mapM_nth _ _ _ i _ Hgp (nth_error_combine _ _ i _ _ Hg Ha)) as (gp & Hnth & Hf).
  exists gp. split; [exact Hnth|].
  destruct (goalProgressOf_fields _ _ _ _ Hf)
    as (Hid & _ & _ & _ & Hach & Htrack & sn & Hidx & Hend).
  split; [exact Hid|]. rewrite Hsn. split; [|split].
  - intros m. rewrite Hach, firstHit_spec. split.
    + intros (Hm & Hp & Hmin). exists (snapshotOfMonth s m).
      split; [now apply runLoop_snapshots_nth|].
      split; [now apply leb_le|].
      intros k sk Hk Hnk. apply runLoop_snapshots_nth_inv in Hnk.
      destruct Hnk as [_ ->]. apply leb_gt. now apply Hmin.
    + intros (sm & Hnm & Hle & Hmin).
      apply runLoop_snapshots_nth_inv in Hnm. destruct Hnm as [Hm ->].
      split; [exact Hm|]. split; [now apply leb_le|].
      intros k Hk. apply leb_gt. apply (Hmin k (snapshotOfMonth s k) Hk).
      apply runLoop_snapshots_nth. lia.
  - rewrite Htrack, Hach.
    destruct (firstHit _ n) as [am|].
    + rewrite Z.leb_le. split.
      * intros H. now exists am.
      * intros (m & Hm & Hle). now inversion Hm; subst.
    + split; [discriminate | intros (m & Hm & _); discriminate].
  - exists sn. split; [|exact Hend].
    rewrite runLoop_snapshots_length in Hidx.
    assert (Z.of_nat n = sc_months s) as Hn.
    { subst n. unfold iterations. destruct Hr as [Hm _]. lia. }
    rewrite Hn in Hidx. unfold index in Hidx.
    destruct (Z.min (goal_targetMonth g) (sc_months s - 1) <? 0)%Z; [discriminate|].
    exact Hidx.
Qed.

Lemma goal_progress_first_crossing_withGoals :
  exists r g1 g2, computeForecast withGoals = Ok r /\
    goalProgress r = [g1; g2] /\
    gp_goalId g1 = "g1"%string /\ gp_achievedMonth g1 = Some 4%nat /\ gp_onTrack g1 = true /\
    gp_goalId g2 = "g2"%string /\ gp_achievedMonth g2 = None /\ gp_onTrack g2 = false.
Proof.
  destruct (goal_progress_first_crossing withGoals) as (r & Hok & Hlen & Hall).
  - split; [simpl; lia|]. repeat constructor; simpl; lia.
  - destruct (Hall 0%nat _ eq_refl) as (g1 & H1 & _).
    destruct (Hall 1%nat _ eq_refl) as (g2 & H2 & _).
    exists r, g1, g2. split; [exact Hok|].
    vm_compute in Hok. injection Hok as <-.
    cbn [goalProgress nth_error] in H1, H2.
    injection H1 as <-. injection H2 as <-.
    repeat split; reflexivity.
Defined.

(* ------------------------------------------------------------------ *)
(** ** The advisor on computed forecasts *)

Section AdvisorPipeline.

Variable toLocaleString : Q -> string.
Variable toString : Q -> string.

Lemma rentSpikeFrom_spec (currency : string) (i : nat) (prev : Q)
    (rest : list MonthSnapshot) :
  (rentSpikeFrom toLocaleString toString currency i prev rest = [] /\
   forall j c p, nth_error (prev :: map totalExpenses rest) j = Some p ->
                 nth_error (map totalExpenses rest) j = Some c -> ~ isSpike p c) \/
  (exists j a c p,
     rentSpikeFrom toLocaleString toString currency i prev rest = [a] /\
     alert_type a = AlertRent /\ monthIndex a = Z.of_nat (i + j) /\
     nth_error (prev :: map totalExpenses rest) j = Some p /\
     nth_error (map totalExpenses rest) j = Some c /\ isSpike p c /\
     forall j' c' p', (j' < j)%nat ->
       nth_error (prev :: map totalExpenses rest) j' = Some p' ->
       nth_error (map totalExpenses rest) j' = Some c' -> ~ isSpike p' c').
Proof.
  revert i prev. induction rest as [|sn rest IH]; intros i prev.
  - left. split; [reflexivity|]. intros j c p _ Hc. destruct j; discriminate.
  - simpl.
    destruct (ltb 0 prev && ltb (2 # 10) ((totalExpenses sn - prev) / prev)) eqn:E.
    + right. apply andb_true_iff in E. destruct E as [E1 E2].
      apply ltb_lt in E1. apply ltb_lt in E2.
      exists 0%nat. do 3 eexists. split; [reflexivity|]. simpl.
      split; [reflexivity|]. split; [f_equal; lia|].
      split; [reflexivity|]. split; [reflexivity|]. split; [split; assumption|].
      intros j' c' p' Hj. lia.
    + assert (~ isSpike prev (totalExpenses sn)) as Hno.
      { intros [H1 H2]. apply ltb_lt in H1. apply ltb_lt in H2.
        rewrite H1, H2 in E. discriminate. }
      destruct (IH (S i) (totalExpenses sn)) as [[Hnil Hall]|(j & a & c & p & Ha & Ht & Hm & Hp & Hc & Hs & Hmin)].
      * left. split; [exact Hnil|]. intros [|j] c p Hp Hc; simpl in *.
        -- inversion Hp; inversion Hc; subst. exact Hno.
        -- now apply (Hall j).
      * right. exists (S j), a, c, p. split; [exact Ha|]. split; [exact Ht|].
        split; [rewrite Hm; f_equal; lia|].
        split; [exact Hp|]. split; [exact Hc|]. split; [exact Hs|].
        intros [|j'] c' p' Hlt Hp' Hc'; simpl in *.
        -- inversion Hp'; inversion Hc'; subst. exact Hno.
        -- apply (Hmin j'); auto. lia.
Qed.

Lemma spikeAt_pairs (sn0 : MonthSnapshot) (rest : list MonthSnapshot) (j : nat) :
  spikeAt (sn0 :: rest) (S j) <->
  exists p c, nth_error (totalExpenses sn0 :: map totalExpenses rest) j = Some p /\
              nth_error (map totalExpenses rest) j = Some c /\ isSpike p c.
Proof.
  unfold spikeAt. replace (S j - 1)%nat with j by lia.
  change (totalExpenses sn0 :: map totalExpenses rest)
    with (map totalExpenses (sn0 :: rest)).
  split.
  - intros (p & c & _ & Hp & Hc & Hs). simpl in Hc.
    exists (totalExpenses p), (totalExpenses c).
    rewrite !nth_error_map, Hp, Hc. repeat split; apply Hs.
  - intros (p & c & Hp & Hc & Hs). rewrite nth_error_map in Hp, Hc.
    destruct (nth_error (sn0 :: rest) j) as [sp|] eqn:Ep; [|discriminate].
    destruct (nth_error rest j) as [sc|] eqn:Ec; [|discriminate].
    inversion Hp; inversion Hc; subst.
    exists sp, sc. split; [lia|]. repeat split; auto; apply Hs.
Qed.

Lemma rentSpike_spec (currency : string) (snaps : list MonthSnapshot) :
  (rentSpike toLocaleString toString currency snaps = [] /\
   forall i, ~ spikeAt snaps i) \/
  (exists i a, rentSpike toLocaleString toString currency snaps = [a] /\
     alert_type a = AlertRent /\ monthIndex a = Z.of_nat i /\
     spikeAt snaps i /\ forall i', (i' < i)%nat -> ~ spikeAt snaps i').
Proof.
  destruct snaps as [|sn0 rest].
  - left. split; [reflexivity|]. intros i (p & c & _ & Hp & _).
    destruct (i - 1)%nat; discriminate.
  - simpl. destruct (rentSpikeFrom_spec currency 1 (totalExpenses sn0) rest)
      as [[Hnil Hall]|(j & a & c & p & Ha & Ht & Hm & Hp & Hc & Hs & Hmin)].
    + left. split; [exact Hnil|]. intros [|j] Hsp.
      * destruct Hsp as (_ & _ & H1 & _). lia.
      * apply spikeAt_pairs in Hsp. destruct Hsp as (p & c & Hp & Hc & Hs).
        now apply (Hall j c p).
    + right. exists (S j), a. split; [exact Ha|]. split; [exact Ht|].
      split; [rewrite Hm; f_equal|].
      split; [apply spikeAt_pairs; now exists p, c|].
      intros [|j'] Hlt Hsp.
      * destruct Hsp as (_ & _ & H1 & _). lia.
      * apply spikeAt_pairs in Hsp. destruct Hsp as (p' & c' & Hp' & Hc' & Hs').
        apply (Hmin j' c' p'); auto. lia.
Qed.

Lemma runHeuristicAdvisor_alerts (s : ScenarioInput) (f : ForecastResult) (e : Q) :
  negativeMonthsInRange f ->
  exists cal resp,
    mapM (cashAlert toLocaleString toString (sc_currency s) (snapshots f))
         (firstn 5 (negativeCashMonths (summary f))) = Ok cal /\
    map (fun a => (alert_type a, monthIndex a)) cal
      = map (fun m => (AlertCash, Z.of_nat m)) (firstn 5 (negativeCashMonths (summary f))) /\
    runHeuristicAdvisor toLocaleString toString s f e = Ok resp /\
    insights resp = firstn 6 (advisorInsights toLocaleString toString s f) /\
    advisorActions s f = Ok (actions resp) /\
    alerts resp =
      cal ++ rentSpike toLocaleString toString (sc_currency s) (snapshots f)
          ++ (if ltb 0 (totalInterestEstimate s)
              then [debtAlert toLocaleString s] else [])
          ++ (if ltb (endCash (summary f)) (r2 (monthlyExpenses (snapshots f) * e))
              then [emergencyAlert toLocaleString toString s f e
                      (r2 (monthlyExpenses (snapshots f) * e))]
              else []).
Proof.
  intros Hr.
  destruct (cashAlerts_return toLocaleString toString (sc_currency s) (snapshots f) _ Hr)
    as (cal & Hcal & Hmap).
  destruct (advisorActions_return s f) as [acts Hacts].
  exists cal. eexists. split; [exact Hcal|]. split; [exact Hmap|].
  unfold runHeuristicAdvisor, advisorAlerts.
  rewrite Hcal. simpl. rewrite Hacts. simpl.
  split; [reflexivity|]. split; [reflexivity|]. split; reflexivity.
Qed.

End AdvisorPipeline.

Lemma cashAlerts_types (cal : list Alert) (ms : list nat) :
  map (fun a => (alert_type a, monthIndex a)) cal = map (fun m => (AlertCash, Z.of_nat m)) ms ->
  Forall (fun a => alert_type a = AlertCash /\ (0 <= monthIndex a)%Z) cal /\
  List.length cal = List.length ms.
Proof.
  revert ms. induction cal as [|a cal IH]; intros [|m ms] H; simpl in H;
    try discriminate.
  - split; [constructor | reflexivity].
  - injection H as Ht Hm Hrest. destruct (IH ms Hrest) as [Hall Hlen].
    split; [|simpl; now rewrite Hlen].
    constructor; [|exact Hall]. split; [exact Ht | rewrite Hm; lia].
Qed.

Lemma advisorActions_length (s : ScenarioInput) (f : ForecastResult)
    (acts : list AdvisorAction) :
  advisorActions s f = Ok acts -> (List.length acts <= 3)%nat.
Proof.
  unfold advisorActions. intros H.
  assert (forall (c : bool) (x : AdvisorAction),
            (List.length (if c then [x] else []) <= 1)%nat) as Hone
    by (intros [|] x; simpl; lia).
  destruct (ltb 0 _ && existsb _ (sc_debts s)).
  - destruct (nth_error (sc_debts s) 0) as [d0|]; [|discriminate H].
    destruct (0 <? List.length (sc_investments s))%nat.
    + destruct (nth_error (sc_investments s) 0) as [i0|]; [|discriminate H].
      cbn [deref bind] in H. injection H as <-.
      cbn [List.length]; rewrite ?length_app; cbn [List.length].
      match goal with |- context [List.length (if ?c then [?x] else [])] =>
        pose proof (Hone c x) end. lia.
    + cbn [deref bind] in H. injection H as <-.
      cbn [List.length]; rewrite ?length_app; cbn [List.length].
      match goal with |- context [List.length (if ?c then [?x] else [])] =>
        pose proof (Hone c x) end. lia.
  - destruct (0 <? List.length (sc_investments s))%nat.
    + destruct (nth_error (sc_investments s) 0) as [i0|]; [|discriminate H].
      cbn [deref bind] in H. injection H as <-.
      cbn [List.length]; rewrite ?length_app; cbn [List.length].
      match goal with |- context [List.length (if ?c then [?x] else [])] =>
        pose proof (Hone c x) end. lia.
    + cbn [deref bind] in H. injection H as <-.
      cbn [List.length]; rewrite ?length_app; cbn [List.length].
      match goal with |- context [List.length (if ?c then [?x] else [])] =>
        pose proof (Hone c x) end. lia.
Qed.

(** X14: the whole pipeline returns and conforms to the response schema.  For
    every scenario that simulates at least one month, the heuristic advisor
    run on the computed forecast returns a response with 1 to 6 insights, at
    most 8 alerts, each with a month index of at least 0, and at most 3
    actions. *)
Theorem advisor_on_computed_forecast (toLocaleString toString : Q -> string)
    (s : ScenarioInput) (emergencyFundMonths : Q) :
  runnable s ->
  exists f resp,
    computeForecast s = Ok f /\
    runHeuristicAdvisor toLocaleString toString s f emergencyFundMonths = Ok resp /\
    (1 <= List.length (insights resp) <= 6)%nat /\
    (List.length (alerts resp) <= 8)%nat /\
    Forall (fun a => (0 <= monthIndex a)%Z) (alerts resp) /\
    (List.length (actions resp) <= 3)%nat.
Proof.
  intros Hr. destruct (proj2 (computeForecast_returns s) Hr) as [f Hok].
  pose proof (computeForecast_negativeMonthsInRange s f Hok) as Hrange.
  destruct (runHeuristicAdvisor_alerts toLocaleString toString s f emergencyFundMonths Hrange)
    as (cal & resp & _ & Hmap & Hrun & Hins & Hact & Hal).
  exists f, resp. split; [exact Hok|]. split; [exact Hrun|].
  destruct (cashAlerts_types _ _ Hmap) as [Hcash Hlen].
  assert (0 < List.length (snapshots f))%nat as Hsnap.
  { destruct (computeForecast_Ok s f Hok) as (-> & _).
    rewrite runLoop_snapshots_length. destruct Hr as [Hm _]. unfold iterations. lia. }
  split.
  { rewrite Hins. pose proof (advisorInsights_length toLocaleString toString s f) as H.
    rewrite firstn_all2 by lia. lia. }
  assert (List.length (rentSpike toLocaleString toString (sc_currency s) (snapshots f)) <= 1
          /\ Forall (fun a => (0 <= monthIndex a)%Z)
                    (rentSpike toLocaleString toString (sc_currency s) (snapshots f)))%nat
    as [Hrl Hri].
  { destruct (rentSpike_spec toLocaleString toString (sc_currency s) (snapshots f))
      as [[-> _]|(i & a & -> & _ & Hm & _)].
    - split; [simpl; lia | constructor].
    - split; [simpl; lia|]. repeat constructor. rewrite Hm. lia. }
  split.
  { rewrite Hal, !length_app, Hlen.
    pose proof (firstn_le_length 5 (negativeCashMonths (summary f))) as H5.
    destruct (ltb 0 (totalInterestEstimate s));
      destruct (ltb (endCash (summary f)) _); cbn [List.length]; lia. }
  split.
  { rewrite Hal, !Forall_app. split; [|split; [|split]].
    - revert Hcash. apply Forall_impl. tauto.
    - exact Hri.
    - destruct (ltb 0 (totalInterestEstimate s)); constructor; [|constructor].
      unfold debtAlert. cbn [monthIndex]. lia.
    - destruct (ltb (endCash (summary f)) _); constructor; [|constructor].
      unfold emergencyAlert. cbn [monthIndex]. lia. }
  now apply (advisorActions_length s f).
Qed.

Lemma advisor_on_computed_forecast_SCENARIO :
  exists f resp,
    computeForecast SCENARIO = Ok f /\
    runHeuristicAdvisor plain plain SCENARIO f 3 = Ok resp /\
    (1 <= List.length (insights resp) <= 6)%nat /\
    (List.length (alerts resp) <= 8)%nat /\
    Forall (fun a => (0 <= monthIndex a)%Z) (alerts resp) /\
    (List.length (actions resp) <= 3)%nat.
Proof.
  apply (advisor_on_computed_forecast plain plain SCENARIO 3).
  split; [simpl; lia | constructor].
Defined.

(* ------------------------------------------------------------------ *)
(** ** The engine on binary64 numbers *)

Section Binary64.

Import B64.
Local Open Scope float_scope.

Lemma fold_left_pointwise {A B} (f g : A -> B -> A) (l : list B) (a : A) :
  (forall acc x, In x l -> f acc x = g acc x) -> fold_left f l a = fold_left g l a.
Proof.
  revert a. induction l as [|x l IH]; intros a H; [reflexivity|].
  cbn [fold_left]. rewrite (H a x (or_introl eq_refl)).
  apply IH. intros acc y Hy. apply H. now right.
Qed.

Lemma powByMultiplying_laws : PowLaws powByMultiplying.
Proof.
  constructor.
  - reflexivity.
  - reflexivity.
  - induction n as [|n IH]; [reflexivity|].
    destruct n as [|n]; [reflexivity|].
    change (powByMultiplying 1 (S (S n))) with (1 * powByMultiplying 1 (S n)).
    rewrite IH. reflexivity.
Qed.

(** [Math.round] at the points that tell rounding modes apart: halves go
    up, also below zero; a result of zero keeps the sign; the largest number
    below one half goes to 0 (adding one half to it would give 1); integers
    beyond 2^52, the infinities and NaN are returned as they are. *)
Example Math_round_examples :
  Math_round 2.5 = 3 /\ Math_round (-2.5) = -2 /\ Math_round 2.4 = 2 /\
  Math_round (-2.6) = -3 /\ Math_round (-0.5) = -0 /\ Math_round (-0.2) = -0 /\
  Math_round 0.3 = 0 /\ Math_round 0.49999999999999994 = 0 /\
  Math_round 4503599627370497 = 4503599627370497 /\
  Math_round 4503599627370495.5 = 4503599627370496 /\
  Math_round infinity = infinity /\ Math_round neg_infinity = neg_infinity /\
  Math_round nan = nan.
Proof. repeat split; vm_compute; reflexivity. Qed.

(** [r2] on binary64 numbers: [1.005 * 100] is 100.49999999999999, so 1.005
    rounds down; [2.675 * 100] is 267.5 and rounds up. *)
Example r2_examples :
  r2 1.005 = 1 /\ r2 2.675 = 2.68 /\ r2 0.125 = 0.13 /\ r2 (-0.125) = -0.12 /\
  r2 (357.7 * 1.15) = 411.35 /\ r2 (0.1 + 0.2) = 0.3 /\ r2 0 = 0 /\
  r2 nan = nan /\ r2 1e308 = infinity.
Proof. repeat split; vm_compute; reflexivity. Qed.




(** *** One month of debt service and contributions *)

Lemma b64_debtLoop_states (e : float) (ds : list DebtState) (p i : float) :
  fst (debtLoop e ds p i) = map (fun d => advanceDebt d (stepDebt d e)) ds.
Proof.
  revert p i. induction ds as [|d ds IH]; intros p i; cbn [debtLoop fst map]; [reflexivity|].
  now rewrite IH.
Qed.

Lemma b64_debtLoop_payments (e : float) (ds : list DebtState) (p i : float) :
  fst (snd (debtLoop e ds p i)) =
  fold_left (fun t d => r2 (t + payment (stepDebt d e))) ds p.
Proof.
  revert p i. induction ds as [|d ds IH]; intros p i; cbn [debtLoop fst snd fold_left];
    [reflexivity|].
  now rewrite IH.
Qed.

Lemma b64_debtLoop_interest (e : float) (ds : list DebtState) (p i : float) :
  snd (snd (debtLoop e ds p i)) =
  fold_left (fun t d => r2 (t + interest (stepDebt d e))) ds i.
Proof.
  revert p i. induction ds as [|d ds IH]; intros p i; cbn [debtLoop fst snd fold_left];
    [reflexivity|].
  now rewrite IH.
Qed.

Lemma b64_investLoop_length (vs : list float) (invs : list InvestmentInput) (t : float) :
  List.length vs = List.length invs ->
  List.length (fst (investLoop vs invs t)) = List.length vs.
Proof.
  revert invs t. induction vs as [|v vs IH]; intros [|inv invs] t H;
    cbn [investLoop fst List.length] in *; try reflexivity; try discriminate.
  rewrite IH; [reflexivity | lia].
Qed.

Lemma b64_investLoop_contrib (vs : list float) (invs : list InvestmentInput) (t : float) :
  List.length vs = List.length invs ->
  snd (investLoop vs invs t) =
  fold_left (fun t inv => r2 (t + inv_monthlyContribution inv)) invs t.
Proof.
  revert invs t. induction vs as [|v vs IH]; intros [|inv invs] t H;
    cbn [investLoop snd fold_left List.length] in *; try reflexivity; try discriminate.
  apply IH. lia.
Qed.




Lemma b64_stepDebt_inactive (d : DebtState) (e : float) :
  ~ activeDebt d -> stepDebt d e = {| payment := 0; interest := 0; newBalance := 0 |}.
Proof.
  unfold activeDebt, stepDebt. intros H.
  destruct (paidOff d); cbn [orb]; [reflexivity|].
  destruct (balance d <=? 0) eqn:E; [reflexivity|].
  exfalso. apply H. split; reflexivity.
Qed.

Lemma b64_stepDebt_aggressive (d : DebtState) (e : float) :
  activeDebt d -> strategy d = Aggressive ->
  payment (stepDebt d e) =
  r2 (Math_min (balance d + accrued d) (minPayment d + Math_max 0 (e * 0.3))).
Proof.
  intros [Hp Hb] Hs. unfold stepDebt. rewrite Hp, Hb, Hs. reflexivity.
Qed.

Section AnyPow.

Variable Math_pow : float -> nat -> float.

(** *** The month loop *)

Lemma b64_runLoop_S (s : ScenarioInput) (n : nat) :
  runLoop Math_pow s (S n) = monthStep Math_pow s (runLoop Math_pow s n) n.
Proof.
  unfold runLoop. rewrite seq_S, fold_left_app. reflexivity.
Qed.

Lemma b64_monthStep_snapshots (s : ScenarioInput) (st : LoopState) (m : nat) :
  ls_snapshots (monthStep Math_pow s st m) =
  ls_snapshots st ++ [lastSnapshot (monthStep Math_pow s st m)].
Proof.
  unfold lastSnapshot, monthStep; cbn [ls_snapshots]. now rewrite last_last.
Qed.

Lemma b64_runLoop_snapshots_S s n :
  ls_snapshots (runLoop Math_pow s (S n)) =
  ls_snapshots (runLoop Math_pow s n) ++ [snapshotOfMonth Math_pow s n].
Proof.
  unfold snapshotOfMonth. rewrite b64_runLoop_S. apply b64_monthStep_snapshots.
Qed.

Lemma b64_runLoop_snapshots_length s n :
  List.length (ls_snapshots (runLoop Math_pow s n)) = n.
Proof.
  induction n as [|n IH]; [reflexivity|].
  rewrite b64_runLoop_snapshots_S, length_app, IH. cbn [List.length]. lia.
Qed.

Lemma b64_runLoop_snapshots_nth s n k :
  (k < n)%nat ->
  nth_error (ls_snapshots (runLoop Math_pow s n)) k = Some (snapshotOfMonth Math_pow s k).
Proof.
  induction n as [|n IH]; [lia|]. intros Hk.
  rewrite b64_runLoop_snapshots_S.
  destruct (Nat.eq_dec k n) as [->|Hne].
  - rewrite nth_error_app2; rewrite b64_runLoop_snapshots_length; [|lia].
    now rewrite Nat.sub_diag.
  - rewrite nth_error_app1; [apply IH; lia|].
    rewrite b64_runLoop_snapshots_length. lia.
Qed.

Lemma b64_runLoop_snapshots_nth_inv s n k sn :
  nth_error (ls_snapshots (runLoop Math_pow s n)) k = Some sn ->
  (k < n)%nat /\ sn = snapshotOfMonth Math_pow s k.
Proof.
  intros H.
  assert (k < n)%nat as Hk.
  { rewrite <- (b64_runLoop_snapshots_length s n). apply nth_error_Some. congruence. }
  split; [exact Hk|]. rewrite (b64_runLoop_snapshots_nth s n k Hk) in H. congruence.
Qed.

(** The snapshot of month [m], field by field, in terms of the state the
    month starts from. *)
Lemma b64_snapshot_fields (s : ScenarioInput) (m : nat) :
  let st := runLoop Math_pow s m in
  let sn := snapshotOfMonth Math_pow s m in
  let pre := preDebtCash Math_pow s (ls_cash st) m in
  let debtOut := debtLoop (Math_max 0 pre) (ls_debtStates st) 0 0 in
  let invOut := investLoop (ls_invValues st) (sc_investments s) 0 in
  month sn = m /\
  cash sn = r2 (pre - fst (snd debtOut) - snd invOut) /\
  cash sn = ls_cash (runLoop Math_pow s (S m)) /\
  netWorth sn = r2 (cash sn + totalInvestments sn - totalDebt sn) /\
  totalDebt sn = r2 (fold_left (fun a d => a + balance d) (fst debtOut) 0) /\
  totalInvestments sn = r2 (fold_left (fun a v => a + v) (fst invOut) 0) /\
  totalIncome sn = netIncome Math_pow s m /\
  totalExpenses sn = totalExpensesAt Math_pow s m /\
  totalDebtPayment sn = fst (snd debtOut) /\
  totalInvestmentContribution sn = snd invOut.
Proof.
  cbv zeta. unfold snapshotOfMonth. rewrite b64_runLoop_S.
  unfold lastSnapshot, monthStep. cbn [ls_snapshots ls_cash].
  rewrite last_last. cbn [month cash netWorth totalDebt totalInvestments totalIncome
    totalExpenses totalDebtPayment totalInvestmentContribution].
  repeat split; reflexivity.
Qed.

Lemma b64_runLoop_state (s : ScenarioInput) (m : nat) :
  let st := runLoop Math_pow s m in
  let pre := preDebtCash Math_pow s (ls_cash st) m in
  let st' := runLoop Math_pow s (S m) in
  ls_debtStates st' = fst (debtLoop (Math_max 0 pre) (ls_debtStates st) 0 0) /\
  ls_invValues st' = fst (investLoop (ls_invValues st) (sc_investments s) 0) /\
  ls_totalInterestPaid st' =
    r2 (ls_totalInterestPaid st
        + snd (snd (debtLoop (Math_max 0 pre) (ls_debtStates st) 0 0))) /\
  ls_totalTaxPaid st' = r2 (ls_totalTaxPaid st + taxThisMonth Math_pow s m) /\
  ls_cash st' = r2 (pre - fst (snd (debtLoop (Math_max 0 pre) (ls_debtStates st) 0 0))
                        - snd (investLoop (ls_invValues st) (sc_investments s) 0)) /\
  ls_negativeCashMonths st' =
    (if ls_cash st' <? 0 then ls_negativeCashMonths st ++ [m]
     else ls_negativeCashMonths st).
Proof.
  cbv zeta. rewrite b64_runLoop_S. repeat split; reflexivity.
Qed.

Lemma b64_trackGoals_length m c nw ti gs achieved :
  List.length (trackGoals m c nw ti gs achieved) = List.length achieved.
Proof.
  revert achieved. induction gs as [|g gs IH]; intros [|a achieved];
    cbn [trackGoals List.length]; auto.
Qed.

Lemma b64_runLoop_goalAchieved_length s n :
  List.length (ls_goalAchievedMonth (runLoop Math_pow s n)) = List.length (goals s).
Proof.
  induction n as [|n IH].
  - cbn. now rewrite length_map.
  - rewrite b64_runLoop_S. unfold monthStep; cbn [ls_goalAchievedMonth].
    now rewrite b64_trackGoals_length.
Qed.

Lemma b64_runLoop_invValues_length s n :
  List.length (ls_invValues (runLoop Math_pow s n)) = List.length (sc_investments s).
Proof.
  induction n as [|n IH].
  - cbn. now rewrite length_map.
  - destruct (b64_runLoop_state s n) as (_ & -> & _).
    rewrite b64_investLoop_length; exact IH.
Qed.

Lemma b64_runLoop_debt_strategies (s : ScenarioInput) (n : nat) :
  map strategy (ls_debtStates (runLoop Math_pow s n)) = map debt_strategy (sc_debts s).
Proof.
  induction n as [|n IH].
  - cbn. rewrite map_map. reflexivity.
  - destruct (b64_runLoop_state s n) as (-> & _).
    rewrite b64_debtLoop_states, map_map. exact IH.
Qed.

Lemma b64_runLoop_negativeCashMonths (s : ScenarioInput) (n m : nat) :
  In m (ls_negativeCashMonths (runLoop Math_pow s n)) -> (m < n)%nat.
Proof.
  revert m. induction n as [|n IH]; intros m Hin.
  - destruct Hin.
  - destruct (b64_runLoop_state s n) as (_ & _ & _ & _ & _ & Hneg).
    rewrite Hneg in Hin.
    destruct (ls_cash (runLoop Math_pow s (S n)) <? 0).
    + apply in_app_or in Hin. destruct Hin as [Hin|[<-|[]]]; [|lia].
      specialize (IH m Hin). lia.
    + specialize (IH m Hin). lia.
Qed.

(** *** When [computeForecast] returns *)

Lemma b64_goalProgressOf_returns (snaps : list MonthSnapshot) (g : FinancialGoal)
    (a : option nat) :
  snaps <> [] -> (0 <= goal_targetMonth g)%Z ->
  exists gp, goalProgressOf snaps (g, a) = Ok gp.
Proof.
  intros Hne Ht. unfold goalProgressOf.
  set (i := Z.min (goal_targetMonth g) (Z.of_nat (List.length snaps) - 1)).
  assert (0 < Z.of_nat (List.length snaps))%Z as Hlen.
  { destruct snaps; [congruence | cbn [List.length]; lia]. }
  destruct (index_in_range snaps i) as [sn Hsn]; [subst i; lia|].
  rewrite Hsn. destruct (goal_type g); cbn [deref bind]; eexists; reflexivity.
Qed.

Lemma b64_last_index (s : ScenarioInput) (k : nat) :
  index (ls_snapshots (runLoop Math_pow s (S k)))
        (Z.of_nat (List.length (ls_snapshots (runLoop Math_pow s (S k)))) - 1)
  = Some (snapshotOfMonth Math_pow s k).
Proof.
  rewrite b64_runLoop_snapshots_length.
  unfold index. destruct (Z.ltb_spec (Z.of_nat (S k) - 1) 0) as [H|H]; [lia|].
  replace (Z.to_nat (Z.of_nat (S k) - 1)) with k by lia.
  apply b64_runLoop_snapshots_nth. lia.
Qed.

(** The result of a returning run, read off the final loop state. *)
Lemma b64_computeForecast_Ok (s : ScenarioInput) (r : ForecastResult) :
  computeForecast Math_pow s = Ok r ->
  let st := runLoop Math_pow s (iterations s) in
  snapshots r = ls_snapshots st /\
  debtFreeMonth (summary r) = ls_debtFreeMonth st /\
  negativeCashMonths (summary r) = ls_negativeCashMonths st /\
  (exists k, iterations s = S k /\
     endCash (summary r) = cash (snapshotOfMonth Math_pow s k) /\
     endNetWorth (summary r) = netWorth (snapshotOfMonth Math_pow s k) /\
     endInvestmentValue (summary r) = totalInvestments (snapshotOfMonth Math_pow s k)).
Proof.
  unfold computeForecast. intros H.
  destruct (mapM _ _) as [gps|e]; cbn [bind] in H; [|discriminate].
  destruct (iterations s) as [|k] eqn:En.
  - cbn in H. discriminate H.
  - rewrite b64_last_index in H. cbn [bind deref] in H.
    inversion H; subst; cbn [snapshots summary debtFreeMonth negativeCashMonths
      endCash endNetWorth endInvestmentValue].
    split; [reflexivity|]. split; [reflexivity|]. split; [reflexivity|].
    exists k. repeat split; reflexivity.
Qed.

(** A scenario that simulates a month, with goal months that can be looked
    up, gets a forecast. *)
Lemma b64_computeForecast_returns (s : ScenarioInput) :
  runnable s -> exists r, computeForecast Math_pow s = Ok r.
Proof.
  intros [Hm Hg]. unfold computeForecast.
  assert (exists k, iterations s = S k) as [k En].
  { unfold iterations. exists (Nat.pred (Z.to_nat (sc_months s))). lia. }
  rewrite En, b64_last_index.
  destruct (proj2 (mapM_returns (goalProgressOf (ls_snapshots (runLoop Math_pow s (S k))))
              (combine (goals s) (ls_goalAchievedMonth (runLoop Math_pow s (S k))))))
    as [gps Hgps].
  { apply Forall_forall. intros [g a] Hin.
    apply b64_goalProgressOf_returns.
    - rewrite b64_runLoop_snapshots_S. intros Habs.
      apply app_eq_nil in Habs. destruct Habs as [_ Habs]. discriminate Habs.
    - apply in_combine_l in Hin. unfold goalMonthsIndexable in Hg.
      rewrite Forall_forall in Hg. now apply Hg. }
  rewrite Hgps. cbn [bind deref]. eexists; reflexivity.
Qed.

(** The snapshots of a returned forecast are the snapshots of the months. *)
Lemma b64_forecast_snapshot (s : ScenarioInput) (r : ForecastResult) (m : nat)
    (sn : MonthSnapshot) :
  computeForecast Math_pow s = Ok r -> nth_error (snapshots r) m = Some sn ->
  sn = snapshotOfMonth Math_pow s m.
Proof.
  intros Hok Hnth. destruct (b64_computeForecast_Ok s r Hok) as (Hsn & _).
  rewrite Hsn in Hnth. now apply b64_runLoop_snapshots_nth_inv in Hnth.
Qed.



End AnyPow.

(** *** Scenarios without growth and without inflation

    Every call of [Math.pow] then has base 1, so the forecast is the same for
    every power function that satisfies [PowLaws]. *)

Lemma b64_monthlyIncome_zero_growth (Math_pow : float -> nat -> float)
    (i : IncomeInput) (m : nat) :
  PowLaws Math_pow -> inc_growthRate i = 0 ->
  monthlyIncome Math_pow i m =
  if (Z.of_nat m <? inc_startMonth i)%Z then 0
  else if afterEnd m (inc_endMonth i) then 0 else r2 (inc_amount i * 1).
Proof.
  intros L Hg. unfold monthlyIncome. rewrite Hg.
  change (1 + 0 / 100) with 1. now rewrite (pow_base_1 Math_pow L).
Qed.

Lemma b64_monthlyExpense_zero_growth (Math_pow : float -> nat -> float)
    (e : ExpenseInput) (m : nat) :
  PowLaws Math_pow -> exp_growthRate e = 0 ->
  monthlyExpense Math_pow e m =
  if (Z.of_nat m <? exp_startMonth e)%Z then 0
  else if afterEnd m (exp_endMonth e) then 0
  else if exp_isOneTime e && negb (Z.of_nat m =? exp_startMonth e)%Z then 0
  else r2 (exp_amount e * 1).
Proof.
  intros L Hg. unfold monthlyExpense. rewrite Hg.
  change (1 + 0 / 100) with 1. now rewrite (pow_base_1 Math_pow L).
Qed.

Lemma b64_zeroRates_month (Math_pow : float -> nat -> float) (s : ScenarioInput) (m : nat) :
  PowLaws Math_pow -> zeroRates s ->
  netIncome Math_pow s m = netIncome powByMultiplying s m /\
  taxThisMonth Math_pow s m = taxThisMonth powByMultiplying s m /\
  totalExpensesAt Math_pow s m = totalExpensesAt powByMultiplying s m.
Proof.
  intros L (Hi & He & Hinf).
  rewrite Forall_forall in Hi, He.
  assert (grossIncome Math_pow s m = grossIncome powByMultiplying s m) as Hg.
  { unfold grossIncome. f_equal. apply fold_left_pointwise. intros acc i Hin.
    rewrite (b64_monthlyIncome_zero_growth Math_pow i m L (Hi i Hin)).
    rewrite (b64_monthlyIncome_zero_growth _ i m powByMultiplying_laws (Hi i Hin)).
    reflexivity. }
  assert (inflationMultiplier Math_pow s m = inflationMultiplier powByMultiplying s m) as Hm.
  { unfold inflationMultiplier, monthlyInflation. rewrite Hinf.
    change (1 + 0 / 100 / 12) with 1.
    now rewrite (pow_base_1 Math_pow L), (pow_base_1 _ powByMultiplying_laws). }
  unfold netIncome, taxThisMonth, totalExpensesAt. rewrite Hg, Hm.
  split; [reflexivity|]. split; [reflexivity|].
  f_equal. apply fold_left_pointwise. intros acc e Hin.
  rewrite (b64_monthlyExpense_zero_growth Math_pow e m L (He e Hin)).
  rewrite (b64_monthlyExpense_zero_growth _ e m powByMultiplying_laws (He e Hin)).
  reflexivity.
Qed.

Lemma b64_zeroRates_any_pow (Math_pow : float -> nat -> float) (s : ScenarioInput) :
  PowLaws Math_pow -> zeroRates s ->
  computeForecast Math_pow s = computeForecast powByMultiplying s.
Proof.
  intros L Hz.
  assert (forall n, runLoop Math_pow s n = runLoop powByMultiplying s n) as Hrun.
  { intros n. unfold runLoop. apply fold_left_pointwise. intros st m _.
    destruct (b64_zeroRates_month Math_pow s m L Hz) as (Hn & Ht & He).
    unfold monthStep, preDebtCash. rewrite Hn, Ht, He. reflexivity. }
  unfold computeForecast. rewrite Hrun. reflexivity.
Qed.

(** *** Debt service against one shared [extraCash] *)

(** C2, as stated, fails: the guard of [stepDebt] makes a debt with a
    non-positive balance pay nothing, whereas the aggressive formula evaluates
    to min(-100 + 0, 50 + max(0, 1000 * 0.3)) = -100 for this debt. *)
Lemma aggressive_formula_fails_on_credit_balance :
  exists r sn d,
    (forall Math_pow, PowLaws Math_pow ->
       computeForecast Math_pow creditBalance = Ok r /\
       Math_max 0 (preDebtCash Math_pow creditBalance (sc_initialCash creditBalance) 0)
       = 1000) /\
    nth_error (snapshots r) 0 = Some sn /\
    ls_debtStates (initState creditBalance) = [d] /\
    strategy d = Aggressive /\
    payment (stepDebt d 1000) = 0 /\
    totalDebtPayment sn = 0 /\
    r2 (Math_min (balance d + accrued d) (minPayment d + Math_max 0 (1000 * 0.3))) = -100 /\
    (payment (stepDebt d 1000)
     =? r2 (Math_min (balance d + accrued d) (minPayment d + Math_max 0 (1000 * 0.3))))
    = false.
Proof.
  do 3 eexists. split.
  { intros Math_pow L. split.
    - rewrite (b64_zeroRates_any_pow Math_pow creditBalance L).
      + vm_compute. reflexivity.
      + repeat split; constructor.
    - destruct (b64_zeroRates_month Math_pow creditBalance 0 L) as (Hn & _ & He).
      { repeat split; constructor. }
      unfold preDebtCash. rewrite Hn, He. vm_compute. reflexivity. }
  split; [reflexivity|]. split; [reflexivity|]. split; [reflexivity|].
  split; [reflexivity|]. split; [reflexivity|].
  split; vm_compute; reflexivity.
Qed.

(** C2 (amended): in every simulated month the debts are stepped in input
    order, each against the same [extraCash = max(0, preDebtCash)], which is
    not reduced by what earlier debts pay.  An aggressive debt that passes the
    guard of [stepDebt] (not paid off, balance not [<= 0]) pays
    [r2 (min (balance + interest, minPayment + max (0, extraCash * 0.3)))],
    every operation being the binary64 one; an aggressive debt that the guard
    stops pays 0. *)
Theorem debt_service_shared_extraCash (Math_pow : float -> nat -> float)
    (s : ScenarioInput) :
  runnable s ->
  exists r, computeForecast Math_pow s = Ok r /\
    forall m sn, nth_error (snapshots r) m = Some sn ->
      let st := runLoop Math_pow s m in
      let extraCash := Math_max 0 (preDebtCash Math_pow s (ls_cash st) m) in
      let formula d :=
        r2 (Math_min (balance d + accrued d)
                     (minPayment d + Math_max 0 (extraCash * 0.3))) in
      map strategy (ls_debtStates st) = map debt_strategy (sc_debts s) /\
      ls_debtStates (runLoop Math_pow s (S m)) =
        map (fun d => advanceDebt d (stepDebt d extraCash)) (ls_debtStates st) /\
      totalDebtPayment sn =
        fold_left (fun t d => r2 (t + payment (stepDebt d extraCash))) (ls_debtStates st) 0 /\
      (forall d, In d (ls_debtStates st) -> strategy d = Aggressive ->
         (activeDebt d -> payment (stepDebt d extraCash) = formula d) /\
         (~ activeDebt d -> payment (stepDebt d extraCash) = 0)).
Proof.
  intros Hr. destruct (b64_computeForecast_returns Math_pow s Hr) as [r Hok].
  exists r. split; [exact Hok|].
  intros m sn Hnth.
  rewrite (b64_forecast_snapshot Math_pow s r m sn Hok Hnth).
  cbv zeta.
  split; [apply b64_runLoop_debt_strategies|].
  split.
  { destruct (b64_runLoop_state Math_pow s m) as (-> & _). apply b64_debtLoop_states. }
  split.
  { destruct (b64_snapshot_fields Math_pow s m) as (_ & _ & _ & _ & _ & _ & _ & _ & -> & _).
    apply b64_debtLoop_payments. }
  intros d _ Hs. split.
  - intros Ha. now apply b64_stepDebt_aggressive.
  - intros Hna. now rewrite b64_stepDebt_inactive.
Qed.

(** In month 0 of [youngProfessional] the cash before debt service is 10550;
    the loan pays 200 + 3165 and the card pays off its 2541.46 in full, both
    sized from the same 10550. *)
Lemma debt_service_shared_extraCash_youngProfessional :
  exists r sn, computeForecast powByMultiplying youngProfessional = Ok r /\
    nth_error (snapshots r) 0 = Some sn /\
    Math_max 0 (preDebtCash powByMultiplying youngProfessional
                  (sc_initialCash youngProfessional) 0) = 10550 /\
    map (fun d => payment (stepDebt d 10550))
        (ls_debtStates (runLoop powByMultiplying youngProfessional 0))
      = [ r2 (Math_min (18000 + r2 (18000 * (5.5 / 100 / 12)))
                       (200 + Math_max 0 (10550 * 0.3)));
          r2 (Math_min (2500 + r2 (2500 * (19.9 / 100 / 12)))
                       (75 + Math_max 0 (10550 * 0.3))) ] /\
    map (fun d => payment (stepDebt d 10550))
        (ls_debtStates (runLoop powByMultiplying youngProfessional 0))
      = [ 3365; 2541.46 ] /\
    totalDebtPayment sn = 5906.46.
Proof.
  destruct (debt_service_shared_extraCash powByMultiplying youngProfessional)
    as (r & Hok & Hm).
  - split; [cbn; lia | constructor].
  - assert (exists sn, nth_error (snapshots r) 0 = Some sn) as [sn Hsn].
    { destruct (b64_computeForecast_Ok _ _ _ Hok) as (-> & _).
      eexists. apply b64_runLoop_snapshots_nth. vm_compute. lia. }
    exists r, sn. split; [exact Hok|]. split; [exact Hsn|].
    destruct (Hm 0%nat sn Hsn) as (_ & _ & Htotal & _).
    split; [vm_compute; reflexivity|]. split; [reflexivity|].
    split; [vm_compute; reflexivity|].
    rewrite Htotal. vm_compute. reflexivity.
Defined.

(** A rounding tie decided by binary64: with a balance of 5149.99, a minimum
    payment of 35.16 and 2936.95 of cash before debt service the engine pays
    916.24, since [35.16 + 2936.95 * 0.3] is 916.2449999999999 in binary64. *)
Example aggressive_payment_at_a_tie :
  exists r sn,
    (forall Math_pow, PowLaws Math_pow -> computeForecast Math_pow tiePayment = Ok r) /\
    nth_error (snapshots r) 0 = Some sn /\
    totalDebtPayment sn = 916.24 /\
    (35.16 + 2936.95 * 0.3 <? 916.245) = true.
Proof.
  do 2 eexists. split.
  { intros Math_pow L. rewrite (b64_zeroRates_any_pow Math_pow tiePayment L).
    - vm_compute. reflexivity.
    - repeat split; constructor. }
  split; [reflexivity|]. split; vm_compute; reflexivity.
Qed.

(** *** Rounding to two decimals *)




(** *** Flat income and expense, no debts and no investments *)






(** *** Yearly growth of items, monthly inflation of expenses *)








(** *** Relations between the reported fields *)

(** X5: in every snapshot [netWorth] is [r2 (cash + totalInvestments -
    totalDebt)], computed from the three fields as reported, and the summary's
    [endCash], [endNetWorth] and [endInvestmentValue] are the fields of the
    last snapshot. *)
Theorem netWorth_is_the_rounded_balance (Math_pow : float -> nat -> float)
    (s : ScenarioInput) :
  runnable s ->
  exists r, computeForecast Math_pow s = Ok r /\
    (forall sn, In sn (snapshots r) ->
       netWorth sn = r2 (cash sn + totalInvestments sn - totalDebt sn)) /\
    (exists l, nth_error (snapshots r) (List.length (snapshots r) - 1) = Some l /\
       endCash (summary r) = cash l /\
       endNetWorth (summary r) = netWorth l /\
       endInvestmentValue (summary r) = totalInvestments l).
Proof.
  intros Hr. destruct (b64_computeForecast_returns Math_pow s Hr) as [r Hok].
  exists r. split; [exact Hok|]. split.
  - intros sn Hin. apply In_nth_error in Hin. destruct Hin as [k Hk].
    rewrite (b64_forecast_snapshot Math_pow s r k sn Hok Hk).
    destruct (b64_snapshot_fields Math_pow s k) as (_ & _ & _ & Hn & _). exact Hn.
  - destruct (b64_computeForecast_Ok Math_pow s r Hok)
      as (Hsn & _ & _ & k & Hk & Hc & Hn & Hi).
    exists (snapshotOfMonth Math_pow s k).
    split; [|split; [exact Hc | split; [exact Hn | exact Hi]]].
    rewrite Hsn, b64_runLoop_snapshots_length, Hk.
    replace (S k - 1)%nat with k by lia.
    apply b64_runLoop_snapshots_nth. lia.
Qed.

(** With amounts around twenty trillion the rounded balance is a cent away
    from the sum of the three fields. *)
Lemma netWorth_is_the_rounded_balance_largeAmounts :
  exists r sn, computeForecast powByMultiplying largeAmounts = Ok r /\
    nth_error (snapshots r) 0 = Some sn /\
    netWorth sn = r2 (cash sn + totalInvestments sn - totalDebt sn) /\
    netWorth sn = 40000000000000.02 /\
    cash sn = 20000000000000.01 /\ totalInvestments sn = 20000000000000 /\
    totalDebt sn = 0 /\
    endNetWorth (summary r) = 40000000000000.02.
Proof.
  destruct (netWorth_is_the_rounded_balance powByMultiplying largeAmounts)
    as (r & Hok & Hall & _).
  - split; [cbn; lia | constructor].
  - assert (exists sn, nth_error (snapshots r) 0 = Some sn) as [sn Hsn].
    { destruct (b64_computeForecast_Ok _ _ _ Hok) as (-> & _).
      eexists. apply b64_runLoop_snapshots_nth. vm_compute. lia. }
    exists r, sn. split; [exact Hok|]. split; [exact Hsn|].
    split; [apply Hall; eapply nth_error_In; exact Hsn|].
    clear Hall. vm_compute in Hok. injection Hok as <-.
    cbn [snapshots nth_error] in Hsn. injection Hsn as <-.
    repeat split; reflexivity.
Defined.

(** X6: cash flows add up through two roundings.  The closing cash of a month
    is [r2 (r2 (opening cash + totalIncome - totalExpenses + one-time events)
    - totalDebtPayment - totalInvestmentContribution)] on the reported fields,
    the opening cash being the closing cash of the month before and
    [initialCash] for month 0. *)
Theorem cash_flow_identity (Math_pow : float -> nat -> float) (s : ScenarioInput) :
  runnable s ->
  exists r, computeForecast Math_pow s = Ok r /\
    (forall k sk sn, nth_error (snapshots r) k = Some sk ->
       nth_error (snapshots r) (S k) = Some sn ->
       cash sn = r2 (r2 (cash sk + totalIncome sn - totalExpenses sn + oneTimeNet s (S k))
                     - totalDebtPayment sn - totalInvestmentContribution sn)) /\
    (forall sn, nth_error (snapshots r) 0 = Some sn ->
       cash sn = r2 (r2 (sc_initialCash s + totalIncome sn - totalExpenses sn
                         + oneTimeNet s 0)
                     - totalDebtPayment sn - totalInvestmentContribution sn)).
Proof.
  intros Hr. destruct (b64_computeForecast_returns Math_pow s Hr) as [r Hok].
  exists r. split; [exact Hok|]. split.
  - intros k sk sn Hk Hsk.
    rewrite (b64_forecast_snapshot Math_pow s r k sk Hok Hk).
    rewrite (b64_forecast_snapshot Math_pow s r (S k) sn Hok Hsk).
    destruct (b64_snapshot_fields Math_pow s k) as (_ & _ & -> & _).
    destruct (b64_snapshot_fields Math_pow s (S k))
      as (_ & Hc & _ & _ & _ & _ & Hinc & Hexp & Hp & Hco).
    rewrite Hinc, Hexp, Hp, Hco. exact Hc.
  - intros sn H0.
    rewrite (b64_forecast_snapshot Math_pow s r 0 sn Hok H0).
    destruct (b64_snapshot_fields Math_pow s 0)
      as (_ & Hc & _ & _ & _ & _ & Hinc & Hexp & Hp & Hco).
    rewrite Hinc, Hexp, Hp, Hco. exact Hc.
Qed.

Lemma cash_flow_identity_SCENARIO :
  exists r sn0 sn1, computeForecast powByMultiplying SCENARIO = Ok r /\
    nth_error (snapshots r) 0 = Some sn0 /\ nth_error (snapshots r) 1 = Some sn1 /\
    cash sn0 = r2 (r2 (5000 + totalIncome sn0 - totalExpenses sn0 + 0)
                   - totalDebtPayment sn0 - totalInvestmentContribution sn0) /\
    cash sn1 = r2 (r2 (cash sn0 + totalIncome sn1 - totalExpenses sn1 + 0)
                   - totalDebtPayment sn1 - totalInvestmentContribution sn1) /\
    cash sn0 = 1300 /\ cash sn1 = -2400.
Proof.
  destruct (cash_flow_identity powByMultiplying SCENARIO) as (r & Hok & Hstep & Hfirst).
  - split; [cbn; lia | constructor].
  - assert (exists sn0 sn1, nth_error (snapshots r) 0 = Some sn0 /\
                            nth_error (snapshots r) 1 = Some sn1)
      as (sn0 & sn1 & H0 & H1).
    { destruct (b64_computeForecast_Ok _ _ _ Hok) as (-> & _).
      do 2 eexists. split; apply b64_runLoop_snapshots_nth; vm_compute; lia. }
    exists r, sn0, sn1. split; [exact Hok|]. split; [exact H0|]. split; [exact H1|].
    split; [exact (Hfirst sn0 H0)|]. split; [exact (Hstep 0%nat sn0 sn1 H0 H1)|].
    clear Hstep Hfirst. vm_compute in Hok. injection Hok as <-.
    cbn [snapshots nth_error] in H0, H1. injection H0 as <-. injection H1 as <-.
    split; reflexivity.
Defined.

(** X11: investment contributions are never skipped or scaled back.  Every
    snapshot reports the same [totalInvestmentContribution], the running
    rounded sum of the scenario's contributions, whatever the cash position of
    the month. *)
Theorem contributions_never_skipped (Math_pow : float -> nat -> float)
    (s : ScenarioInput) :
  runnable s ->
  exists r, computeForecast Math_pow s = Ok r /\
    forall sn, In sn (snapshots r) ->
      totalInvestmentContribution sn =
      fold_left (fun t inv => r2 (t + inv_monthlyContribution inv)) (sc_investments s) 0.
Proof.
  intros Hr. destruct (b64_computeForecast_returns Math_pow s Hr) as [r Hok].
  exists r. split; [exact Hok|].
  intros sn Hin. apply In_nth_error in Hin. destruct Hin as [k Hk].
  rewrite (b64_forecast_snapshot Math_pow s r k sn Hok Hk).
  destruct (b64_snapshot_fields Math_pow s k) as (_ & _ & _ & _ & _ & _ & _ & _ & _ & ->).
  apply b64_investLoop_contrib, b64_runLoop_invValues_length.
Qed.

(** [SCENARIO] contributes 500 in each of its 12 months, 11 of which close
    with negative cash. *)
Lemma contributions_never_skipped_SCENARIO :
  exists r, computeForecast powByMultiplying SCENARIO = Ok r /\
    (forall sn, In sn (snapshots r) -> totalInvestmentContribution sn = r2 (0 + 500)) /\
    map totalInvestmentContribution (snapshots r) = repeat 500 12 /\
    List.length (negativeCashMonths (summary r)) = 11%nat.
Proof.
  destruct (contributions_never_skipped powByMultiplying SCENARIO) as (r & Hok & Hall).
  - split; [cbn; lia | constructor].
  - exists r. split; [exact Hok|]. split; [exact Hall|].
    clear Hall. vm_compute in Hok. injection Hok as <-.
    split; vm_compute; reflexivity.
Defined.

(** X3: an [instant] debt is not always cleared in its first month.  For a
    balance of 4571.315 at 2.8% the interest is 10.67 and the payoff
    [r2 (balance + interest)] is 4581.98, which leaves 0.0050000000001 and a
    rounded balance of 0.01; the cent is paid in month 1 and [debtFreeMonth]
    is 1. *)
Theorem instant_debt_can_outlive_its_payoff :
  exists r sn0 sn1,
    Forall (fun d => debt_strategy d = Instant) (sc_debts instantResidue) /\
    (forall Math_pow, PowLaws Math_pow -> computeForecast Math_pow instantResidue = Ok r) /\
    nth_error (snapshots r) 0 = Some sn0 /\
    totalDebtPayment sn0 = 4581.98 /\ totalDebt sn0 = 0.01 /\
    nth_error (snapshots r) 1 = Some sn1 /\
    totalDebtPayment sn1 = 0.01 /\ totalDebt sn1 = 0 /\
    debtFreeMonth (summary r) = Some 1%nat.
Proof.
  do 3 eexists. split; [repeat constructor|]. split.
  { intros Math_pow L. rewrite (b64_zeroRates_any_pow Math_pow instantResidue L).
    - vm_compute. reflexivity.
    - repeat split; repeat constructor. }
  repeat split; reflexivity.
Qed.

(** *** Items outside their window *)

Lemma b64_finite_cases (x : float) :
  is_finite x = true ->
  (exists s, Prim2SF x = S754_zero s) \/ (exists s m e, Prim2SF x = S754_finite s m e).
Proof.
  unfold is_finite, Prim2SF. destruct (is_nan x); [discriminate|].
  destruct (is_zero x); [intros _; left; eauto|].
  destruct (is_infinity x); [discriminate|]. intros _.
  destruct (Z.frexp x) as [fr ex].
  destruct (shr_fexp prec emax (Uint63Axioms.to_Z (normfr_mantissa fr)) (ex - prec) loc_Exact)
    as [sh e'].
  destruct (shr_m sh); eauto.
Qed.

(** Zero times a finite number is a zero. *)
Lemma b64_zero_times_finite (x : float) :
  is_finite x = true -> 0 * x = 0 \/ 0 * x = -0.
Proof.
  intros H.
  assert (exists s, Prim2SF (0 * x) = S754_zero s) as [s Hs].
  { rewrite mul_spec.
    replace (Prim2SF 0) with (S754_zero false) by (vm_compute; reflexivity).
    destruct (b64_finite_cases x H) as [[s ->]|(s & m & e & ->)];
      eexists; reflexivity. }
  rewrite <- (SF2Prim_Prim2SF (0 * x)), Hs.
  destruct s; [right | left]; reflexivity.
Qed.

Lemma b64_fold_inactive {A} (f : A -> float) (l : list A) (x : float) :
  is_finite x = true -> (forall a, In a l -> f a = 0) ->
  fold_left (fun acc a => acc + f a * x) l 0 = 0.
Proof.
  intros Hx. induction l as [|a l IH]; intros H; [reflexivity|].
  cbn [fold_left]. rewrite (H a (or_introl eq_refl)).
  assert (0 + 0 * x = 0) as ->.
  { destruct (b64_zero_times_finite x Hx) as [-> | ->]; reflexivity. }
  apply IH. intros b Hb. apply H. now right.
Qed.

Lemma b64_fold_zero {A} (f : A -> float) (l : list A) :
  (forall a, In a l -> f a = 0) -> fold_left (fun acc a => acc + f a) l 0 = 0.
Proof.
  induction l as [|a l IH]; intros H; [reflexivity|].
  cbn [fold_left]. rewrite (H a (or_introl eq_refl)).
  change (0 + 0) with 0. apply IH. intros b Hb. apply H. now right.
Qed.

Lemma b64_afterEnd_true (m : nat) (endMonth : option Z) :
  ~ (forall e, endMonth = Some e -> (Z.of_nat m <= e)%Z) -> afterEnd m endMonth = true.
Proof.
  intros H. destruct endMonth as [e|]; cbn [afterEnd].
  - rewrite Z.gtb_ltb. apply Z.ltb_lt.
    destruct (Z.lt_ge_cases e (Z.of_nat m)) as [Hlt|Hge]; [exact Hlt|].
    exfalso. apply H. intros e' He'. injection He' as <-. lia.
  - exfalso. apply H. intros e He. discriminate He.
Qed.

Lemma b64_monthlyIncome_inactive (Math_pow : float -> nat -> float) (i : IncomeInput)
    (m : nat) :
  ~ incomeActive i m -> monthlyIncome Math_pow i m = 0.
Proof.
  intros Hn. unfold monthlyIncome.
  destruct (Z.ltb_spec (Z.of_nat m) (inc_startMonth i)) as [Hlt|Hge]; [reflexivity|].
  rewrite b64_afterEnd_true; [reflexivity|].
  intros He. apply Hn. split; [exact Hge | exact He].
Qed.

Lemma b64_monthlyExpense_inactive (Math_pow : float -> nat -> float) (e : ExpenseInput)
    (m : nat) :
  ~ expenseActive e m -> monthlyExpense Math_pow e m = 0.
Proof.
  intros Hn. unfold monthlyExpense.
  destruct (Z.ltb_spec (Z.of_nat m) (exp_startMonth e)) as [Hlt|Hge]; [reflexivity|].
  destruct (afterEnd m (exp_endMonth e)) eqn:Ea; [reflexivity|].
  destruct (exp_isOneTime e) eqn:Eo; cbn [andb].
  - destruct (Z.eqb_spec (Z.of_nat m) (exp_startMonth e)) as [Heq|Hne]; [|reflexivity].
    exfalso. apply Hn. split; [exact Hge|]. split; [|intros _; exact Heq].
    intros x Hx. rewrite Hx in Ea. cbn [afterEnd] in Ea.
    rewrite Z.gtb_ltb in Ea. now apply Z.ltb_ge in Ea.
  - exfalso. apply Hn. split; [exact Hge|]. split; [|intros Habs; congruence].
    intros x Hx. rewrite Hx in Ea. cbn [afterEnd] in Ea.
    rewrite Z.gtb_ltb in Ea. now apply Z.ltb_ge in Ea.
Qed.

(** X10: outside its window an item counts for nothing, as long as the
    numbers stay finite.  In a month in which no expense is active
    [totalExpenses] is 0 when the inflation multiplier of that month is
    finite, and in a month in which no income is active [totalIncome] is 0
    when [taxRate / 100] is finite. *)
Theorem inactive_items_count_for_nothing (Math_pow : float -> nat -> float)
    (s : ScenarioInput) :
  runnable s ->
  exists r, computeForecast Math_pow s = Ok r /\
    forall m sn, nth_error (snapshots r) m = Some sn ->
      ((forall e, In e (sc_expenses s) -> ~ expenseActive e m) ->
       is_finite (Math_pow (1 + inflationRate s / 100 / 12) m) = true ->
       totalExpenses sn = 0) /\
      ((forall i, In i (sc_incomes s) -> ~ incomeActive i m) ->
       is_finite (taxRate s / 100) = true ->
       totalIncome sn = 0).
Proof.
  intros Hr. destruct (b64_computeForecast_returns Math_pow s Hr) as [r Hok].
  exists r. split; [exact Hok|].
  intros m sn Hnth.
  rewrite (b64_forecast_snapshot Math_pow s r m sn Hok Hnth).
  destruct (b64_snapshot_fields Math_pow s m)
    as (_ & _ & _ & _ & _ & _ & Hinc & Hexp & _).
  rewrite Hinc, Hexp. split.
  - intros Hall Hfin. unfold totalExpensesAt, inflationMultiplier, monthlyInflation.
    rewrite (b64_fold_inactive (fun e => monthlyExpense Math_pow e m) _ _ Hfin).
    + vm_compute. reflexivity.
    + intros e Hin. apply b64_monthlyExpense_inactive. now apply Hall.
  - intros Hall Hfin. unfold netIncome, taxThisMonth, grossIncome.
    rewrite (b64_fold_zero (fun i => monthlyIncome Math_pow i m)).
    + replace (r2 0) with 0 by (vm_compute; reflexivity).
      destruct (b64_zero_times_finite _ Hfin) as [-> | ->]; vm_compute; reflexivity.
    + intros i Hin. apply b64_monthlyIncome_inactive. now apply Hall.
Qed.

(** In [windowed] the bonus ends with month 0 and the purchase falls in month
    1: month 2 has neither income nor expenses, under 3% inflation and a
    10% tax. *)
Lemma inactive_items_count_for_nothing_windowed :
  exists r sn, computeForecast powByMultiplying windowed = Ok r /\
    nth_error (snapshots r) 2 = Some sn /\
    totalExpenses sn = 0 /\ totalIncome sn = 0 /\
    map totalIncome (snapshots r) = [450; 0; 0; 0] /\
    map totalExpenses (snapshots r) = [0; 902.25; 0; 0].
Proof.
  destruct (inactive_items_count_for_nothing powByMultiplying windowed) as (r & Hok & Hall).
  - split; [cbn; lia | constructor].
  - assert (exists sn, nth_error (snapshots r) 2 = Some sn) as [sn Hsn].
    { destruct (b64_computeForecast_Ok _ _ _ Hok) as (-> & _).
      eexists. apply b64_runLoop_snapshots_nth. vm_compute. lia. }
    exists r, sn. split; [exact Hok|]. split; [exact Hsn|].
    destruct (Hall 2%nat sn Hsn) as [Hexp Hinc].
    split.
    { apply Hexp; [|vm_compute; reflexivity].
      intros e [<-|[]] (_ & _ & Hone). specialize (Hone eq_refl). discriminate Hone. }
    split.
    { apply Hinc; [|vm_compute; reflexivity].
      intros i [<-|[]] (_ & Hend). specialize (Hend 0%Z eq_refl). cbn in Hend. lia. }
    clear Hall Hexp Hinc. vm_compute in Hok. injection Hok as <-.
    split; vm_compute; reflexivity.
Defined.

(** The finiteness condition cannot be dropped.  In [hyperinflation] no
    expense is active after month 0, and from month 297 on the multiplier
    [11 ^ m] is infinite, [0 * Infinity] is NaN and [totalExpenses] is NaN. *)
Example inactive_expense_under_overflowing_inflation :
  exists r sn296 sn297,
    computeForecast powByMultiplying hyperinflation = Ok r /\
    (forall e, In e (sc_expenses hyperinflation) -> ~ expenseActive e 297) /\
    nth_error (snapshots r) 296 = Some sn296 /\ totalExpenses sn296 = 0 /\
    nth_error (snapshots r) 297 = Some sn297 /\ is_nan (totalExpenses sn297) = true /\
    is_finite (powByMultiplying (1 + 12000 / 100 / 12) 296) = true /\
    powByMultiplying (1 + 12000 / 100 / 12) 297 = infinity.
Proof.
  destruct (computeForecast powByMultiplying hyperinflation) as [r|e] eqn:Hr;
    [|vm_compute in Hr; discriminate Hr].
  vm_compute in Hr. injection Hr as <-.
  do 3 eexists. split; [reflexivity|]. split.
  { intros e [<-|[]] (_ & Hend & _). specialize (Hend 0%Z eq_refl). cbn in Hend. lia. }
  split; [reflexivity|]. split; [reflexivity|].
  split; [reflexivity|]. split; [reflexivity|].
  split; vm_compute; reflexivity.
Qed.

(** *** The expense-spike alert *)

Section RentAlert.

Variable toLocaleString : float -> string.
Variable toString : float -> string.

Lemma b64_cashAlerts_return (currency : string) (snaps : list MonthSnapshot)
    (ms : list nat) :
  Forall (fun m => (m < List.length snaps)%nat) ms ->
  exists al, mapM (cashAlert toLocaleString toString currency snaps) ms = Ok al /\
    Forall (fun a => alert_type a = AlertCash) al.
Proof.
  induction ms as [|m ms IH]; intros H.
  - exists []. split; [reflexivity | constructor].
  - inversion H as [|? ? Hm Hms]; subst.
    destruct (IH Hms) as (al & Hal & Hall).
    destruct (nth_error snaps m) as [sn|] eqn:E;
      [|apply nth_error_None in E; lia].
    eexists. split.
    + cbn [mapM]. unfold cashAlert at 1. rewrite E. cbn [deref bind].
      rewrite Hal. cbn [bind]. reflexivity.
    + constructor; [reflexivity | exact Hall].
Qed.

Lemma b64_rentSpikeFrom_spec (currency : string) (i : nat) (prev : float)
    (rest : list MonthSnapshot) :
  (rentSpikeFrom toLocaleString toString currency i prev rest = [] /\
   forall j c p, nth_error (prev :: map totalExpenses rest) j = Some p ->
                 nth_error (map totalExpenses rest) j = Some c -> ~ isSpike p c) \/
  (exists j a c p,
     rentSpikeFrom toLocaleString toString currency i prev rest = [a] /\
     alert_type a = AlertRent /\ monthIndex a = Z.of_nat (i + j) /\
     nth_error (prev :: map totalExpenses rest) j = Some p /\
     nth_error (map totalExpenses rest) j = Some c /\ isSpike p c /\
     forall j' c' p', (j' < j)%nat ->
       nth_error (prev :: map totalExpenses rest) j' = Some p' ->
       nth_error (map totalExpenses rest) j' = Some c' -> ~ isSpike p' c').
Proof.
  revert i prev. induction rest as [|sn rest IH]; intros i prev.
  - left. split; [reflexivity|]. intros j c p _ Hc. destruct j; discriminate.
  - cbn [rentSpikeFrom map].
    destruct ((0 <? prev) && (0.2 <? (totalExpenses sn - prev) / prev)) eqn:E.
    + right. apply andb_true_iff in E. destruct E as [E1 E2].
      exists 0%nat. do 3 eexists. split; [reflexivity|]. cbn [alert_type monthIndex].
      split; [reflexivity|]. split; [f_equal; lia|].
      split; [reflexivity|]. split; [reflexivity|]. split; [split; assumption|].
      intros j' c' p' Hj. lia.
    + assert (~ isSpike prev (totalExpenses sn)) as Hno.
      { intros [H1 H2]. rewrite H1, H2 in E. discriminate. }
      destruct (IH (S i) (totalExpenses sn))
        as [[Hnil Hall]|(j & a & c & p & Ha & Ht & Hm & Hp & Hc & Hs & Hmin)].
      * left. split; [exact Hnil|]. intros [|j] c p Hp Hc; cbn [nth_error] in *.
        -- inversion Hp; inversion Hc; subst. exact Hno.
        -- now apply (Hall j).
      * right. exists (S j), a, c, p. split; [exact Ha|]. split; [exact Ht|].
        split; [rewrite Hm; f_equal; lia|].
        split; [exact Hp|]. split; [exact Hc|]. split; [exact Hs|].
        intros [|j'] c' p' Hlt Hp' Hc'; cbn [nth_error] in *.
        -- inversion Hp'; inversion Hc'; subst. exact Hno.
        -- apply (Hmin j'); auto. lia.
Qed.

Lemma b64_spikeAt_pairs (sn0 : MonthSnapshot) (rest : list MonthSnapshot) (j : nat) :
  spikeAt (sn0 :: rest) (S j) <->
  exists p c, nth_error (totalExpenses sn0 :: map totalExpenses rest) j = Some p /\
              nth_error (map totalExpenses rest) j = Some c /\ isSpike p c.
Proof.
  unfold spikeAt. replace (S j - 1)%nat with j by lia.
  change (totalExpenses sn0 :: map totalExpenses rest)
    with (map totalExpenses (sn0 :: rest)).
  split.
  - intros (p & c & _ & Hp & Hc & Hs). cbn [nth_error] in Hc.
    exists (totalExpenses p), (totalExpenses c).
    rewrite !nth_error_map, Hp, Hc. repeat split; apply Hs.
  - intros (p & c & Hp & Hc & Hs). rewrite nth_error_map in Hp, Hc.
    destruct (nth_error (sn0 :: rest) j) as [sp|] eqn:Ep; [|discriminate].
    destruct (nth_error rest j) as [sc|] eqn:Ec; [|discriminate].
    inversion Hp; inversion Hc; subst.
    exists sp, sc. split; [lia|]. repeat split; auto; apply Hs.
Qed.

Lemma b64_rentSpike_spec (currency : string) (snaps : list MonthSnapshot) :
  (rentSpike toLocaleString toString currency snaps = [] /\
   forall i, ~ spikeAt snaps i) \/
  (exists i a, rentSpike toLocaleString toString currency snaps = [a] /\
     alert_type a = AlertRent /\ monthIndex a = Z.of_nat i /\
     spikeAt snaps i /\ forall i', (i' < i)%nat -> ~ spikeAt snaps i').
Proof.
  destruct snaps as [|sn0 rest].
  - left. split; [reflexivity|]. intros i (p & c & _ & Hp & _).
    destruct (i - 1)%nat; discriminate.
  - cbn [rentSpike].
    destruct (b64_rentSpikeFrom_spec currency 1 (totalExpenses sn0) rest)
      as [[Hnil Hall]|(j & a & c & p & Ha & Ht & Hm & Hp & Hc & Hs & Hmin)].
    + left. split; [exact Hnil|]. intros [|j] Hsp.
      * destruct Hsp as (_ & _ & H1 & _). lia.
      * apply b64_spikeAt_pairs in Hsp. destruct Hsp as (p & c & Hp & Hc & Hs).
        now apply (Hall j c p).
    + right. exists (S j), a. split; [exact Ha|]. split; [exact Ht|].
      split; [rewrite Hm; f_equal|].
      split; [apply b64_spikeAt_pairs; now exists p, c|].
      intros [|j'] Hlt Hsp.
      * destruct Hsp as (_ & _ & H1 & _). lia.
      * apply b64_spikeAt_pairs in Hsp. destruct Hsp as (p' & c' & Hp' & Hc' & Hs').
        apply (Hmin j' c' p'); auto. lia.
Qed.

End RentAlert.

Lemma b64_computeForecast_negativeMonthsInRange (Math_pow : float -> nat -> float)
    (s : ScenarioInput) (f : ForecastResult) :
  computeForecast Math_pow s = Ok f -> negativeMonthsInRange f.
Proof.
  intros Hok. destruct (b64_computeForecast_Ok Math_pow s f Hok) as (Hsn & _ & Hneg & _).
  unfold negativeMonthsInRange. rewrite Hsn, Hneg, b64_runLoop_snapshots_length.
  apply Forall_forall. intros m Hin. apply In_firstn_In in Hin.
  now apply b64_runLoop_negativeCashMonths in Hin.
Qed.

(** X15: the advisor raises at most one expense-spike ([rent]) alert, and it
    marks the first month [i >= 1] for which the engine's own test
    [prev > 0 && (curr - prev) / prev > 0.2] holds of the [totalExpenses] of
    months [i - 1] and [i]; without such a month there is no [rent] alert.
    The test is the binary64 one, so a rise of exactly 20% can pass it. *)
Theorem rent_alert_marks_first_spike (Math_pow : float -> nat -> float)
    (toLocaleString toString : float -> string)
    (s : ScenarioInput) (emergencyFundMonths : float) :
  runnable s ->
  exists f als,
    computeForecast Math_pow s = Ok f /\
    advisorAlerts toLocaleString toString s f emergencyFundMonths = Ok als /\
    (forall i,
       (exists a, In a als /\ alert_type a = AlertRent /\ monthIndex a = Z.of_nat i) <->
       (spikeAt (snapshots f) i /\ forall i', (i' < i)%nat -> ~ spikeAt (snapshots f) i')) /\
    (forall a b, In a als -> In b als ->
       alert_type a = AlertRent -> alert_type b = AlertRent -> a = b).
Proof.
  intros Hr. destruct (b64_computeForecast_returns Math_pow s Hr) as [f Hok].
  pose proof (b64_computeForecast_negativeMonthsInRange Math_pow s f Hok) as Hrange.
  destruct (b64_cashAlerts_return toLocaleString toString (sc_currency s) (snapshots f) _ Hrange)
    as (cal & Hcal & Hcash).
  rewrite Forall_forall in Hcash.
  exists f. eexists. split; [exact Hok|].
  split. { unfold advisorAlerts. rewrite Hcal. cbn [bind]. reflexivity. }
  set (rs := rentSpike toLocaleString toString (sc_currency s) (snapshots f)).
  set (tail := ((if 0 <? totalInterestEstimate s then [debtAlert toLocaleString s] else [])
                ++ (if endCash (summary f)
                       <? r2 (monthlyExpenses (snapshots f) * emergencyFundMonths)
                    then [emergencyAlert toLocaleString toString s f emergencyFundMonths
                            (r2 (monthlyExpenses (snapshots f) * emergencyFundMonths))]
                    else []))%list).
  assert (forall a, In a (cal ++ rs ++ tail)%list -> alert_type a = AlertRent -> In a rs)
    as Hrent.
  { intros a Hin Ht.
    apply in_app_or in Hin. destruct Hin as [Hin|Hin].
    { rewrite (Hcash a Hin) in Ht. discriminate Ht. }
    apply in_app_or in Hin. destruct Hin as [Hin|Hin]; [exact Hin|].
    unfold tail in Hin. apply in_app_or in Hin. destruct Hin as [Hin|Hin].
    - destruct (0 <? totalInterestEstimate s); [|destruct Hin].
      destruct Hin as [<-|[]]. discriminate Ht.
    - destruct (endCash (summary f) <? _); [|destruct Hin].
      destruct Hin as [<-|[]]. discriminate Ht. }
  assert (forall a, In a rs -> In a (cal ++ rs ++ tail)%list) as Hback.
  { intros a Hin. apply in_or_app. right. apply in_or_app. now left. }
  subst rs.
  destruct (b64_rentSpike_spec toLocaleString toString (sc_currency s) (snapshots f))
    as [[Hnil Hnone]|(i0 & a0 & Hone & Ht0 & Hm0 & Hs0 & Hmin0)].
  - split.
    + intros i. split.
      * intros (a & Hin & Ht & _). apply Hrent in Hin; [|exact Ht].
        rewrite Hnil in Hin. destruct Hin.
      * intros [Hsp _]. exfalso. now apply (Hnone i).
    + intros a b Ha _ Hta _. apply Hrent in Ha; [|exact Hta].
      rewrite Hnil in Ha. destruct Ha.
  - split.
    + intros i. split.
      * intros (a & Hin & Ht & Hm). apply Hrent in Hin; [|exact Ht].
        rewrite Hone in Hin. destruct Hin as [<-|[]].
        assert (i = i0) as -> by lia. split; assumption.
      * intros [Hsp Hmin]. exists a0.
        split; [apply Hback; rewrite Hone; now left|]. split; [exact Ht0|].
        rewrite Hm0. f_equal.
        destruct (Nat.lt_trichotomy i i0) as [Hlt|[Heq|Hgt]]; [|now symmetry|].
        -- exfalso. now apply (Hmin0 i).
        -- exfalso. now apply (Hmin i0).
    + intros a b Ha Hb Hta Htb.
      apply Hrent in Ha; [|exact Hta]. apply Hrent in Hb; [|exact Htb].
      rewrite Hone in Ha, Hb. destruct Ha as [<-|[]]. destruct Hb as [<-|[]].
      reflexivity.
Qed.

(** In [rentTwenty] the rent goes from 1003.5 to [r2 (1003.5 * 1.2)] = 1204.2
    in month 12, a rise of exactly 20%.  In binary64
    [(1204.2 - 1003.5) / 1003.5] is 0.20000000000000004, the test passes and
    the advisor raises the alert for month 12. *)
Lemma rent_alert_marks_first_spike_rentTwenty :
  exists f als a,
    computeForecast powByMultiplying rentTwenty = Ok f /\
    advisorAlerts plain plain rentTwenty f 3 = Ok als /\
    In a als /\ alert_type a = AlertRent /\ monthIndex a = 12%Z /\
    spikeAt (snapshots f) 12 /\
    map totalExpenses (firstn 2 (skipn 11 (snapshots f))) = [1003.5; 1204.2] /\
    (0.2 <? (1204.2 - 1003.5) / 1003.5) = true.
Proof.
  destruct (rent_alert_marks_first_spike powByMultiplying plain plain rentTwenty 3)
    as (f & als & Hok & Hal & Hchar & _).
  - split; [cbn; lia | constructor].
  - assert (exists a, In a als /\ alert_type a = AlertRent /\
                      monthIndex a = Z.of_nat 12) as (a & Hin & Ht & Hm).
    { assert (computeForecast powByMultiplying rentTwenty = Ok f) as Hf by exact Hok.
      vm_compute in Hf. injection Hf as Hf. rewrite <- Hf in Hal.
      vm_compute in Hal. injection Hal as Hal. rewrite <- Hal.
      eexists. split; [left; reflexivity|]. split; reflexivity. }
    exists f, als, a. split; [exact Hok|]. split; [exact Hal|].
    split; [exact Hin|]. split; [exact Ht|]. split; [exact Hm|].
    split.
    { apply (proj1 (Hchar 12%nat)).
      exists a. split; [exact Hin|]. split; [exact Ht | exact Hm]. }
    clear Hchar Hal Hin. vm_compute in Hok. injection Hok as <-.
    split; vm_compute; reflexivity.
Defined.

End Binary64.
